(** * KernelADHD state/persistence core: canonical form, content hash,
      entity store, reducer and mutation service.

    Sources embedded here:
    - [utils/canonical.ts]  ([canonicalize], [computeHash], [generateId]),
    - [utils/audit.ts]      ([createAuditEntry]),
    - [types/kernel.ts]     (the entity records),
    - [store/db.ts]         (the IndexedDB collections),
    - [store/context.tsx]   (the reducer and the mutation operations). *)

From Stdlib Require Import ZArith Ascii String List Sorted Permutation.
From stdpp Require Import base tactics option list sorting strings pretty gmap fin_maps.

Local Open Scope string_scope.
#[local] Set Warnings "-register-all".

(** ** JSON values and [Array.prototype.join] *)

Module Json.

(** JavaScript strings are modelled by their UTF-8 bytes.  The type of
    numbers is left open: [canonicalize] only hands a number to
    [JSON.stringify], whose number formatting is a parameter below. *)
Inductive json (num : Type) : Type :=
  | JNull                                   (* null (and undefined) *)
  | JBool (b : bool)
  | JNum (n : num)
  | JStr (s : string)
  | JArr (items : list (json num))
  | JObj (props : list (string * json num)). (* own properties, insertion order *)

Arguments JNull {num}.
Arguments JBool {num} b.
Arguments JNum {num} n.
Arguments JStr {num} s.
Arguments JArr {num} items.
Arguments JObj {num} props.

(** [xs.join(sep)] on an array of strings. *)
Fixpoint join (sep : string) (xs : list string) : string :=
  match xs with
  | [] => ""
  | [x] => x
  | x :: rest => x +:+ sep +:+ join sep rest
  end.

(** Lower-case hexadecimal digit of a value below 16. *)
Definition hex_digit (n : N) : ascii :=
  match n with
  | 0 => "0" | 1 => "1" | 2 => "2" | 3 => "3" | 4 => "4" | 5 => "5"
  | 6 => "6" | 7 => "7" | 8 => "8" | 9 => "9" | 10 => "a" | 11 => "b"
  | 12 => "c" | 13 => "d" | 14 => "e" | _ => "f"
  end%N%char.

(** [b.toString(16).padStart(2, '0')] for a byte. *)
Definition hex_byte (b : N) : string :=
  String (hex_digit (b / 16)) (String (hex_digit (b mod 16)) "").

(** One character of [JSON.stringify] applied to a string (QuoteJSONString):
    the quote and the backslash are escaped, control characters get their
    short escape or [\u00xx], every other byte is copied. *)
Definition quote_char (c : ascii) : string :=
  let n := N_of_ascii c in
  if (n =? 34)%N then "\" +:+ String c ""
  else if (n =? 92)%N then "\\"
  else if (n =? 8)%N then "\b"
  else if (n =? 12)%N then "\f"
  else if (n =? 10)%N then "\n"
  else if (n =? 13)%N then "\r"
  else if (n =? 9)%N then "\t"
  else if (n <? 32)%N then "\u00" +:+ hex_byte n
  else String c "".

Fixpoint quote_body (s : string) : string :=
  match s with
  | "" => ""
  | String c rest => quote_char c +:+ quote_body rest
  end.

(** The double quote character, code 34. *)
Definition dquote : ascii := ascii_of_N 34.

(** [JSON.stringify(s)] for a string [s]. *)
Definition JSON_stringify_string (s : string) : string :=
  String dquote (quote_body s +:+ String dquote "").

(** [JSON.stringify(b)] for a boolean. *)
Definition JSON_stringify_bool (b : bool) : string :=
  if b then "true" else "false".

(** [obj[k]] on the already canonicalized properties; a missing property
    reads as undefined, whose canonical form is ["null"]. *)
Fixpoint get_prop (k : string) (props : list (string * string)) : string :=
  match props with
  | [] => "null"
  | (k', v) :: rest => if decide (k' = k) then v else get_prop k rest
  end.

Section Canonicalize.
Context {num : Type}.
(** [JSON.stringify(n)] for a number: the host's number formatting. *)
Variable JSON_stringify_number : num -> string.

(** [canonicalize] of utils/canonical.ts.  [Object.keys(obj).sort()] is
    the sorted list of the property names; each pair is
    [JSON.stringify(k) + ':' + canonicalize(obj[k])].  [sort()] compares
    UTF-16 code units, [String.le] compares bytes: the two orders agree on
    names without characters beyond U+FFFF, and both are total orders,
    which is all the properties below use.  A value that is neither of the
    six JSON kinds (a function, a symbol) is outside [json]; the source
    returns the empty string for it. *)
Fixpoint canonicalize (obj : json num) : string :=
  match obj with
  | JNull => "null"
  | JBool b => JSON_stringify_bool b
  | JNum n => JSON_stringify_number n
  | JStr s => JSON_stringify_string s
  | JArr items => "[" +:+ join "," (map canonicalize items) +:+ "]"
  | JObj props =>
      let keys := merge_sort String.le (map fst props) in
      let vals := map (fun kv => match kv with
                                 | (k, v) => (k, canonicalize v)
                                 end) props in
      let pairs := map (fun k => JSON_stringify_string k +:+ ":" +:+ get_prop k vals) keys in
      "{" +:+ join "," pairs +:+ "}"
  end.
End Canonicalize.

End Json.

(** ** SHA-256, the digest behind [crypto.subtle.digest('SHA-256', _)] *)

Module Sha256.
Local Open Scope Z_scope.

(** 32-bit words are integers reduced modulo 2^32. *)
Definition w32 (x : Z) : Z := x mod 4294967296.
Definition add32 (x y : Z) : Z := w32 (x + y).
Definition rotr (n x : Z) : Z := Z.lor (Z.shiftr x n) (w32 (Z.shiftl x (32 - n))).
Definition not32 (x : Z) : Z := 4294967295 - x.

Definition Ch (x y z : Z) : Z := Z.lxor (Z.land x y) (Z.land (not32 x) z).
Definition Maj (x y z : Z) : Z :=
  Z.lxor (Z.lxor (Z.land x y) (Z.land x z)) (Z.land y z).
Definition Sigma0 (x : Z) : Z := Z.lxor (Z.lxor (rotr 2 x) (rotr 13 x)) (rotr 22 x).
Definition Sigma1 (x : Z) : Z := Z.lxor (Z.lxor (rotr 6 x) (rotr 11 x)) (rotr 25 x).
Definition sigma0 (x : Z) : Z := Z.lxor (Z.lxor (rotr 7 x) (rotr 18 x)) (Z.shiftr x 3).
Definition sigma1 (x : Z) : Z := Z.lxor (Z.lxor (rotr 17 x) (rotr 19 x)) (Z.shiftr x 10).

(** Largest [r] below [2 ^ bits] with [r ^ 3 <= n], one bit at a time. *)
Fixpoint cube_root_bits (bits : nat) (n r : Z) : Z :=
  match bits with
  | O => r
  | S b =>
      let r' := r + Z.shiftl 1 (Z.of_nat b) in
      cube_root_bits b n (if r' * r' * r' <=? n then r' else r)
  end.

Definition is_prime (n : nat) : bool :=
  forallb (fun d => negb (Nat.eqb (n mod d) 0)) (seq 2 (n - 2)).

(** The primes up to 311: the first 64. *)
Definition primes : list Z :=
  map Z.of_nat (List.filter is_prime (seq 2 310)).

(** Round constants, as derived: the first 32 bits of the fractional parts
    of the cube roots of the first 64 primes. *)
Definition K_derived : list Z :=
  map (fun p => w32 (cube_root_bits 36 (Z.shiftl p 96) 0)) primes.

(** Initial hash value, as derived: the first 32 bits of the fractional
    parts of the square roots of the first 8 primes. *)
Definition H0_derived : list Z :=
  map (fun p => w32 (Z.sqrt (Z.shiftl p 64))) (take 8 primes).

(** The same constants, evaluated. *)
Definition K : list Z :=
  Eval vm_compute in K_derived.

Definition H0 : list Z :=
  Eval vm_compute in H0_derived.

(** Big-endian bytes of a value, [n] bytes wide. *)
Fixpoint be_bytes (n : nat) (x : Z) : list Z :=
  match n with
  | O => []
  | S n' => be_bytes n' (Z.shiftr x 8) ++ [x mod 256]
  end.

(** Message padding: a one bit, zeros up to 56 modulo 64, then the bit
    length on eight bytes. *)
Definition pad (msg : list Z) : list Z :=
  let len := Z.of_nat (length msg) in
  let zeros := Z.to_nat ((55 - len) mod 64) in
  msg ++ [128] ++ repeat 0 zeros ++ be_bytes 8 (8 * len).

Fixpoint words_of_bytes (bs : list Z) : list Z :=
  match bs with
  | b0 :: b1 :: b2 :: b3 :: rest =>
      (((b0 * 256 + b1) * 256 + b2) * 256 + b3) :: words_of_bytes rest
  | _ => []
  end.

(** Message schedule, kept most recent word first: [rev_w] holds
    W(t-1), W(t-2), ... *)
Fixpoint extend (n : nat) (rev_w : list Z) : list Z :=
  match n with
  | O => rev_w
  | S n' =>
      let w := add32 (add32 (sigma1 (nth 1 rev_w 0)) (nth 6 rev_w 0))
                     (add32 (sigma0 (nth 14 rev_w 0)) (nth 15 rev_w 0)) in
      extend n' (w :: rev_w)
  end.

Definition schedule (block : list Z) : list Z := rev (extend 48 (rev block)).

Definition round (st : list Z) (kw : Z * Z) : list Z :=
  match st with
  | [a; b; c; d; e; f; g; h] =>
      let t1 := add32 (add32 (add32 h (Sigma1 e)) (add32 (Ch e f g) (fst kw))) (snd kw) in
      let t2 := add32 (Sigma0 a) (Maj a b c) in
      [add32 t1 t2; a; b; c; add32 d t1; e; f; g]
  | _ => st
  end.

Definition compress (h : list Z) (block : list Z) : list Z :=
  let st := fold_left round (combine K (schedule block)) h in
  map (fun p => add32 (fst p) (snd p)) (combine h st).

Fixpoint blocks (n : nat) (ws : list Z) : list (list Z) :=
  match n with
  | O => []
  | S n' => take 16 ws :: blocks n' (drop 16 ws)
  end.

(** The 32 digest bytes of a message given as bytes. *)
Definition digest (msg : list Z) : list Z :=
  let ws := words_of_bytes (pad msg) in
  let hs := fold_left compress (blocks (length ws / 16) ws) H0 in
  concat (map (be_bytes 4) hs).

End Sha256.

(** ** [computeHash] and [generateId] of utils/canonical.ts *)

Import Json.

(** [new TextEncoder().encode(s)]: the UTF-8 bytes of the string. *)
Fixpoint TextEncoder_encode (s : string) : list Z :=
  match s with
  | "" => []
  | String c rest => Z.of_N (N_of_ascii c) :: TextEncoder_encode rest
  end.

(** Lower-case hex rendering of the digest bytes, two digits per byte. *)
Definition hex_of_bytes (bs : list Z) : string :=
  join "" (map (fun b => hex_byte (Z.to_N b)) bs).

Definition sha256_hex (s : string) : string :=
  hex_of_bytes (Sha256.digest (TextEncoder_encode s)).

(** [JSON.stringify(n)] for the integer-valued numbers of the entity
    model (weekday indices, [max_visible_tasks]): plain decimal. *)
Definition JSON_stringify_number (n : Z) : string := pretty n.

Abbreviation value := (json Z).

(** [computeHash(data)]: SHA-256 of the UTF-8 bytes of the canonical form,
    as lower-case hex. *)
Definition computeHash (data : value) : string :=
  let canonical := canonicalize JSON_stringify_number data in
  sha256_hex canonical.

(** ** The entity model of types/kernel.ts *)

Inductive EnergyLevel := low | medium | high.
Inductive Importance := important | optional | someday.
Inductive TaskStatus := pending | active | completed | deferred.
Inductive EdgeType := depends_on | blocks | related_to | part_of | scheduled_after.
Inductive Frequency := daily | weekdays | weekly | monthly.
Inductive TimeOfDay := morning | afternoon | evening | anytime.
Inductive EntityType := ent_task | ent_routine | ent_edge | ent_kernel | ent_ai_suggestion.
Inductive AuditAction :=
  | task_created | task_edited | task_completed | task_deferred | task_deleted
  | routine_created | routine_edited | edge_created | edge_deleted
  | kernel_imported | kernel_exported
  | ai_suggestion_accepted | ai_suggestion_rejected.
Inductive Theme := calm | ocean | forest | sunset | midnight.
Inductive ViewType := view_list | view_focus | view_graph | view_timeline | view_history.
Inductive AiProvider := groq | anthropic | openai.

Record LDSMeta := {
  lds_v : string;
  lds_type : string;
  lds_id : string;
  lds_created : string;
  lds_updated : string;
  lds_content_hash : string }.

Record MicroStep := {
  ms_id : string;
  ms_text : string;
  ms_completed : bool }.

Record TaskEdge := {
  edge_id : string;
  edge_source : string;
  edge_target : string;
  edge_type : EdgeType }.

Record RecurringConfig := {
  rc_frequency : Frequency;
  rc_days : option (list Z);
  rc_time : option string }.

(** [Omit<Task, '$lds'>]: what a caller hands to [createTask]. *)
Record TaskData := {
  title : string;
  description : string;
  status : TaskStatus;
  energy : EnergyLevel;
  importance : Importance;
  micro_steps : list MicroStep;
  due_date : option string;
  scheduled_date : option string;
  tags : list string;
  recurring : option RecurringConfig;
  completed_at : option string;
  created_at : string;
  updated_at : string }.

(** [Task]: the [$lds] block next to the fields of [TaskData]. *)
Record Task := {
  task_lds : LDSMeta;
  task_data : TaskData }.

Record Routine := {
  routine_lds : LDSMeta;
  routine_name : string;
  routine_description : string;
  time_of_day : TimeOfDay;
  task_ids : list string;
  routine_active : bool }.

Record AuditEntry := {
  audit_id : string;
  audit_timestamp : string;
  audit_action : AuditAction;
  entity_type : EntityType;
  entity_id : string;
  details : list (string * value) }.

Record UserPreferences := {
  theme : Theme;
  default_view : ViewType;
  max_visible_tasks : Z;
  audio_enabled : bool;
  notifications_enabled : bool;
  ai_api_key : option string;
  ai_provider : AiProvider }.

Record AppState := {
  tasks : list Task;
  edges : list TaskEdge;
  routines : list Routine;
  auditLog : list AuditEntry;
  preferences : UserPreferences;
  currentView : ViewType;
  selectedTaskId : option string;
  editingTaskId : option string;
  showTaskEditor : bool;
  isLoading : bool;
  aiSuggestion : option string }.

(** [t.$lds.id] *)
Definition task_id (t : Task) : string := lds_id (task_lds t).
Definition routine_id (r : Routine) : string := lds_id (routine_lds r).

(** *** Record updates written as object spreads in the source *)

Definition set_content_hash (h : string) (m : LDSMeta) : LDSMeta :=
  {| lds_v := lds_v m; lds_type := lds_type m; lds_id := lds_id m;
     lds_created := lds_created m; lds_updated := lds_updated m;
     lds_content_hash := h |}.

Definition set_updated (ts : string) (m : LDSMeta) : LDSMeta :=
  {| lds_v := lds_v m; lds_type := lds_type m; lds_id := lds_id m;
     lds_created := lds_created m; lds_updated := ts;
     lds_content_hash := lds_content_hash m |}.

Definition with_lds (m : LDSMeta) (t : Task) : Task :=
  {| task_lds := m; task_data := task_data t |}.

Definition set_status (st : TaskStatus) (d : TaskData) : TaskData :=
  {| title := title d; description := description d; status := st;
     energy := energy d; importance := importance d;
     micro_steps := micro_steps d; due_date := due_date d;
     scheduled_date := scheduled_date d; tags := tags d;
     recurring := recurring d; completed_at := completed_at d;
     created_at := created_at d; updated_at := updated_at d |}.

Definition set_completed_at (c : option string) (d : TaskData) : TaskData :=
  {| title := title d; description := description d; status := status d;
     energy := energy d; importance := importance d;
     micro_steps := micro_steps d; due_date := due_date d;
     scheduled_date := scheduled_date d; tags := tags d;
     recurring := recurring d; completed_at := c;
     created_at := created_at d; updated_at := updated_at d |}.

Definition set_micro_steps (ms : list MicroStep) (d : TaskData) : TaskData :=
  {| title := title d; description := description d; status := status d;
     energy := energy d; importance := importance d;
     micro_steps := ms; due_date := due_date d;
     scheduled_date := scheduled_date d; tags := tags d;
     recurring := recurring d; completed_at := completed_at d;
     created_at := created_at d; updated_at := updated_at d |}.

(** [{ ...s, completed: true }] *)
Definition complete_step (s : MicroStep) : MicroStep :=
  {| ms_id := ms_id s; ms_text := ms_text s; ms_completed := true |}.

(** *** The entities as the JavaScript objects [canonicalize] walks *)

Definition status_str (s : TaskStatus) : string :=
  match s with
  | pending => "pending" | active => "active"
  | completed => "completed" | deferred => "deferred"
  end.
Definition energy_str (e : EnergyLevel) : string :=
  match e with low => "low" | medium => "medium" | high => "high" end.
Definition importance_str (i : Importance) : string :=
  match i with
  | important => "important" | optional => "optional" | someday => "someday"
  end.
Definition frequency_str (f : Frequency) : string :=
  match f with
  | daily => "daily" | weekdays => "weekdays"
  | weekly => "weekly" | monthly => "monthly"
  end.

(** [string | null] *)
Definition nullable (o : option string) : value :=
  match o with Some s => JStr s | None => JNull end.

(** An optional property ([days?], [time?]) is present only when set. *)
Definition optional_prop (k : string) (o : option value) : list (string * value) :=
  match o with Some x => [(k, x)] | None => [] end.

Definition lds_to_json (m : LDSMeta) : value :=
  JObj [ ("v", JStr (lds_v m)); ("type", JStr (lds_type m));
         ("id", JStr (lds_id m)); ("created", JStr (lds_created m));
         ("updated", JStr (lds_updated m));
         ("content_hash", JStr (lds_content_hash m)) ].

Definition micro_step_to_json (s : MicroStep) : value :=
  JObj [ ("id", JStr (ms_id s)); ("text", JStr (ms_text s));
         ("completed", JBool (ms_completed s)) ].

Definition recurring_to_json (r : RecurringConfig) : value :=
  JObj ([ ("frequency", JStr (frequency_str (rc_frequency r))) ]
        ++ optional_prop "days" (option_map (fun ds => JArr (map JNum ds)) (rc_days r))
        ++ optional_prop "time" (option_map JStr (rc_time r))).

Definition task_data_props (d : TaskData) : list (string * value) :=
  [ ("title", JStr (title d));
    ("description", JStr (description d));
    ("status", JStr (status_str (status d)));
    ("energy", JStr (energy_str (energy d)));
    ("importance", JStr (importance_str (importance d)));
    ("micro_steps", JArr (map micro_step_to_json (micro_steps d)));
    ("due_date", nullable (due_date d));
    ("scheduled_date", nullable (scheduled_date d));
    ("tags", JArr (map JStr (tags d)));
    ("recurring", match recurring d with
                  | Some r => recurring_to_json r
                  | None => JNull
                  end);
    ("completed_at", nullable (completed_at d));
    ("created_at", JStr (created_at d));
    ("updated_at", JStr (updated_at d)) ].

(** The object [{ ...taskData, $lds: {...} }]. *)
Definition task_to_json (t : Task) : value :=
  JObj (task_data_props (task_data t) ++ [ ("$lds", lds_to_json (task_lds t)) ]).

(** ** The IndexedDB collections of store/db.ts *)

(** Every object store is a map from key to record.  The key of a record
    is read off the record through the store's key path ([$lds.id] for
    tasks and routines, [id] for edges and audit entries); the preferences
    store holds one record under the fixed key ["user_prefs"]. *)
Record DB := {
  db_tasks : gmap string Task;
  db_edges : gmap string TaskEdge;
  db_routines : gmap string Routine;
  db_audit : gmap string AuditEntry;
  db_preferences : gmap string UserPreferences }.

Definition user_prefs : string := "user_prefs".

(** [db.getAll(store)]: every record of the store. *)
Definition getAll {A} (store : gmap string A) : list A := (map_to_list store).*2.

(** [store.put(x)] for each [x] of a list, in order. *)
Definition put_each {A} (key : A -> string) (xs : list A) (store : gmap string A)
  : gmap string A :=
  fold_left (fun m x => <[key x := x]> m) xs store.

(** The host: the clock behind [new Date()] and [Date.now()], and
    [Math.random()].  [host_iso n] is the ISO string and [host_now36 n] the
    base-36 millisecond count of the [n]-th reading of the clock;
    [host_random36 n] is [Math.random().toString(36).substring(2, 8)] for
    the [n]-th draw. *)
Record Host := {
  host_iso : nat -> string;
  host_now36 : nat -> string;
  host_random36 : nat -> string }.

Record World := {
  host : Host;
  clock : nat;            (* readings of the clock so far *)
  draws : nat;            (* calls of Math.random so far *)
  db : DB;                (* the durable collections *)
  app : AppState }.       (* the in-memory mirror held by useReducer *)

Definition with_db (d : DB) (w : World) : World :=
  {| host := host w; clock := clock w; draws := draws w; db := d; app := app w |}.
Definition with_app (a : AppState) (w : World) : World :=
  {| host := host w; clock := clock w; draws := draws w; db := db w; app := a |}.

(** *** Asynchronous operations as a state-and-exception monad *)

Inductive Exception :=
  | ConstraintError (key : string)   (* db.add on a key already present *)
  | SyntaxError                      (* JSON.parse on a malformed text *)
  | TypeError                        (* for-of over a value that is not iterable *)
  | DataError                        (* store.put of a value without a key *)
  | ReferenceError (name : string).  (* a name that is not in scope *)

Inductive Outcome (A : Type) :=
  | Ok (a : A) (w : World)
  | Throw (e : Exception) (w : World).
Arguments Ok {A} a w.
Arguments Throw {A} e w.

Definition M (A : Type) : Type := World -> Outcome A.

Definition ret {A} (a : A) : M A := fun w => Ok a w.
Definition throw {A} (e : Exception) : M A := fun w => Throw e w.
Definition bind {A B} (c : M A) (k : A -> M B) : M B :=
  fun w => match c w with
           | Ok a w' => k a w'
           | Throw e w' => Throw e w'
           end.

Declare Scope async_scope.
Delimit Scope async_scope with async.
Notation "'let*' x := c 'in' k" := (bind c (fun x => k))
  (at level 10, x name, c at level 100, k at level 200) : async_scope.
Notation "c ;; k" := (bind c (fun _ => k))
  (at level 100, k at level 200, right associativity) : async_scope.

(** The world an operation leaves behind, whether it returned or threw. *)
Definition world_of {A} (o : Outcome A) : World :=
  match o with Ok _ w => w | Throw _ w => w end.

Definition get_db : M DB := fun w => Ok (db w) w.
Definition set_db (d : DB) : M unit := fun w => Ok tt (with_db d w).
(** Reading [state] inside an operation.  Operations run one at a time,
    each against the state the one before left. *)
Definition get_state : M AppState := fun w => Ok (app w) w.

(** [new Date().toISOString()] *)
Definition Date_toISOString : M string :=
  fun w => Ok (host_iso (host w) (clock w))
              {| host := host w; clock := S (clock w); draws := draws w;
                 db := db w; app := app w |}.

(** [Date.now().toString(36)] *)
Definition Date_now36 : M string :=
  fun w => Ok (host_now36 (host w) (clock w))
              {| host := host w; clock := S (clock w); draws := draws w;
                 db := db w; app := app w |}.

(** [Math.random().toString(36).substring(2, 8)] *)
Definition Math_random36 : M string :=
  fun w => Ok (host_random36 (host w) (draws w))
              {| host := host w; clock := clock w; draws := S (draws w);
                 db := db w; app := app w |}.

Local Open Scope async_scope.

(** [generateId(prefix)] of utils/canonical.ts *)
Definition generateId (prefix : string) : M string :=
  let* ts := Date_now36 in
  let* rand := Math_random36 in
  ret (prefix +:+ "_" +:+ ts +:+ "_" +:+ rand).

(** [createAuditEntry] of utils/audit.ts *)
Definition createAuditEntry (action : AuditAction) (entityType : EntityType)
    (entityId : string) (d : list (string * value)) : M AuditEntry :=
  let* id := generateId "audit" in
  let* ts := Date_toISOString in
  ret {| audit_id := id; audit_timestamp := ts; audit_action := action;
         entity_type := entityType; entity_id := entityId; details := d |}.

(** *** store/db.ts *)

Definition getAllTasks : M (list Task) := fun w => Ok (getAll (db_tasks (db w))) w.
Definition getAllEdges : M (list TaskEdge) := fun w => Ok (getAll (db_edges (db w))) w.
Definition getAllRoutines : M (list Routine) := fun w => Ok (getAll (db_routines (db w))) w.
Definition getAllAuditEntries : M (list AuditEntry) :=
  fun w => Ok (getAll (db_audit (db w))) w.

Definition putTask (t : Task) : M unit :=
  let* d := get_db in
  set_db {| db_tasks := <[task_id t := t]> (db_tasks d); db_edges := db_edges d;
            db_routines := db_routines d; db_audit := db_audit d;
            db_preferences := db_preferences d |}.

Definition deleteTask (taskId : string) : M unit :=
  let* d := get_db in
  set_db {| db_tasks := delete taskId (db_tasks d); db_edges := db_edges d;
            db_routines := db_routines d; db_audit := db_audit d;
            db_preferences := db_preferences d |}.

Definition putEdge (e : TaskEdge) : M unit :=
  let* d := get_db in
  set_db {| db_tasks := db_tasks d; db_edges := <[edge_id e := e]> (db_edges d);
            db_routines := db_routines d; db_audit := db_audit d;
            db_preferences := db_preferences d |}.

Definition deleteEdge (edgeId : string) : M unit :=
  let* d := get_db in
  set_db {| db_tasks := db_tasks d; db_edges := delete edgeId (db_edges d);
            db_routines := db_routines d; db_audit := db_audit d;
            db_preferences := db_preferences d |}.

Definition putRoutine (r : Routine) : M unit :=
  let* d := get_db in
  set_db {| db_tasks := db_tasks d; db_edges := db_edges d;
            db_routines := <[routine_id r := r]> (db_routines d);
            db_audit := db_audit d; db_preferences := db_preferences d |}.

(** [appendAudit]: [db.add] rejects a key that is already present. *)
Definition appendAudit (entry : AuditEntry) : M unit :=
  let* d := get_db in
  match db_audit d !! audit_id entry with
  | Some _ => throw (ConstraintError (audit_id entry))
  | None =>
      set_db {| db_tasks := db_tasks d; db_edges := db_edges d;
                db_routines := db_routines d;
                db_audit := <[audit_id entry := entry]> (db_audit d);
                db_preferences := db_preferences d |}
  end.

(** [getPreferences]: the record under ["user_prefs"], or null. *)
Definition getPreferences : M (option UserPreferences) :=
  fun w => Ok (db_preferences (db w) !! user_prefs) w.

Definition putPreferences (prefs : UserPreferences) : M unit :=
  let* d := get_db in
  set_db {| db_tasks := db_tasks d; db_edges := db_edges d;
            db_routines := db_routines d; db_audit := db_audit d;
            db_preferences := <[user_prefs := prefs]> (db_preferences d) |}.

(** The object returned by [exportKernel]. *)
Record KernelExport := {
  ex_tasks : list Task;
  ex_edges : list TaskEdge;
  ex_routines : list Routine;
  ex_audit : list AuditEntry;
  ex_preferences : option UserPreferences }.

(** The argument of [importKernel]; [preferences] is optional there. *)
Record KernelImport := {
  im_tasks : list Task;
  im_edges : list TaskEdge;
  im_routines : list Routine;
  im_preferences : option UserPreferences }.

Definition exportKernel : M KernelExport :=
  let* ts := getAllTasks in
  let* es := getAllEdges in
  let* rs := getAllRoutines in
  let* au := getAllAuditEntries in
  let* pr := getPreferences in
  ret {| ex_tasks := ts; ex_edges := es; ex_routines := rs;
         ex_audit := au; ex_preferences := pr |}.

(** The argument of [importKernel] as it is at run time.  [importData]
    hands over whatever [JSON.parse] returned, and [importKernel] checks
    nothing: it reads [data.tasks], [data.edges] and [data.routines] in a
    [for ... of] loop, which throws a TypeError on a value that is not
    iterable (a missing field, null, a number, a plain object), and calls
    [put] on each element, which throws a DataError on an element without
    a key at the key path of the store (a number, a string, an object
    without id).  Elements that do have a key are records as
    types/kernel.ts declares them, and so is a [preferences] field that
    is not null or missing. *)
Inductive Element (A : Type) :=
  | Keyed (x : A)
  | Keyless.
Arguments Keyed {A} x.
Arguments Keyless {A}.

Inductive Field (A : Type) :=
  | NotIterable
  | Elements (xs : list (Element A)).
Arguments NotIterable {A}.
Arguments Elements {A} xs.

Record KernelData := {
  kd_tasks : Field Task;
  kd_edges : Field TaskEdge;
  kd_routines : Field Routine;
  kd_preferences : option UserPreferences }.

(** A value of the declared parameter type, as the mount effect passes it. *)
Definition typed (data : KernelImport) : KernelData :=
  {| kd_tasks := Elements (map Keyed (im_tasks data));
     kd_edges := Elements (map Keyed (im_edges data));
     kd_routines := Elements (map Keyed (im_routines data));
     kd_preferences := im_preferences data |}.
Coercion typed : KernelImport >-> KernelData.

(** [tx.objectStore(name).clear()] *)
Definition clearTasks : M unit :=
  let* d := get_db in
  set_db {| db_tasks := ∅; db_edges := db_edges d; db_routines := db_routines d;
            db_audit := db_audit d; db_preferences := db_preferences d |}.

Definition clearEdges : M unit :=
  let* d := get_db in
  set_db {| db_tasks := db_tasks d; db_edges := ∅; db_routines := db_routines d;
            db_audit := db_audit d; db_preferences := db_preferences d |}.

Definition clearRoutines : M unit :=
  let* d := get_db in
  set_db {| db_tasks := db_tasks d; db_edges := db_edges d; db_routines := ∅;
            db_audit := db_audit d; db_preferences := db_preferences d |}.

(** [for (const x of field) await store.put(x)] *)
Fixpoint put_elements {A} (put : A -> M unit) (xs : list (Element A)) : M unit :=
  match xs with
  | [] => ret tt
  | Keyed x :: rest => put x ;; put_elements put rest
  | Keyless :: _ => throw DataError
  end.

Definition for_of {A} (field : Field A) (put : A -> M unit) : M unit :=
  match field with
  | NotIterable => throw TypeError
  | Elements xs => put_elements put xs
  end.

(** [importKernel]: one transaction over tasks, edges, routines and
    preferences; the audit store is not part of it.  Nothing aborts the
    transaction: when a loop throws, the requests made so far stay in it
    and are committed once the function has been left, so the writes up
    to the exception are kept. *)
Definition importKernel (data : KernelData) : M unit :=
  clearTasks ;;
  for_of (kd_tasks data) putTask ;;
  clearEdges ;;
  for_of (kd_edges data) putEdge ;;
  clearRoutines ;;
  for_of (kd_routines data) putRoutine ;;
  match kd_preferences data with
  | Some prefs => putPreferences prefs
  | None => ret tt
  end.

(** ** The reducer and the mutation service of store/context.tsx *)

(** The payload of [LOAD_ALL]. *)
Record Loaded := {
  ld_tasks : list Task;
  ld_edges : list TaskEdge;
  ld_routines : list Routine;
  ld_auditLog : list AuditEntry;
  ld_preferences : UserPreferences }.

Inductive Action :=
  | SET_LOADING (payload : bool)
  | LOAD_ALL (payload : Loaded)
  | SET_VIEW (payload : ViewType)
  | SELECT_TASK (payload : option string)
  | SET_EDITING (payload : option string)
  | SHOW_EDITOR (payload : bool)
  | UPSERT_TASK (payload : Task)
  | REMOVE_TASK (payload : string)
  | UPSERT_EDGE (payload : TaskEdge)
  | REMOVE_EDGE (payload : string)
  | ADD_AUDIT (payload : AuditEntry)
  | SET_PREFERENCES (payload : UserPreferences)
  | SET_AI_SUGGESTION (payload : option string)
  | UPSERT_ROUTINE (payload : Routine).

(** [xs.find(p) ? xs.map(x => p(x) ? y : x) : [...xs, y]] *)
Definition upsert {A} (p : A -> bool) (y : A) (xs : list A) : list A :=
  match List.find p xs with
  | Some _ => map (fun x => if p x then y else x) xs
  | None => xs ++ [y]
  end.

Definition reducer (state : AppState) (action : Action) : AppState :=
  match action with
  | SET_LOADING b =>
      {| tasks := tasks state; edges := edges state; routines := routines state;
         auditLog := auditLog state; preferences := preferences state;
         currentView := currentView state; selectedTaskId := selectedTaskId state;
         editingTaskId := editingTaskId state; showTaskEditor := showTaskEditor state;
         isLoading := b; aiSuggestion := aiSuggestion state |}
  | LOAD_ALL p =>
      {| tasks := ld_tasks p; edges := ld_edges p; routines := ld_routines p;
         auditLog := ld_auditLog p; preferences := ld_preferences p;
         currentView := default_view (ld_preferences p);
         selectedTaskId := selectedTaskId state;
         editingTaskId := editingTaskId state; showTaskEditor := showTaskEditor state;
         isLoading := false; aiSuggestion := aiSuggestion state |}
  | SET_VIEW v =>
      {| tasks := tasks state; edges := edges state; routines := routines state;
         auditLog := auditLog state; preferences := preferences state;
         currentView := v; selectedTaskId := selectedTaskId state;
         editingTaskId := editingTaskId state; showTaskEditor := showTaskEditor state;
         isLoading := isLoading state; aiSuggestion := aiSuggestion state |}
  | SELECT_TASK i =>
      {| tasks := tasks state; edges := edges state; routines := routines state;
         auditLog := auditLog state; preferences := preferences state;
         currentView := currentView state; selectedTaskId := i;
         editingTaskId := editingTaskId state; showTaskEditor := showTaskEditor state;
         isLoading := isLoading state; aiSuggestion := aiSuggestion state |}
  | SET_EDITING i =>
      {| tasks := tasks state; edges := edges state; routines := routines state;
         auditLog := auditLog state; preferences := preferences state;
         currentView := currentView state; selectedTaskId := selectedTaskId state;
         editingTaskId := i;
         showTaskEditor := match i with Some _ => true | None => false end;
         isLoading := isLoading state; aiSuggestion := aiSuggestion state |}
  | SHOW_EDITOR b =>
      {| tasks := tasks state; edges := edges state; routines := routines state;
         auditLog := auditLog state; preferences := preferences state;
         currentView := currentView state; selectedTaskId := selectedTaskId state;
         editingTaskId := if b then editingTaskId state else None;
         showTaskEditor := b;
         isLoading := isLoading state; aiSuggestion := aiSuggestion state |}
  | UPSERT_TASK t =>
      {| tasks := upsert (fun x => String.eqb (task_id x) (task_id t)) t (tasks state);
         edges := edges state; routines := routines state;
         auditLog := auditLog state; preferences := preferences state;
         currentView := currentView state; selectedTaskId := selectedTaskId state;
         editingTaskId := editingTaskId state; showTaskEditor := showTaskEditor state;
         isLoading := isLoading state; aiSuggestion := aiSuggestion state |}
  | REMOVE_TASK i =>
      {| tasks := List.filter (fun t => negb (String.eqb (task_id t) i)) (tasks state);
         edges := List.filter (fun e => negb (String.eqb (edge_source e) i)
                                        && negb (String.eqb (edge_target e) i))
                              (edges state);
         routines := routines state;
         auditLog := auditLog state; preferences := preferences state;
         currentView := currentView state; selectedTaskId := selectedTaskId state;
         editingTaskId := editingTaskId state; showTaskEditor := showTaskEditor state;
         isLoading := isLoading state; aiSuggestion := aiSuggestion state |}
  | UPSERT_EDGE e =>
      {| tasks := tasks state;
         edges := upsert (fun x => String.eqb (edge_id x) (edge_id e)) e (edges state);
         routines := routines state;
         auditLog := auditLog state; preferences := preferences state;
         currentView := currentView state; selectedTaskId := selectedTaskId state;
         editingTaskId := editingTaskId state; showTaskEditor := showTaskEditor state;
         isLoading := isLoading state; aiSuggestion := aiSuggestion state |}
  | REMOVE_EDGE i =>
      {| tasks := tasks state;
         edges := List.filter (fun e => negb (String.eqb (edge_id e) i)) (edges state);
         routines := routines state;
         auditLog := auditLog state; preferences := preferences state;
         currentView := currentView state; selectedTaskId := selectedTaskId state;
         editingTaskId := editingTaskId state; showTaskEditor := showTaskEditor state;
         isLoading := isLoading state; aiSuggestion := aiSuggestion state |}
  | ADD_AUDIT a =>
      {| tasks := tasks state; edges := edges state; routines := routines state;
         auditLog := auditLog state ++ [a]; preferences := preferences state;
         currentView := currentView state; selectedTaskId := selectedTaskId state;
         editingTaskId := editingTaskId state; showTaskEditor := showTaskEditor state;
         isLoading := isLoading state; aiSuggestion := aiSuggestion state |}
  | SET_PREFERENCES p =>
      {| tasks := tasks state; edges := edges state; routines := routines state;
         auditLog := auditLog state; preferences := p;
         currentView := currentView state; selectedTaskId := selectedTaskId state;
         editingTaskId := editingTaskId state; showTaskEditor := showTaskEditor state;
         isLoading := isLoading state; aiSuggestion := aiSuggestion state |}
  | SET_AI_SUGGESTION x =>
      {| tasks := tasks state; edges := edges state; routines := routines state;
         auditLog := auditLog state; preferences := preferences state;
         currentView := currentView state; selectedTaskId := selectedTaskId state;
         editingTaskId := editingTaskId state; showTaskEditor := showTaskEditor state;
         isLoading := isLoading state; aiSuggestion := x |}
  | UPSERT_ROUTINE r =>
      {| tasks := tasks state; edges := edges state;
         routines := upsert (fun x => String.eqb (routine_id x) (routine_id r)) r
                            (routines state);
         auditLog := auditLog state; preferences := preferences state;
         currentView := currentView state; selectedTaskId := selectedTaskId state;
         editingTaskId := editingTaskId state; showTaskEditor := showTaskEditor state;
         isLoading := isLoading state; aiSuggestion := aiSuggestion state |}
  end.

(** [dispatch(action)] *)
Definition dispatch (action : Action) : M unit :=
  fun w => Ok tt (with_app (reducer (app w) action) w).

(** [Partial<UserPreferences>] *)
Record PartialPreferences := {
  p_theme : option Theme;
  p_default_view : option ViewType;
  p_max_visible_tasks : option Z;
  p_audio_enabled : option bool;
  p_notifications_enabled : option bool;
  p_ai_api_key : option (option string);
  p_ai_provider : option AiProvider }.

(** [{ ...prefs, ...partial }] *)
Definition merge_preferences (prefs : UserPreferences) (partial : PartialPreferences)
  : UserPreferences :=
  {| theme := default (theme prefs) (p_theme partial);
     default_view := default (default_view prefs) (p_default_view partial);
     max_visible_tasks := default (max_visible_tasks prefs) (p_max_visible_tasks partial);
     audio_enabled := default (audio_enabled prefs) (p_audio_enabled partial);
     notifications_enabled :=
       default (notifications_enabled prefs) (p_notifications_enabled partial);
     ai_api_key := default (ai_api_key prefs) (p_ai_api_key partial);
     ai_provider := default (ai_provider prefs) (p_ai_provider partial) |}.

(** The text handed to [importData].  Its concrete syntax is not modelled;
    a text is given by what [JSON.parse] makes of it:
    - the text [JSON.stringify] made of an export document.  Every field of
      the documents is a string, a boolean, null, an integer, an array or a
      plain object, so [JSON.parse] gives back what [JSON.stringify] was
      handed;
    - any other well-formed text ([{}], a document without a routines
      array, a JSON string or number, ...), by what [importKernel] can see
      of the parsed value;
    - a text that is not JSON. *)
Inductive JsonText :=
  | Serialized (doc : KernelExport)
  | WellFormed (data : KernelData)
  | Malformed (raw : string).

(** [JSON.stringify(data, null, 2)] *)
Definition JSON_stringify (data : KernelExport) : JsonText := Serialized data.

(** [JSON.parse(json)], read as the argument of [importKernel]. *)
Definition JSON_parse (json : JsonText) : M KernelData :=
  match json with
  | Serialized doc =>
      ret (typed {| im_tasks := ex_tasks doc; im_edges := ex_edges doc;
                    im_routines := ex_routines doc;
                    im_preferences := ex_preferences doc |})
  | WellFormed data => ret data
  | Malformed _ => throw SyntaxError
  end.

(** The names store/context.tsx imports from ./db (lines 6 to 13). *)
Definition db_imports : list string :=
  [ "getAllTasks"; "putTask"; "deleteTask"; "getAllEdges"; "putEdge"; "deleteEdge";
    "getAllRoutines"; "putRoutine"; "getAllAuditEntries"; "appendAudit";
    "getPreferences"; "putPreferences"; "isSeeded"; "importKernel" ].

(** A call of a function of store/db.ts from context.tsx by its bare name:
    a name the module neither imports nor declares throws a ReferenceError
    when the call is evaluated.  The calls of imported names are written
    without it. *)
Definition call_db {A} (name : string) (f : M A) : M A :=
  if existsb (String.eqb name) db_imports then f
  else throw (ReferenceError name).

Section Service.
(** [defaultPreferences] comes from data/seed.ts. *)
Variable defaultPreferences : UserPreferences.

Definition initialState : AppState :=
  {| tasks := []; edges := []; routines := []; auditLog := [];
     preferences := defaultPreferences; currentView := view_list;
     selectedTaskId := None; editingTaskId := None; showTaskEditor := false;
     isLoading := true; aiSuggestion := None |}.

(** The reload shared by the mount effect and [importData]: read the five
    collections and dispatch [LOAD_ALL]. *)
Definition loadAll : M unit :=
  let* ts := getAllTasks in
  let* es := getAllEdges in
  let* rs := getAllRoutines in
  let* au := getAllAuditEntries in
  let* pr := getPreferences in
  dispatch (LOAD_ALL {| ld_tasks := ts; ld_edges := es; ld_routines := rs;
                        ld_auditLog := au;
                        ld_preferences := default defaultPreferences pr |}).

Definition logAudit (action : AuditAction) (entityType : EntityType)
    (entityId : string) (d : list (string * value)) : M unit :=
  let* entry := createAuditEntry action entityType entityId d in
  appendAudit entry ;;
  dispatch (ADD_AUDIT entry).

(** [state.tasks.find((t) => t.$lds.id === taskId)] *)
Definition find_task (taskId : string) (st : AppState) : option Task :=
  List.find (fun t => String.eqb (task_id t) taskId) (tasks st).

Definition createTask (taskData : TaskData) : M Task :=
  let* id := generateId "task" in
  let* nowISO := Date_toISOString in
  let task := {| task_lds := {| lds_v := "1.0.0"; lds_type := "kernel.task";
                                lds_id := id; lds_created := nowISO;
                                lds_updated := nowISO; lds_content_hash := "" |};
                 task_data := taskData |} in
  let task := with_lds (set_content_hash (computeHash (task_to_json task)) (task_lds task))
                       task in
  putTask task ;;
  dispatch (UPSERT_TASK task) ;;
  logAudit task_created ent_task id [("title", JStr (title (task_data task)))] ;;
  ret task.

(** [updateTask] assigns to [task.$lds] in place; the record [task] below
    is the object after each assignment. *)
Definition updateTask (task : Task) : M unit :=
  let* now := Date_toISOString in
  let task := with_lds (set_updated now (task_lds task)) task in
  let task := with_lds (set_content_hash (computeHash (task_to_json task)) (task_lds task))
                       task in
  putTask task ;;
  dispatch (UPSERT_TASK task) ;;
  logAudit task_edited ent_task (task_id task) [("title", JStr (title (task_data task)))].

Definition completeTask (taskId : string) : M unit :=
  let* st := get_state in
  match find_task taskId st with
  | None => ret tt
  | Some task =>
      let* completedAt := Date_toISOString in
      let updated :=
        {| task_lds := task_lds task;
           task_data :=
             set_micro_steps (map complete_step (micro_steps (task_data task)))
               (set_completed_at (Some completedAt)
                  (set_status completed (task_data task))) |} in
      let* now := Date_toISOString in
      let updated := with_lds (set_updated now (task_lds updated)) updated in
      let updated :=
        with_lds (set_content_hash (computeHash (task_to_json updated)) (task_lds updated))
                 updated in
      putTask updated ;;
      dispatch (UPSERT_TASK updated) ;;
      logAudit task_completed ent_task taskId [("title", JStr (title (task_data task)))]
  end.

Definition deferTask (taskId : string) : M unit :=
  let* st := get_state in
  match find_task taskId st with
  | None => ret tt
  | Some task =>
      let updated := {| task_lds := task_lds task;
                        task_data := set_status deferred (task_data task) |} in
      let* now := Date_toISOString in
      let updated := with_lds (set_updated now (task_lds updated)) updated in
      let updated :=
        with_lds (set_content_hash (computeHash (task_to_json updated)) (task_lds updated))
                 updated in
      putTask updated ;;
      dispatch (UPSERT_TASK updated) ;;
      logAudit task_deferred ent_task taskId [("title", JStr (title (task_data task)))]
  end.

(** [for (const edge of relatedEdges) await dbDeleteEdge(edge.id)] *)
Fixpoint deleteEdges (es : list TaskEdge) : M unit :=
  match es with
  | [] => ret tt
  | e :: rest => deleteEdge (edge_id e) ;; deleteEdges rest
  end.

(** [task?.title || 'Unknown']: a missing task and an empty title both
    give ['Unknown']. *)
Definition title_or_unknown (task : option Task) : string :=
  match task with
  | Some t => if String.eqb (title (task_data t)) "" then "Unknown"
              else title (task_data t)
  | None => "Unknown"
  end.

Definition removeTask (taskId : string) : M unit :=
  let* st := get_state in
  let task := find_task taskId st in
  deleteTask taskId ;;
  let relatedEdges :=
    List.filter (fun e => String.eqb (edge_source e) taskId
                          || String.eqb (edge_target e) taskId) (edges st) in
  deleteEdges relatedEdges ;;
  dispatch (REMOVE_TASK taskId) ;;
  logAudit task_deleted ent_task taskId [("title", JStr (title_or_unknown task))].

Definition edge_type_str (t : EdgeType) : string :=
  match t with
  | depends_on => "depends_on" | blocks => "blocks" | related_to => "related_to"
  | part_of => "part_of" | scheduled_after => "scheduled_after"
  end.

Definition addEdge (source target : string) (type : EdgeType) : M unit :=
  let* id := generateId "edge" in
  let edge := {| edge_id := id; edge_source := source; edge_target := target;
                 edge_type := type |} in
  putEdge edge ;;
  dispatch (UPSERT_EDGE edge) ;;
  logAudit edge_created ent_edge (edge_id edge)
    [("source", JStr source); ("target", JStr target);
     ("type", JStr (edge_type_str type))].

Definition removeEdge (edgeId : string) : M unit :=
  deleteEdge edgeId ;;
  dispatch (REMOVE_EDGE edgeId) ;;
  logAudit edge_deleted ent_edge edgeId [].

Definition updatePreferences (partial : PartialPreferences) : M unit :=
  let* st := get_state in
  let updated := merge_preferences (preferences st) partial in
  putPreferences updated ;;
  dispatch (SET_PREFERENCES updated).

(** [exportAllData].  Its first statement calls [exportKernel], a name
    store/db.ts exports and context.tsx does not import. *)
Definition exportAllData : M JsonText :=
  let* data := call_db "exportKernel" exportKernel in
  logAudit kernel_exported ent_kernel "full_export" [] ;;
  ret (JSON_stringify data).

Definition importData (json : JsonText) : M unit :=
  let* data := JSON_parse json in
  importKernel data ;;
  loadAll ;;
  logAudit kernel_imported ent_kernel "full_import" [].

End Service.

(** ** Specification vocabulary *)

(** [key_permuted a b]: [b] is [a] with the properties of some of its
    objects, at any depth, listed in another order.  Property names of an
    object are distinct. *)
Inductive key_permuted {num : Type} : json num -> json num -> Prop :=
  | kp_same v : key_permuted v v
  | kp_array xs ys :
      Forall2 key_permuted xs ys -> key_permuted (JArr xs) (JArr ys)
  | kp_object ps qs qs' :
      NoDup (map fst ps) ->
      Forall2 (fun p q => fst p = fst q /\ key_permuted (snd p) (snd q)) ps qs' ->
      Permutation qs' qs ->
      key_permuted (JObj ps) (JObj qs).

(** The operations the presentation layer may call. *)
Inductive Op :=
  | OpCreateTask (draft : TaskData)
  | OpUpdateTask (task : Task)
  | OpCompleteTask (taskId : string)
  | OpDeferTask (taskId : string)
  | OpRemoveTask (taskId : string)
  | OpAddEdge (source target : string) (type : EdgeType)
  | OpRemoveEdge (edgeId : string)
  | OpUpdatePreferences (partial : PartialPreferences)
  | OpExportAll
  | OpImportAll (json : JsonText).

(** Every key of a store is the key-path value of its record. *)
Definition keyed {A} (key : A -> string) (store : gmap string A) : Prop :=
  forall k x, store !! k = Some x -> key x = k.

Definition store_keyed (d : DB) : Prop :=
  keyed task_id (db_tasks d) /\ keyed edge_id (db_edges d)
  /\ keyed routine_id (db_routines d).

(** The id [logAudit] gives its entry when it starts in world [w]. *)
Definition next_audit_id (w : World) : string :=
  "audit" +:+ "_" +:+ host_now36 (host w) (clock w) +:+ "_"
          +:+ host_random36 (host w) (draws w).

(** The entry [logAudit] builds when it starts in world [w]. *)
Definition next_audit_entry (action : AuditAction) (entityType : EntityType)
    (entityId : string) (d : list (string * value)) (w : World) : AuditEntry :=
  {| audit_id := next_audit_id w;
     audit_timestamp := host_iso (host w) (S (clock w));
     audit_action := action; entity_type := entityType;
     entity_id := entityId; details := d |}.

Section Runs.
Variable defaultPreferences : UserPreferences.

Definition run_op (op : Op) : M unit :=
  match op with
  | OpCreateTask d => createTask d ;; ret tt
  | OpUpdateTask t => updateTask t
  | OpCompleteTask i => completeTask i
  | OpDeferTask i => deferTask i
  | OpRemoveTask i => removeTask i
  | OpAddEdge s t ty => addEdge s t ty
  | OpRemoveEdge i => removeEdge i
  | OpUpdatePreferences p => updatePreferences p
  | OpExportAll => exportAllData ;; ret tt
  | OpImportAll j => importData defaultPreferences j
  end.

(** A session: the operations run one after the other, each to its end;
    an operation that throws leaves the world it reached. *)
Definition run (ops : list Op) (w : World) : World :=
  fold_left (fun w op => world_of (run_op op w)) ops w.

(** The worlds of a session: the mount effect loads the mirror from the
    store (which it has seeded first when the store had no task), then
    operations run.  The store it loads from is any store whose records sit
    under their key-path value, as IndexedDB keeps them.  Until the effect
    has dispatched [LOAD_ALL] the application renders its loading screen
    only (App.tsx), so no operation runs before. *)
Inductive reachable : World -> Prop :=
  | reach_mount w :
      store_keyed (db w) -> reachable (world_of (loadAll defaultPreferences w))
  | reach_step w op :
      reachable w -> reachable (world_of (run_op op w)).

End Runs.

Local Close Scope async_scope.

(** ** The worlds and records an operation passes through

    Each definition names an intermediate result of an operation; the
    lemmas [*_run] below link them to the operations. *)

(** The world after [n] more readings of the clock and [r] more draws. *)
Definition tick (n r : nat) (w : World) : World :=
  {| host := host w; clock := n + clock w; draws := r + draws w;
     db := db w; app := app w |}.

(** The world after [logAudit] stored [entry] and dispatched [ADD_AUDIT]. *)
Definition audit_appended (entry : AuditEntry) (w : World) : World :=
  {| host := host w; clock := 2 + clock w; draws := 1 + draws w;
     db := {| db_tasks := db_tasks (db w); db_edges := db_edges (db w);
              db_routines := db_routines (db w);
              db_audit := <[audit_id entry := entry]> (db_audit (db w));
              db_preferences := db_preferences (db w) |};
     app := reducer (app w) (ADD_AUDIT entry) |}.

(** The id [generateId(prefix)] returns when called in world [w]. *)
Definition next_id (prefix : string) (w : World) : string :=
  prefix +:+ "_" +:+ host_now36 (host w) (clock w) +:+ "_"
         +:+ host_random36 (host w) (draws w).

(** [task.$lds.content_hash = await computeHash(task)] *)
Definition stamp_hash (t : Task) : Task :=
  with_lds (set_content_hash (computeHash (task_to_json t)) (task_lds t)) t.

(** The task [createTask] builds from a draft in world [w]. *)
Definition new_task (d : TaskData) (w : World) : Task :=
  stamp_hash
    {| task_lds := {| lds_v := "1.0.0"; lds_type := "kernel.task";
                      lds_id := next_id "task" w;
                      lds_created := host_iso (host w) (S (clock w));
                      lds_updated := host_iso (host w) (S (clock w));
                      lds_content_hash := "" |};
       task_data := d |}.

(** The task [updateTask] stores for its argument in world [w]. *)
Definition edited_task (t : Task) (w : World) : Task :=
  stamp_hash (with_lds (set_updated (host_iso (host w) (clock w)) (task_lds t)) t).

(** The task [completeTask] stores for a task found in world [w]. *)
Definition completed_task (t : Task) (w : World) : Task :=
  stamp_hash
    (with_lds (set_updated (host_iso (host w) (S (clock w))) (task_lds t))
       {| task_lds := task_lds t;
          task_data :=
            set_micro_steps (map complete_step (micro_steps (task_data t)))
              (set_completed_at (Some (host_iso (host w) (clock w)))
                 (set_status completed (task_data t))) |}).

(** The task [deferTask] stores for a task found in world [w]. *)
Definition deferred_task (t : Task) (w : World) : Task :=
  stamp_hash
    (with_lds (set_updated (host_iso (host w) (clock w)) (task_lds t))
       {| task_lds := task_lds t;
          task_data := set_status deferred (task_data t) |}).

(** The world after [putTask(t)] and [dispatch(UPSERT_TASK t)], [n] clock
    readings and [r] draws later. *)
Definition task_stored (t : Task) (n r : nat) (w : World) : World :=
  {| host := host w; clock := n + clock w; draws := r + draws w;
     db := {| db_tasks := <[task_id t := t]> (db_tasks (db w));
              db_edges := db_edges (db w); db_routines := db_routines (db w);
              db_audit := db_audit (db w);
              db_preferences := db_preferences (db w) |};
     app := reducer (app w) (UPSERT_TASK t) |}.

(** [state.edges.filter((e) => e.source === taskId || e.target === taskId)] *)
Definition relatedEdges (taskId : string) (st : AppState) : list TaskEdge :=
  List.filter (fun e => String.eqb (edge_source e) taskId
                        || String.eqb (edge_target e) taskId) (edges st).

(** The edge store after deleting the ids of the given edges. *)
Definition edges_deleted (es : list TaskEdge) (store : gmap string TaskEdge)
  : gmap string TaskEdge :=
  fold_left (fun m e => delete (edge_id e) m) es store.

(** The world after the deletions and the [REMOVE_TASK] of [removeTask]. *)
Definition task_removed (taskId : string) (w : World) : World :=
  {| host := host w; clock := clock w; draws := draws w;
     db := {| db_tasks := delete taskId (db_tasks (db w));
              db_edges := edges_deleted (relatedEdges taskId (app w)) (db_edges (db w));
              db_routines := db_routines (db w); db_audit := db_audit (db w);
              db_preferences := db_preferences (db w) |};
     app := reducer (app w) (REMOVE_TASK taskId) |}.

(** The edge [addEdge] builds in world [w]. *)
Definition new_edge (source target : string) (type : EdgeType) (w : World) : TaskEdge :=
  {| edge_id := next_id "edge" w; edge_source := source; edge_target := target;
     edge_type := type |}.

(** The world after [putEdge(e)] and [dispatch(UPSERT_EDGE e)]. *)
Definition edge_stored (e : TaskEdge) (w : World) : World :=
  {| host := host w; clock := 1 + clock w; draws := 1 + draws w;
     db := {| db_tasks := db_tasks (db w);
              db_edges := <[edge_id e := e]> (db_edges (db w));
              db_routines := db_routines (db w); db_audit := db_audit (db w);
              db_preferences := db_preferences (db w) |};
     app := reducer (app w) (UPSERT_EDGE e) |}.

(** The world after [dbDeleteEdge(edgeId)] and [dispatch(REMOVE_EDGE)]. *)
Definition edge_removed (edgeId : string) (w : World) : World :=
  {| host := host w; clock := clock w; draws := draws w;
     db := {| db_tasks := db_tasks (db w);
              db_edges := delete edgeId (db_edges (db w));
              db_routines := db_routines (db w); db_audit := db_audit (db w);
              db_preferences := db_preferences (db w) |};
     app := reducer (app w) (REMOVE_EDGE edgeId) |}.

(** The world after [updatePreferences(partial)]. *)
Definition preferences_stored (partial : PartialPreferences) (w : World) : World :=
  {| host := host w; clock := clock w; draws := draws w;
     db := {| db_tasks := db_tasks (db w); db_edges := db_edges (db w);
              db_routines := db_routines (db w); db_audit := db_audit (db w);
              db_preferences :=
                <[user_prefs := merge_preferences (preferences (app w)) partial]>
                  (db_preferences (db w)) |};
     app := reducer (app w)
              (SET_PREFERENCES (merge_preferences (preferences (app w)) partial)) |}.

(** The document [exportKernel] reads off the store. *)
Definition exported (d : DB) : KernelExport :=
  {| ex_tasks := getAll (db_tasks d); ex_edges := getAll (db_edges d);
     ex_routines := getAll (db_routines d); ex_audit := getAll (db_audit d);
     ex_preferences := db_preferences d !! user_prefs |}.

(** The store after [importKernel(data)]. *)
Definition imported (data : KernelImport) (d : DB) : DB :=
  {| db_tasks := put_each task_id (im_tasks data) ∅;
     db_edges := put_each edge_id (im_edges data) ∅;
     db_routines := put_each routine_id (im_routines data) ∅;
     db_audit := db_audit d;
     db_preferences :=
       match im_preferences data with
       | Some p => <[user_prefs := p]> (db_preferences d)
       | None => db_preferences d
       end |}.

(** The store a loop of [put]s leaves, and the exception that ended it. *)
Fixpoint put_until_keyless {A} (key : A -> string) (xs : list (Element A))
    (store : gmap string A) : gmap string A * option Exception :=
  match xs with
  | [] => (store, None)
  | Keyed x :: rest => put_until_keyless key rest (<[key x := x]> store)
  | Keyless :: _ => (store, Some DataError)
  end.

(** The store after [clear()] and the loop over a field. *)
Definition field_stored {A} (key : A -> string) (field : Field A)
  : gmap string A * option Exception :=
  match field with
  | NotIterable => (∅, Some TypeError)
  | Elements xs => put_until_keyless key xs ∅
  end.

(** The store [importKernel(data)] leaves, and the exception it threw if
    it did not run to its end: the collections are cleared and filled one
    after the other, and the ones after the exception are as they were. *)
Definition import_attempt (data : KernelData) (d : DB) : DB * option Exception :=
  let ts := field_stored task_id (kd_tasks data) in
  let es := field_stored edge_id (kd_edges data) in
  let rs := field_stored routine_id (kd_routines data) in
  match ts.2, es.2, rs.2 with
  | Some e, _, _ =>
      ({| db_tasks := ts.1; db_edges := db_edges d; db_routines := db_routines d;
          db_audit := db_audit d; db_preferences := db_preferences d |}, Some e)
  | None, Some e, _ =>
      ({| db_tasks := ts.1; db_edges := es.1; db_routines := db_routines d;
          db_audit := db_audit d; db_preferences := db_preferences d |}, Some e)
  | None, None, Some e =>
      ({| db_tasks := ts.1; db_edges := es.1; db_routines := rs.1;
          db_audit := db_audit d; db_preferences := db_preferences d |}, Some e)
  | None, None, None =>
      ({| db_tasks := ts.1; db_edges := es.1; db_routines := rs.1;
          db_audit := db_audit d;
          db_preferences :=
            match kd_preferences data with
            | Some p => <[user_prefs := p]> (db_preferences d)
            | None => db_preferences d
            end |}, None)
  end.

(** The mirror after [LOAD_ALL] with the content of store [d]. *)
Definition loaded (defaultPreferences : UserPreferences) (d : DB) (st : AppState)
  : AppState :=
  reducer st
    (LOAD_ALL {| ld_tasks := getAll (db_tasks d); ld_edges := getAll (db_edges d);
                 ld_routines := getAll (db_routines d);
                 ld_auditLog := getAll (db_audit d);
                 ld_preferences :=
                   default defaultPreferences (db_preferences d !! user_prefs) |}).

(** What [JSON.parse] makes of an export document. *)
Definition as_import (doc : KernelExport) : KernelImport :=
  {| im_tasks := ex_tasks doc; im_edges := ex_edges doc;
     im_routines := ex_routines doc; im_preferences := ex_preferences doc |}.

(** An operation that returns [a] once its audit entry is written. *)
Definition then_return {A} (a : A) (o : Outcome unit) : Outcome A :=
  match o with
  | Ok _ w => Ok a w
  | Throw e w => Throw e w
  end.

(** The mirror lists every stored edge, and every stored edge sits under
    its own id. *)
Definition edges_mirrored (w : World) : Prop :=
  forall k e, db_edges (db w) !! k = Some e -> k = edge_id e /\ In e (edges (app w)).





(** ** The mount effect, and the callers of the mutation service *)

Local Open Scope async_scope.

(** [isSeeded] of store/db.ts: [db.count('tasks') > 0]. *)
Definition isSeeded : M bool :=
  fun w => Ok (negb (Nat.eqb (size (db_tasks (db w))) 0)) w.

(** [for (const entry of seedAuditLog) await appendAudit(entry)] *)
Fixpoint appendAudits (entries : list AuditEntry) : M unit :=
  match entries with
  | [] => ret tt
  | entry :: rest => appendAudit entry ;; appendAudits rest
  end.

Section Mount.
(** The seed data of data/seed.ts. *)
Variable defaultPreferences : UserPreferences.
Variable seedTasks : list Task.
Variable seedEdges : list TaskEdge.
Variable seedRoutines : list Routine.
Variable seedAuditLog : list AuditEntry.

(** The first half of the mount effect: seed a store that has no task. *)
Definition seedIfEmpty : M unit :=
  let* seeded := isSeeded in
  if seeded then ret tt
  else
    (importKernel {| im_tasks := seedTasks; im_edges := seedEdges;
                     im_routines := seedRoutines;
                     im_preferences := Some defaultPreferences |} ;;
     appendAudits seedAuditLog).

(** The effect [AppProvider] runs on mount: seed when needed, then read the
    collections and dispatch [LOAD_ALL]. *)
Definition mount : M unit :=
  seedIfEmpty ;;
  loadAll defaultPreferences.
End Mount.

(** [{ ...s, completed: !s.completed }] for the step with the given id,
    every other step as it is (TaskCard and FocusView). *)
Definition toggle_steps (stepId : string) (steps : list MicroStep) : list MicroStep :=
  map (fun s => if String.eqb (ms_id s) stepId
                then {| ms_id := ms_id s; ms_text := ms_text s;
                        ms_completed := negb (ms_completed s) |}
                else s) steps.

(** [toggleStep(stepId)] of TaskCard: the task with the toggled steps goes
    to [updateTask]. *)
Definition toggleStep (task : Task) (stepId : string) : M unit :=
  updateTask {| task_lds := task_lds task;
                task_data := set_micro_steps
                               (toggle_steps stepId (micro_steps (task_data task)))
                               (task_data task) |}.

(** *** The focus queue of FocusView *)

Definition importanceOrder (i : Importance) : Z :=
  match i with important => 0 | optional => 1 | someday => 2 end.

Definition energyOrder (e : EnergyLevel) : Z :=
  match e with low => 0 | medium => 1 | high => 2 end.

(** The comparator handed to [sort]: importance first, then energy. *)
Definition focus_compare (a b : Task) : Z :=
  if negb (importanceOrder (importance (task_data a))
           =? importanceOrder (importance (task_data b)))%Z
  then (importanceOrder (importance (task_data a))
        - importanceOrder (importance (task_data b)))%Z
  else (energyOrder (energy (task_data a)) - energyOrder (energy (task_data b)))%Z.

(** [Array.prototype.sort(compare)] is stable: elements that compare equal
    keep their order.  [sort_insert] puts an element in front of a sorted
    list of elements that came after it. *)
Fixpoint sort_insert {A} (compare : A -> A -> Z) (x : A) (sorted : list A) : list A :=
  match sorted with
  | [] => [x]
  | y :: rest =>
      if (compare x y <=? 0)%Z then x :: y :: rest
      else y :: sort_insert compare x rest
  end.

Fixpoint Array_sort {A} (compare : A -> A -> Z) (xs : list A) : list A :=
  match xs with
  | [] => []
  | x :: rest => sort_insert compare x (Array_sort compare rest)
  end.

(** [t.status !== 'completed' && t.status !== 'deferred'] *)
Definition is_open (t : Task) : bool :=
  match status (task_data t) with
  | completed | deferred => false
  | pending | active => true
  end.

(** [t.scheduled_date === today || (!t.scheduled_date && t.importance ===
    'important')]; an empty string counts as no date. *)
Definition in_focus (today : string) (t : Task) : bool :=
  match scheduled_date (task_data t) with
  | Some d =>
      String.eqb d today
      || (String.eqb d ""
          && match importance (task_data t) with important => true | _ => false end)
  | None => match importance (task_data t) with important => true | _ => false end
  end.

Definition focusQueue (today : string) (ts : list Task) : list Task :=
  Array_sort focus_compare (List.filter (in_focus today) (List.filter is_open ts)).

(** [handleComplete] and [handleSkip] of FocusView act on the head of the
    queue, and do nothing when it is empty. *)
Definition handleComplete (today : string) : M unit :=
  let* st := get_state in
  match focusQueue today (tasks st) with
  | [] => ret tt
  | currentTask :: _ => completeTask (task_id currentTask)
  end.

Definition handleSkip (today : string) : M unit :=
  let* st := get_state in
  match focusQueue today (tasks st) with
  | [] => ret tt
  | currentTask :: _ => deferTask (task_id currentTask)
  end.

(** *** Specification vocabulary for the properties below *)

(** The audit store after adding the given entries, each under its id. *)
Definition audits_added (entries : list AuditEntry) (store : gmap string AuditEntry)
  : gmap string AuditEntry :=
  fold_left (fun m e => <[audit_id e := e]> m) entries store.

(** The store after the seeding of the mount effect. *)
Definition seeded (defaultPreferences : UserPreferences) (seedTasks : list Task)
    (seedEdges : list TaskEdge) (seedRoutines : list Routine) (d : DB) : DB :=
  imported {| im_tasks := seedTasks; im_edges := seedEdges;
              im_routines := seedRoutines;
              im_preferences := Some defaultPreferences |} d.

(** The record under key [k] after [put_each]: the last one of the list
    with that key. *)
Definition last_with_key {A} (key : A -> string) (k : string) (xs : list A)
  : option A :=
  List.find (fun x => String.eqb (key x) k) (rev xs).

(** A character [JSON.stringify] may leave in its output: not a control
    character. *)
Definition printable (c : ascii) : bool := (32 <=? N_of_ascii c)%N.

(** A lower-case hexadecimal digit. *)
Definition is_hex_digit (c : ascii) : bool :=
  let n := N_of_ascii c in
  ((48 <=? n) && (n <=? 57) || (97 <=? n) && (n <=? 102))%N.

(** Value of a lower-case hexadecimal digit; other characters count 0. *)
Definition hex_value (c : ascii) : N :=
  let n := N_of_ascii c in
  if ((48 <=? n) && (n <=? 57))%N then (n - 48)%N
  else if ((97 <=? n) && (n <=? 102))%N then (n - 87)%N
  else 0%N.

(** Reads back the first character of a quoted string body: an escape
    sequence or a plain character.  A raw double quote ends the body and is
    not read. *)
Definition unquote_char (s : string) : option (ascii * string) :=
  match s with
  | "" => None
  | String c rest =>
      if (N_of_ascii c =? 34)%N then None
      else if (N_of_ascii c =? 92)%N then
        match rest with
        | String e rest' =>
            if (N_of_ascii e =? 34)%N then Some (ascii_of_N 34, rest')
            else if (N_of_ascii e =? 92)%N then Some (ascii_of_N 92, rest')
            else if (N_of_ascii e =? 98)%N then Some (ascii_of_N 8, rest')
            else if (N_of_ascii e =? 102)%N then Some (ascii_of_N 12, rest')
            else if (N_of_ascii e =? 110)%N then Some (ascii_of_N 10, rest')
            else if (N_of_ascii e =? 114)%N then Some (ascii_of_N 13, rest')
            else if (N_of_ascii e =? 116)%N then Some (ascii_of_N 9, rest')
            else if (N_of_ascii e =? 117)%N then
              match rest' with
              | String _ (String _ (String h (String l rest''))) =>
                  Some (ascii_of_N (16 * hex_value h + hex_value l), rest'')
              | _ => None
              end
            else None
        | "" => None
        end
      else Some (c, rest)
  end.

(** The mirror holds exactly the stored tasks and edges, each under its
    own id and each id once, exactly the stored audit entries, and the
    stored preferences (the default ones when none are stored). *)
Definition mirror_exact (defaultPreferences : UserPreferences) (w : World) : Prop :=
  NoDup (map task_id (tasks (app w)))
  /\ (forall k t, db_tasks (db w) !! k = Some t
                  <-> k = task_id t /\ In t (tasks (app w)))
  /\ NoDup (map edge_id (edges (app w)))
  /\ (forall k e, db_edges (db w) !! k = Some e
                  <-> k = edge_id e /\ In e (edges (app w)))
  /\ (forall a, In a (auditLog (app w)) <-> exists k, db_audit (db w) !! k = Some a)
  /\ preferences (app w)
     = default defaultPreferences (db_preferences (db w) !! user_prefs).

(** An import that stopped between the first [clear] and [LOAD_ALL]: one
    of the loops of [importKernel] threw. *)
Definition import_cut_short (defaultPreferences : UserPreferences) (op : Op)
    (w : World) : bool :=
  match op with
  | OpImportAll json =>
      match importData defaultPreferences json w with
      | Throw TypeError _ | Throw DataError _ => true
      | _ => false
      end
  | _ => false
  end.

(** Whether an outcome is a return. *)
Definition returned {A} (o : Outcome A) : bool :=
  match o with Ok _ _ => true | Throw _ _ => false end.

(** The states the reducer reaches from the initial state. *)
Inductive dispatched (defaultPreferences : UserPreferences) : AppState -> Prop :=
  | dispatched_init : dispatched defaultPreferences (initialState defaultPreferences)
  | dispatched_step st action :
      dispatched defaultPreferences st ->
      dispatched defaultPreferences (reducer st action).

Local Close Scope async_scope.

(** ** Sample data used by the examples *)

Definition doc_ab : value :=
  JObj [ ("b", JNum 1%Z);
         ("a", JObj [ ("y", JNull); ("x", JArr [JBool true; JStr "k"]) ]) ].
Definition doc_ba : value :=
  JObj [ ("a", JObj [ ("x", JArr [JBool true; JStr "k"]); ("y", JNull) ]);
         ("b", JNum 1%Z) ].


Definition two_digits (n : nat) : string :=
  if Nat.ltb n 10 then "0" +:+ pretty n else pretty n.

(** A clock ticking once a second from 10:00:00 and a fixed run of random
    suffixes. *)
Definition host0 : Host :=
  {| host_iso := fun n => "2026-02-20T10:00:" +:+ two_digits n +:+ ".000Z";
     host_now36 := fun n => "mlv9k" +:+ two_digits n;
     host_random36 := fun n => "k3x9" +:+ two_digits n |}.

Definition prefs0 : UserPreferences :=
  {| theme := calm; default_view := view_list; max_visible_tasks := 5;
     audio_enabled := false; notifications_enabled := false;
     ai_api_key := None; ai_provider := groq |}.

Definition draft_milk : TaskData :=
  {| title := "Buy milk"; description := ""; status := pending;
     energy := medium; importance := someday; micro_steps := [];
     due_date := None; scheduled_date := None; tags := []; recurring := None;
     completed_at := None; created_at := "2026-02-20T09:59:59.000Z";
     updated_at := "2026-02-20T09:59:59.000Z" |}.


Definition draft_blank : TaskData :=
  {| title := ""; description := ""; status := pending;
     energy := medium; importance := someday; micro_steps := [];
     due_date := None; scheduled_date := None; tags := []; recurring := None;
     completed_at := None; created_at := "2026-02-20T09:59:59.000Z";
     updated_at := "2026-02-20T09:59:59.000Z" |}.

(** A stored task with three micro-steps, one of them done; its content
    hash is the one [createTask] gave it. *)
Definition taskA : Task :=
  {| task_lds := {| lds_v := "1.0.0"; lds_type := "kernel.task"; lds_id := "task_a";
                    lds_created := "2026-02-20T09:00:00.000Z";
                    lds_updated := "2026-02-20T09:00:00.000Z";
                    lds_content_hash :=
                      "b79213dddd5b893f9ee8321a0ab5c967a1c895e28e7fda8ffc0f13d3dd514fab" |};
     task_data :=
       {| title := "Write report"; description := ""; status := pending;
          energy := medium; importance := important;
          micro_steps :=
            [ {| ms_id := "ms_1"; ms_text := "outline"; ms_completed := true |};
              {| ms_id := "ms_2"; ms_text := "draft"; ms_completed := false |};
              {| ms_id := "ms_3"; ms_text := "send"; ms_completed := false |} ];
          due_date := None; scheduled_date := Some "2026-02-21";
          tags := ["work"]; recurring := None; completed_at := None;
          created_at := "2026-02-20T09:00:00.000Z";
          updated_at := "2026-02-20T09:00:00.000Z" |} |}.

Definition taskB : Task :=
  {| task_lds := {| lds_v := "1.0.0"; lds_type := "kernel.task"; lds_id := "task_b";
                    lds_created := "2026-02-20T09:05:00.000Z";
                    lds_updated := "2026-02-20T09:05:00.000Z";
                    lds_content_hash := "" |};
     task_data := draft_milk |}.

(** A task that is in no store. *)
Definition taskC : Task :=
  {| task_lds := {| lds_v := "1.0.0"; lds_type := "kernel.task"; lds_id := "task_c";
                    lds_created := "2026-02-20T09:07:00.000Z";
                    lds_updated := "2026-02-20T09:07:00.000Z";
                    lds_content_hash := "" |};
     task_data := draft_milk |}.

Definition edgeAB : TaskEdge :=
  {| edge_id := "edge_ab"; edge_source := "task_a"; edge_target := "task_b";
     edge_type := blocks |}.

(** A store with the tasks A and B and the edge from A to B. *)
Definition db_ab : DB :=
  {| db_tasks := <[task_id taskA := taskA]> (<[task_id taskB := taskB]> ∅);
     db_edges := <[edge_id edgeAB := edgeAB]> ∅;
     db_routines := ∅; db_audit := ∅;
     db_preferences := <[user_prefs := prefs0]> ∅ |}.

(** The session right after the mount effect loaded [db_ab]. *)
Definition world_ab : World :=
  world_of (loadAll prefs0
              {| host := host0; clock := 0; draws := 0; db := db_ab;
                 app := initialState prefs0 |}).

(** The content hash the data model asks for: the hash of the task with
    its own [content_hash] emptied. *)
Definition hash_excluding_itself (t : Task) : string :=
  computeHash (task_to_json (with_lds (set_content_hash "" (task_lds t)) t)).

(** A well-formed text without a routines array: the tasks A and B and
    an edge from B to A. *)
Definition edgeBA : TaskEdge :=
  {| edge_id := "edge_ba"; edge_source := "task_b"; edge_target := "task_a";
     edge_type := depends_on |}.

Definition text_no_routines : JsonText :=
  WellFormed {| kd_tasks := Elements [Keyed taskA; Keyed taskB];
                kd_edges := Elements [Keyed edgeBA];
                kd_routines := NotIterable; kd_preferences := None |}.

(** The sample session after the import of that text has stopped. *)
Definition world_drift : World :=
  world_of (importData prefs0 text_no_routines world_ab).

Definition session_ops : list Op :=
  [ OpAddEdge "task_b" "task_a" related_to;
    OpCompleteTask "task_nowhere";
    OpUpdatePreferences
      {| p_theme := Some ocean; p_default_view := None; p_max_visible_tasks := None;
         p_audio_enabled := None; p_notifications_enabled := None;
         p_ai_api_key := None; p_ai_provider := None |};
    OpExportAll;
    OpImportAll (Malformed "{");
    OpImportAll text_no_routines ].

(** The text of the document [exportKernel] reads off the sample store,
    and the sample session after its import. *)
Definition text_ab : JsonText := JSON_stringify (exported (db world_ab)).
Definition world_imported : World :=
  world_of (importData prefs0 text_ab world_ab).

(** The sample session after [session_ops]. *)
Definition world_later : World := run prefs0 session_ops world_ab.

(** Sample data for the further properties. *)

Definition entry0 : AuditEntry :=
  {| audit_id := "audit_seed_0"; audit_timestamp := "2026-02-20T08:00:00.000Z";
     audit_action := task_created; entity_type := ent_task;
     entity_id := "task_a"; details := [] |}.

(** A store whose audit collection already holds the ids the clock and the
    random source of [host0] will produce next. *)
Definition db_clash : DB :=
  {| db_tasks := db_tasks db_ab; db_edges := db_edges db_ab;
     db_routines := ∅;
     db_audit := <["audit_mlv9k00_k3x900" := entry0]>
                   (<["audit_mlv9k02_k3x901" := entry0]> ∅);
     db_preferences := db_preferences db_ab |}.

Definition world_clash : World :=
  world_of (loadAll prefs0
              {| host := host0; clock := 0; draws := 0; db := db_clash;
                 app := initialState prefs0 |}).

(** A world before the mount effect: the store [db_ab], the initial state. *)
Definition world_unmounted : World :=
  {| host := host0; clock := 0; draws := 0; db := db_ab;
     app := initialState prefs0 |}.

(** A world before the first mount: nothing stored. *)
Definition world_blank : World :=
  {| host := host0; clock := 0; draws := 0;
     db := {| db_tasks := ∅; db_edges := ∅; db_routines := ∅; db_audit := ∅;
              db_preferences := ∅ |};
     app := initialState prefs0 |}.

(** A world whose tasks are gone while the seed audit entry is still there. *)
Definition world_emptied : World :=
  {| host := host0; clock := 0; draws := 0;
     db := {| db_tasks := ∅; db_edges := db_edges db_ab; db_routines := ∅;
              db_audit := <[audit_id entry0 := entry0]> ∅;
              db_preferences := db_preferences db_ab |};
     app := initialState prefs0 |}.

Definition doc_ab_export : KernelExport :=
  {| ex_tasks := [taskA; taskB]; ex_edges := [edgeAB]; ex_routines := [];
     ex_audit := []; ex_preferences := Some prefs0 |}.

(** Task A with its second step toggled, as [toggleStep] hands it to
    [updateTask], and the worlds of two toggles in a row. *)
Definition world_toggled1 : World := world_of (toggleStep taskA "ms_2" world_ab).
Definition task_toggled1 : Task :=
  edited_task {| task_lds := task_lds taskA;
                 task_data := set_micro_steps
                                (toggle_steps "ms_2" (micro_steps (task_data taskA)))
                                (task_data taskA) |} world_ab.
Definition world_toggled2 : World :=
  world_of (toggleStep task_toggled1 "ms_2" world_toggled1).

Definition today0 : string := "2026-02-21".

(** A session that mounted on a store with task A only and then ran an
    import that stopped after it had written the tasks A and B: the store
    holds B, the mirror does not list it. *)
Definition world_drift_b : World :=
  world_of (importData prefs0 text_no_routines
              (world_of (loadAll prefs0
                           {| host := host0; clock := 0; draws := 0;
                              db := {| db_tasks := <[task_id taskA := taskA]> ∅;
                                       db_edges := ∅; db_routines := ∅;
                                       db_audit := ∅;
                                       db_preferences := ∅ |};
                              app := initialState prefs0 |}))).
(** * Properties *)

(** ** Canonical form *)

Section CanonicalFacts.
Context {num : Type} (show : num -> string).

(** Induction over [key_permuted] that reaches below arrays and objects. *)
Lemma key_permuted_deep_ind (P : json num -> json num -> Prop) :
  (forall v, P v v) ->
  (forall xs ys, Forall2 P xs ys -> P (JArr xs) (JArr ys)) ->
  (forall ps qs qs',
      NoDup (map fst ps) ->
      Forall2 (fun p q => fst p = fst q /\ P (snd p) (snd q)) ps qs' ->
      Permutation qs' qs -> P (JObj ps) (JObj qs)) ->
  forall a b, key_permuted a b -> P a b.
Proof.
  intros Hsame Harr Hobj. fix IH 3.
  intros a b [v | xs ys HF | ps qs qs' Hnd HF Hperm].
  - apply Hsame.
  - apply Harr. induction HF as [| x y xs ys Hxy _ IHF]; constructor; auto.
  - apply (Hobj ps qs qs' Hnd); [| exact Hperm].
    clear Hnd Hperm.
    induction HF as [| p q ps qs0 [Hk Hv] _ IHF]; constructor; auto.
Qed.

(** Reading a property out of a list with distinct names. *)
Lemma get_prop_In k v (props : list (string * string)) :
  NoDup (map fst props) -> In (k, v) props -> get_prop k props = v.
Proof.
  induction props as [| [k' v'] rest IHr]; simpl; intros Hnd Hin; [done |].
  apply NoDup_cons in Hnd as [Hnotin Hnd].
  destruct Hin as [Heq | Hin].
  - injection Heq as -> ->. by rewrite decide_True.
  - rewrite decide_False; [by apply IHr |].
    intros ->. apply Hnotin, list_elem_of_In, in_map_iff.
    by exists (k, v).
Qed.

Lemma get_prop_not_In k (props : list (string * string)) :
  ~ In k (map fst props) -> get_prop k props = "null".
Proof.
  induction props as [| [k' v'] rest IHr]; simpl; intros Hn; [done |].
  rewrite decide_False; [apply IHr | ]; intuition.
Qed.

Lemma get_prop_Permutation k (l1 l2 : list (string * string)) :
  NoDup (map fst l1) -> Permutation l1 l2 -> get_prop k l1 = get_prop k l2.
Proof.
  intros Hnd Hperm.
  assert (Hnd2 : NoDup (map fst l2)).
  { by rewrite <- (Permutation_map fst Hperm). }
  destruct (in_dec string_dec k (map fst l1)) as [Hin | Hnin].
  - apply in_map_iff in Hin as [[k' v] [Hk Hin]]. simpl in Hk. subst k'.
    rewrite (get_prop_In k v l1 Hnd Hin).
    symmetry. apply get_prop_In; [done |].
    eapply Permutation_in; eauto.
  - rewrite (get_prop_not_In k l1 Hnin).
    symmetry. apply get_prop_not_In. intros Hin. apply Hnin.
    eapply Permutation_in; [| exact Hin].
    symmetry. by apply Permutation_map.
Qed.

(** [Object.keys(obj).sort()] does not depend on the insertion order. *)
Lemma sorted_keys_Permutation (k1 k2 : list string) :
  Permutation k1 k2 -> merge_sort String.le k1 = merge_sort String.le k2.
Proof.
  intros Hperm. apply (Sorted_unique String.le).
  - apply (Sorted_merge_sort String.le).
  - apply (Sorted_merge_sort String.le).
  - rewrite !merge_sort_Permutation. exact Hperm.
Qed.

(** C2.  [canonicalize] is a function of its argument, and listing the
    properties of an object in another order, at any depth, does not
    change its result: two values that differ only in key order have the
    same canonical string.  With [b] equal to [a] this is determinism. *)
Theorem canonicalize_key_order_insensitive (a b : json num) :
  key_permuted a b -> canonicalize show a = canonicalize show b.
Proof.
  revert a b. apply key_permuted_deep_ind;
    [intros v | intros xs ys HF | intros ps qs qs' Hnd HF Hperm].
  - reflexivity.
  - simpl. do 3 f_equal.
    induction HF as [| x y xs ys Hxy _ IHF]; simpl; [done | by f_equal].
  - set (canon := fun kv : string * json num =>
                    match kv with (k, v) => (k, canonicalize show v) end).
    assert (Hvals : map canon ps = map canon qs').
    { clear Hnd Hperm.
      induction HF as [| [k v] [k' v'] ps qs0 [Hk Hv] _ IHF]; simpl; [done |].
      simpl in Hk, Hv. subst k'. by rewrite Hv, IHF. }
    assert (Hkeys : map fst ps = map fst qs').
    { clear Hnd Hperm Hvals.
      induction HF as [| [k v] [k' v'] ps qs0 [Hk Hv] _ IHF]; simpl; [done |].
      simpl in Hk. by rewrite Hk, IHF. }
    assert (Hfst : forall l, map fst (map canon l) = map fst l).
    { intros l. rewrite map_map. apply map_ext. by intros [k v]. }
    simpl. fold canon. do 3 f_equal.
    rewrite (sorted_keys_Permutation (map fst ps) (map fst qs)).
    2:{ rewrite Hkeys. by apply Permutation_map. }
    apply map_ext. intros k. do 2 f_equal.
    rewrite Hvals. apply get_prop_Permutation.
    + rewrite Hfst, <- Hkeys. exact Hnd.
    + by apply Permutation_map.
Qed.
End CanonicalFacts.

Lemma doc_ab_key_permuted : key_permuted doc_ab doc_ba.
Proof.
  apply (kp_object _ _ [ ("b", JNum 1%Z);
                         ("a", JObj [ ("x", JArr [JBool true; JStr "k"]);
                                      ("y", JNull) ]) ]).
  - apply NoDup_ListNoDup. repeat constructor; simpl; intuition discriminate.
  - repeat constructor; simpl.
    apply (kp_object _ _ [ ("y", JNull); ("x", JArr [JBool true; JStr "k"]) ]).
    + apply NoDup_ListNoDup. repeat constructor; simpl; intuition discriminate.
    + repeat constructor.
    + apply perm_swap.
  - apply perm_swap.
Defined.

Lemma canonicalize_key_order_insensitive_witness :
  key_permuted doc_ab doc_ba
  /\ canonicalize JSON_stringify_number doc_ab
     = canonicalize JSON_stringify_number doc_ba.
Proof.
  split; [exact doc_ab_key_permuted |].
  apply (canonicalize_key_order_insensitive JSON_stringify_number doc_ab doc_ba).
  exact doc_ab_key_permuted.
Defined.

(** ** Store and list facts *)

Lemma In_getAll {A} (store : gmap string A) (x : A) :
  In x (getAll store) <-> exists k, store !! k = Some x.
Proof.
  unfold getAll. rewrite <- list_elem_of_In, list_elem_of_fmap. split.
  - intros [[k y] [-> Hin]]. exists k. by apply elem_of_map_to_list.
  - intros [k Hk]. exists (k, x). split; [done |]. by apply elem_of_map_to_list.
Qed.


Lemma keyed_empty {A} (key : A -> string) : keyed key (∅ : gmap string A).
Proof. intros k x Hk. by rewrite lookup_empty in Hk. Qed.

Lemma keyed_insert {A} (key : A -> string) (x : A) (store : gmap string A) :
  keyed key store -> keyed key (<[key x := x]> store).
Proof.
  intros Hkeyed k y. rewrite lookup_insert. case_decide.
  - intros [= <-]. by subst.
  - apply Hkeyed.
Qed.

Lemma keyed_delete {A} (key : A -> string) (i : string) (store : gmap string A) :
  keyed key store -> keyed key (delete i store).
Proof.
  intros Hkeyed k y. rewrite lookup_delete. case_decide; [done | apply Hkeyed].
Qed.

Lemma keyed_put_each {A} (key : A -> string) (xs : list A) (store : gmap string A) :
  keyed key store -> keyed key (put_each key xs store).
Proof.
  revert store. induction xs as [| x rest IH]; intros store Hk; simpl; [done |].
  apply IH. by apply keyed_insert.
Qed.

(** Putting the pairs of a list with distinct keys, each under its key. *)
Lemma put_each_lookup {A} (key : A -> string) (l : list (string * A))
    (store : gmap string A) (k : string) :
  NoDup l.*1 -> (forall kv, In kv l -> key kv.2 = kv.1) ->
  put_each key l.*2 store !! k
  = match (list_to_map l : gmap string A) !! k with
    | Some x => Some x
    | None => store !! k
    end.
Proof.
  revert store. induction l as [| [k1 x1] rest IH]; intros store Hnd Hkey.
  - simpl. by rewrite lookup_empty.
  - rewrite fmap_cons in Hnd. apply NoDup_cons in Hnd as [Hnotin Hnd].
    simpl in Hnotin.
    pose proof (Hkey (k1, x1) (or_introl eq_refl)) as Hk1. simpl in Hk1.
    rewrite fmap_cons. unfold put_each. simpl fold_left.
    fold (put_each key rest.*2 (<[key x1 := x1]> store)).
    rewrite IH; [| done | intros kv Hin; apply Hkey; by right].
    rewrite Hk1, list_to_map_cons, !lookup_insert. case_decide as Hk.
    + subst k. by rewrite (not_elem_of_list_to_map_1 rest k1 Hnotin).
    + reflexivity.
Qed.

(** Clearing a store and putting back all its records rebuilds it. *)
Lemma put_each_getAll {A} (key : A -> string) (store : gmap string A) :
  keyed key store -> put_each key (getAll store) ∅ = store.
Proof.
  intros Hkeyed. apply map_eq. intros k. unfold getAll.
  rewrite put_each_lookup.
  - rewrite list_to_map_to_list, lookup_empty. by destruct (store !! k).
  - apply NoDup_fst_map_to_list.
  - intros [k' x] Hin. apply list_elem_of_In, elem_of_map_to_list in Hin.
    by apply Hkeyed.
Qed.

Lemma In_upsert_other {A} (p : A -> bool) (y x : A) (xs : list A) :
  In x xs -> p x = false -> In x (upsert p y xs).
Proof.
  intros Hin Hp. unfold upsert. destruct (List.find p xs).
  - apply in_map_iff. exists x. by rewrite Hp.
  - apply in_or_app. by left.
Qed.

Lemma In_upsert_new {A} (p : A -> bool) (y : A) (xs : list A) :
  In y (upsert p y xs).
Proof.
  unfold upsert. destruct (List.find p xs) as [z |] eqn:Hfind.
  - apply find_some in Hfind as [Hin Hp].
    apply in_map_iff. exists z. by rewrite Hp.
  - apply in_or_app. right. by left.
Qed.

Lemma In_upsert_inv {A} (p : A -> bool) (y x : A) (xs : list A) :
  In x (upsert p y xs) -> x = y \/ (In x xs /\ p x = false).
Proof.
  unfold upsert. destruct (List.find p xs) as [z |] eqn:Hfind.
  - intros Hin. apply in_map_iff in Hin as [x0 [Hx Hin]].
    destruct (p x0) eqn:Hp; [by left | right; by subst].
  - intros Hin. apply in_app_or in Hin as [Hin | [<- | []]]; [| by left].
    right. split; [done |].
    destruct (p x) eqn:Hp; [| done].
    by rewrite (find_none _ _ Hfind x Hin) in Hp.
Qed.

Lemma edges_deleted_lookup es (store : gmap string TaskEdge) k e :
  edges_deleted es store !! k = Some e ->
  store !! k = Some e /\ ~ In k (map edge_id es).
Proof.
  revert store. induction es as [| e0 rest IH]; intros store; simpl.
  - intros Hk. split; [done | tauto].
  - intros Hk. apply IH in Hk as [Hk Hnin].
    rewrite lookup_delete in Hk. case_decide as Hne; [done |].
    split; [done |]. intros [Heq | Hin]; [by subst | by apply Hnin].
Qed.

Lemma edges_deleted_keyed es (store : gmap string TaskEdge) :
  keyed edge_id store -> keyed edge_id (edges_deleted es store).
Proof.
  intros Hk k e Hl. apply edges_deleted_lookup in Hl as [Hl _]. by apply Hk.
Qed.


(** ** The operations, stage by stage *)

Section ServiceFacts.
Variable defaultPreferences : UserPreferences.

Lemma logAudit_run action entityType entityId d w :
  logAudit action entityType entityId d w =
  match db_audit (db w) !! next_audit_id w with
  | Some _ => Throw (ConstraintError (next_audit_id w)) (tick 2 1 w)
  | None => Ok tt (audit_appended (next_audit_entry action entityType entityId d w) w)
  end.
Proof.
  unfold logAudit, createAuditEntry, generateId, appendAudit, bind; simpl.
  fold (next_audit_id w).
  destruct (db_audit (db w) !! next_audit_id w); reflexivity.
Qed.

Lemma createTask_run d w :
  createTask d w =
  then_return (new_task d w)
    (logAudit task_created ent_task (next_id "task" w)
       [("title", JStr (title d))] (task_stored (new_task d w) 2 1 w)).
Proof. reflexivity. Qed.

Lemma updateTask_run t w :
  updateTask t w =
  logAudit task_edited ent_task (task_id t)
    [("title", JStr (title (task_data t)))] (task_stored (edited_task t w) 1 0 w).
Proof. reflexivity. Qed.

Lemma completeTask_run taskId w :
  completeTask taskId w =
  match find_task taskId (app w) with
  | None => Ok tt w
  | Some t =>
      logAudit task_completed ent_task taskId
        [("title", JStr (title (task_data t)))]
        (task_stored (completed_task t w) 2 0 w)
  end.
Proof.
  unfold completeTask, bind, get_state.
  destruct (find_task taskId (app w)); reflexivity.
Qed.

Lemma deferTask_run taskId w :
  deferTask taskId w =
  match find_task taskId (app w) with
  | None => Ok tt w
  | Some t =>
      logAudit task_deferred ent_task taskId
        [("title", JStr (title (task_data t)))]
        (task_stored (deferred_task t w) 1 0 w)
  end.
Proof.
  unfold deferTask, bind, get_state.
  destruct (find_task taskId (app w)); reflexivity.
Qed.

Lemma deleteEdges_run es w :
  deleteEdges es w =
  Ok tt (with_db {| db_tasks := db_tasks (db w);
                    db_edges := edges_deleted es (db_edges (db w));
                    db_routines := db_routines (db w);
                    db_audit := db_audit (db w);
                    db_preferences := db_preferences (db w) |} w).
Proof.
  revert w. induction es as [| e rest IH]; intros w.
  - by destruct w as [h c r [] a].
  - simpl. unfold bind at 1. simpl. rewrite IH. reflexivity.
Qed.

Lemma removeTask_run taskId w :
  removeTask taskId w =
  logAudit task_deleted ent_task taskId
    [("title", JStr (title_or_unknown (find_task taskId (app w))))]
    (task_removed taskId w).
Proof.
  unfold removeTask, bind, get_state. simpl.
  fold (relatedEdges taskId (app w)). rewrite deleteEdges_run. reflexivity.
Qed.

Lemma addEdge_run source target type w :
  addEdge source target type w =
  logAudit edge_created ent_edge (next_id "edge" w)
    [("source", JStr source); ("target", JStr target);
     ("type", JStr (edge_type_str type))]
    (edge_stored (new_edge source target type w) w).
Proof. reflexivity. Qed.

Lemma removeEdge_run edgeId w :
  removeEdge edgeId w =
  logAudit edge_deleted ent_edge edgeId [] (edge_removed edgeId w).
Proof. reflexivity. Qed.

Lemma updatePreferences_run partial w :
  updatePreferences partial w = Ok tt (preferences_stored partial w).
Proof. reflexivity. Qed.

Lemma exportAllData_run w :
  exportAllData w = Throw (ReferenceError "exportKernel") w.
Proof. reflexivity. Qed.

Lemma exportKernel_run w : exportKernel w = Ok (exported (db w)) w.
Proof. reflexivity. Qed.

Lemma with_db_same w : with_db (db w) w = w.
Proof. by destruct w. Qed.

Lemma put_until_keyless_typed {A} (key : A -> string) (xs : list A) store :
  put_until_keyless key (map Keyed xs) store = (put_each key xs store, None).
Proof.
  revert store. induction xs as [| x rest IH]; intros store; [done |]. apply IH.
Qed.

Lemma import_attempt_typed (data : KernelImport) d :
  import_attempt data d = (imported data d, None).
Proof.
  unfold import_attempt, typed, field_stored. cbn [kd_tasks kd_edges kd_routines].
  rewrite !put_until_keyless_typed. reflexivity.
Qed.

Lemma put_elements_putTask xs w :
  put_elements putTask xs w =
  let r := put_until_keyless task_id xs (db_tasks (db w)) in
  let w' := with_db {| db_tasks := r.1; db_edges := db_edges (db w);
                       db_routines := db_routines (db w); db_audit := db_audit (db w);
                       db_preferences := db_preferences (db w) |} w in
  match r.2 with None => Ok tt w' | Some e => Throw e w' end.
Proof.
  revert w. induction xs as [| [x |] rest IH]; intros w.
  - by destruct w as [h c r [] a].
  - simpl. unfold bind at 1. simpl. rewrite IH. reflexivity.
  - by destruct w as [h c r [] a].
Qed.

Lemma put_elements_putEdge xs w :
  put_elements putEdge xs w =
  let r := put_until_keyless edge_id xs (db_edges (db w)) in
  let w' := with_db {| db_tasks := db_tasks (db w); db_edges := r.1;
                       db_routines := db_routines (db w); db_audit := db_audit (db w);
                       db_preferences := db_preferences (db w) |} w in
  match r.2 with None => Ok tt w' | Some e => Throw e w' end.
Proof.
  revert w. induction xs as [| [x |] rest IH]; intros w.
  - by destruct w as [h c r [] a].
  - simpl. unfold bind at 1. simpl. rewrite IH. reflexivity.
  - by destruct w as [h c r [] a].
Qed.

Lemma put_elements_putRoutine xs w :
  put_elements putRoutine xs w =
  let r := put_until_keyless routine_id xs (db_routines (db w)) in
  let w' := with_db {| db_tasks := db_tasks (db w); db_edges := db_edges (db w);
                       db_routines := r.1; db_audit := db_audit (db w);
                       db_preferences := db_preferences (db w) |} w in
  match r.2 with None => Ok tt w' | Some e => Throw e w' end.
Proof.
  revert w. induction xs as [| [x |] rest IH]; intros w.
  - by destruct w as [h c r [] a].
  - simpl. unfold bind at 1. simpl. rewrite IH. reflexivity.
  - by destruct w as [h c r [] a].
Qed.

(** [importKernel] leaves the store of [import_attempt], and throws what
    stopped it. *)
Lemma importKernel_run data w :
  importKernel data w =
  match (import_attempt data (db w)).2 with
  | None => Ok tt (with_db (import_attempt data (db w)).1 w)
  | Some e => Throw e (with_db (import_attempt data (db w)).1 w)
  end.
Proof.
  destruct data as [ts es rs p]. unfold importKernel, import_attempt, field_stored.
  cbn [kd_tasks kd_edges kd_routines kd_preferences].
  unfold bind at 1. cbn [clearTasks bind get_db set_db].
  destruct ts as [| ts]; [reflexivity |].
  unfold bind at 1. cbn [for_of]. rewrite put_elements_putTask.
  cbn [with_db db db_tasks db_edges db_routines db_audit db_preferences host clock
       draws app].
  destruct (put_until_keyless task_id ts ∅) as [mt [e |]]; [reflexivity |].
  cbn [fst snd]. unfold bind at 1. cbn [clearEdges bind get_db set_db].
  destruct es as [| es]; [reflexivity |].
  unfold bind at 1. cbn [for_of]. rewrite put_elements_putEdge.
  cbn [with_db db db_tasks db_edges db_routines db_audit db_preferences host clock
       draws app].
  destruct (put_until_keyless edge_id es ∅) as [me [e |]]; [reflexivity |].
  cbn [fst snd]. unfold bind at 1. cbn [clearRoutines bind get_db set_db].
  destruct rs as [| rs]; [reflexivity |].
  unfold bind at 1. cbn [for_of]. rewrite put_elements_putRoutine.
  cbn [with_db db db_tasks db_edges db_routines db_audit db_preferences host clock
       draws app].
  destruct (put_until_keyless routine_id rs ∅) as [mr [e |]]; [reflexivity |].
  cbn [fst snd]. destruct p; reflexivity.
Qed.

Lemma importKernel_typed (data : KernelImport) w :
  importKernel data w = Ok tt (with_db (imported data (db w)) w).
Proof. by rewrite importKernel_run, import_attempt_typed. Qed.


Lemma importData_run json w :
  importData defaultPreferences json w =
  match json with
  | Malformed _ => Throw SyntaxError w
  | Serialized doc =>
      logAudit kernel_imported ent_kernel "full_import" []
        (with_app (loaded defaultPreferences (imported (as_import doc) (db w)) (app w))
           (with_db (imported (as_import doc) (db w)) w))
  | WellFormed data =>
      match (import_attempt data (db w)).2 with
      | None =>
          logAudit kernel_imported ent_kernel "full_import" []
            (with_app (loaded defaultPreferences (import_attempt data (db w)).1 (app w))
               (with_db (import_attempt data (db w)).1 w))
      | Some e => Throw e (with_db (import_attempt data (db w)).1 w)
      end
  end.
Proof.
  destruct json as [doc | data | raw]; [| | reflexivity].
  - unfold importData. unfold bind at 1. cbn [JSON_parse ret].
    unfold bind at 1. fold (as_import doc). by rewrite importKernel_typed.
  - unfold importData. unfold bind at 1. cbn [JSON_parse ret].
    unfold bind at 1. rewrite importKernel_run.
    by destruct (import_attempt data (db w)).2.
Qed.


End ServiceFacts.
(** ** What the mirror keeps of the store *)

Section Sync.
Variable defaultPreferences : UserPreferences.

Lemma imported_keyed data d : store_keyed (imported data d).
Proof. repeat split; simpl; apply keyed_put_each, keyed_empty. Qed.

Lemma keyed_put_until_keyless {A} (key : A -> string) (xs : list (Element A))
    (store : gmap string A) :
  keyed key store -> keyed key (put_until_keyless key xs store).1.
Proof.
  revert store. induction xs as [| [x |] rest IH]; intros store Hk; simpl; [done | | done].
  apply IH. by apply keyed_insert.
Qed.

Lemma keyed_field_stored {A} (key : A -> string) (field : Field A) :
  keyed key (field_stored key field).1.
Proof.
  destruct field as [| xs]; simpl; [apply keyed_empty |].
  apply keyed_put_until_keyless, keyed_empty.
Qed.

(** Whether it ran to its end or not, an import leaves every record under
    its own key. *)
Lemma import_attempt_keyed data d :
  store_keyed d -> store_keyed (import_attempt data d).1.
Proof.
  intros (Ht & He & Hr). unfold import_attempt.
  pose proof (keyed_field_stored task_id (kd_tasks data)) as Ht'.
  pose proof (keyed_field_stored edge_id (kd_edges data)) as He'.
  pose proof (keyed_field_stored routine_id (kd_routines data)) as Hr'.
  destruct (field_stored task_id (kd_tasks data)).2,
           (field_stored edge_id (kd_edges data)).2,
           (field_stored routine_id (kd_routines data)).2; by repeat split.
Qed.

(** An import that ran to its end has replaced the three collections. *)
Lemma import_attempt_done_keyed data d :
  (import_attempt data d).2 = None -> store_keyed (import_attempt data d).1.
Proof.
  unfold import_attempt.
  pose proof (keyed_field_stored task_id (kd_tasks data)) as Ht'.
  pose proof (keyed_field_stored edge_id (kd_edges data)) as He'.
  pose proof (keyed_field_stored routine_id (kd_routines data)) as Hr'.
  destruct (field_stored task_id (kd_tasks data)).2,
           (field_stored edge_id (kd_edges data)).2,
           (field_stored routine_id (kd_routines data)).2;
    intros Hdone; try discriminate Hdone. by repeat split.
Qed.



End Sync.

(** ** The mutation operations *)

Section Claims.
Variable defaultPreferences : UserPreferences.

Lemma find_task_id taskId st t :
  find_task taskId st = Some t -> In t (tasks st) /\ task_id t = taskId.
Proof.
  intros H. apply find_some in H as [Hin Heq]. split; [done |].
  by apply String.eqb_eq.
Qed.

Lemma find_task_none_filter taskId st :
  find_task taskId st = None ->
  List.filter (fun t => negb (String.eqb (task_id t) taskId)) (tasks st) = tasks st.
Proof.
  intros H. unfold find_task in H.
  induction (tasks st) as [| t rest IH]; simpl in *; [done |].
  destruct (String.eqb (task_id t) taskId); [done |]. simpl. f_equal. by apply IH.
Qed.

Lemma stamp_hash_data t : task_data (stamp_hash t) = task_data t.
Proof. reflexivity. Qed.

Lemma stamp_hash_id t : task_id (stamp_hash t) = task_id t.
Proof. reflexivity. Qed.

(** What a successful [createTask] returns and leaves behind. *)
Lemma createTask_Ok d w t w' :
  createTask d w = Ok t w' ->
  t = new_task d w
  /\ db_audit (db w) !! next_audit_id (tick 2 1 w) = None
  /\ w' = audit_appended
            (next_audit_entry task_created ent_task (next_id "task" w)
               [("title", JStr (title d))] (task_stored (new_task d w) 2 1 w))
            (task_stored (new_task d w) 2 1 w).
Proof.
  rewrite createTask_run, logAudit_run.
  change (db_audit (db (task_stored (new_task d w) 2 1 w))) with (db_audit (db w)).
  change (next_audit_id (task_stored (new_task d w) 2 1 w))
    with (next_audit_id (tick 2 1 w)).
  destruct (db_audit (db w) !! next_audit_id (tick 2 1 w)); simpl; [done |].
  by intros [= <- <-].
Qed.

Lemma createTask_fresh d w :
  db_audit (db w) !! next_audit_id (tick 2 1 w) = None ->
  createTask d w
  = Ok (new_task d w)
       (audit_appended
          (next_audit_entry task_created ent_task (next_id "task" w)
             [("title", JStr (title d))] (task_stored (new_task d w) 2 1 w))
          (task_stored (new_task d w) 2 1 w)).
Proof.
  intros Hfresh. rewrite createTask_run, logAudit_run.
  change (db_audit (db (task_stored (new_task d w) 2 1 w))) with (db_audit (db w)).
  change (next_audit_id (task_stored (new_task d w) 2 1 w))
    with (next_audit_id (tick 2 1 w)).
  by rewrite Hfresh.
Qed.

Lemma updateTask_fresh t w :
  db_audit (db w) !! next_audit_id (tick 1 0 w) = None ->
  updateTask t w
  = Ok tt
       (audit_appended
          (next_audit_entry task_edited ent_task (task_id t)
             [("title", JStr (title (task_data t)))]
             (task_stored (edited_task t w) 1 0 w))
          (task_stored (edited_task t w) 1 0 w)).
Proof.
  intros Hfresh. rewrite updateTask_run, logAudit_run.
  change (db_audit (db (task_stored (edited_task t w) 1 0 w))) with (db_audit (db w)).
  change (next_audit_id (task_stored (edited_task t w) 1 0 w))
    with (next_audit_id (tick 1 0 w)).
  by rewrite Hfresh.
Qed.

(** C4.  Completion invariant: when [completeTask(id)] finds the task and
    succeeds, the task stored under [id], which is also the one the mirror
    then holds for [id], has status completed, a completion time, and all
    its micro-steps completed, whatever they were before. *)
Theorem completeTask_completes w taskId task w' :
  find_task taskId (app w) = Some task ->
  completeTask taskId w = Ok tt w' ->
  exists t',
    db_tasks (db w') !! taskId = Some t'
    /\ In t' (tasks (app w'))
    /\ (forall t, In t (tasks (app w')) -> task_id t = taskId -> t = t')
    /\ status (task_data t') = completed
    /\ completed_at (task_data t') <> None
    /\ Forall (fun s => ms_completed s = true) (micro_steps (task_data t')).
Proof.
  intros Hfind Hrun. rewrite completeTask_run, Hfind, logAudit_run in Hrun.
  destruct (db_audit _ !! _); [done |]. injection Hrun as <-.
  apply find_task_id in Hfind as [Hin Hid].
  exists (completed_task task w). cbn [audit_appended task_stored db app db_tasks].
  assert (Htid : task_id (completed_task task w) = taskId) by exact Hid.
  repeat split.
  - rewrite Htid. apply lookup_insert_eq.
  - simpl. apply In_upsert_new.
  - simpl. intros t Ht Htt. apply In_upsert_inv in Ht as [-> | [_ Hne]]; [done |].
    apply String.eqb_neq in Hne. congruence.
  - simpl. discriminate.
  - simpl. apply Forall_forall. intros s Hs.
    apply list_elem_of_In, in_map_iff in Hs as [s0 [<- _]]. reflexivity.
Qed.


(** C10.  [removeTask(id)] on an id no task of the mirror has: the
    operation runs to its end and appends one [task_deleted] entry for
    [id] whose details hold the title ['Unknown'], to the store and to the
    mirror, while the mirror's tasks stay as they were.  (The generated
    audit id is assumed unused: [db.add] rejects a duplicate key.) *)
Theorem removeTask_unknown_id w taskId :
  find_task taskId (app w) = None ->
  db_audit (db w) !! next_audit_id w = None ->
  exists w' entry,
    removeTask taskId w = Ok tt w'
    /\ audit_action entry = task_deleted
    /\ entity_type entry = ent_task
    /\ entity_id entry = taskId
    /\ details entry = [("title", JStr "Unknown")]
    /\ db_audit (db w') = <[audit_id entry := entry]> (db_audit (db w))
    /\ size (db_audit (db w')) = S (size (db_audit (db w)))
    /\ auditLog (app w') = (auditLog (app w) ++ [entry])%list
    /\ tasks (app w') = tasks (app w).
Proof.
  intros Hfind Hfresh.
  exists (audit_appended
            (next_audit_entry task_deleted ent_task taskId
               [("title", JStr "Unknown")] w) (task_removed taskId w)).
  exists (next_audit_entry task_deleted ent_task taskId [("title", JStr "Unknown")] w).
  rewrite removeTask_run, logAudit_run, Hfind.
  change (db_audit (db (task_removed taskId w))) with (db_audit (db w)).
  change (next_audit_id (task_removed taskId w)) with (next_audit_id w).
  rewrite Hfresh. repeat split.
  - simpl. by apply map_size_insert_None.
  - simpl. by apply find_task_none_filter.
Qed.


(** C7, as the code has it.  [createTask] does not look at the title: a
    draft whose title is empty is persisted with that empty title and one
    [task_created] entry is appended, as for any other draft.  (The
    generated audit id is assumed unused.) *)
Theorem createTask_accepts_blank_title d w :
  title d = "" ->
  db_audit (db w) !! next_audit_id (tick 2 1 w) = None ->
  exists t w' entry,
    createTask d w = Ok t w'
    /\ title (task_data t) = ""
    /\ db_tasks (db w') !! task_id t = Some t
    /\ In t (tasks (app w'))
    /\ audit_action entry = task_created
    /\ entity_id entry = task_id t
    /\ db_audit (db w') = <[audit_id entry := entry]> (db_audit (db w))
    /\ size (db_audit (db w')) = S (size (db_audit (db w))).
Proof.
  intros Htitle Hfresh.
  exists (new_task d w).
  exists (audit_appended
            (next_audit_entry task_created ent_task (next_id "task" w)
               [("title", JStr (title d))] (task_stored (new_task d w) 2 1 w))
            (task_stored (new_task d w) 2 1 w)).
  exists (next_audit_entry task_created ent_task (next_id "task" w)
            [("title", JStr (title d))] (task_stored (new_task d w) 2 1 w)).
  split; [by apply createTask_fresh |]. repeat split.
  - exact Htitle.
  - simpl. apply lookup_insert_eq.
  - simpl. apply In_upsert_new.
  - simpl. by apply map_size_insert_None.
Qed.

(** C8, as the code has it.  [updateTask] is an upsert: for a task whose id
    no task of the mirror has, it stores the task under that id with a new
    update time and content hash, appends it to the mirror's tasks, and
    appends one [task_edited] entry.  (The generated audit id is assumed
    unused.) *)
Theorem updateTask_upserts t w :
  find_task (task_id t) (app w) = None ->
  db_audit (db w) !! next_audit_id (tick 1 0 w) = None ->
  exists t' w' entry,
    updateTask t w = Ok tt w'
    /\ task_id t' = task_id t
    /\ task_data t' = task_data t
    /\ lds_updated (task_lds t') = host_iso (host w) (clock w)
    /\ db_tasks (db w') !! task_id t = Some t'
    /\ tasks (app w') = (tasks (app w) ++ [t'])%list
    /\ audit_action entry = task_edited
    /\ entity_id entry = task_id t
    /\ db_audit (db w') = <[audit_id entry := entry]> (db_audit (db w))
    /\ size (db_audit (db w')) = S (size (db_audit (db w))).
Proof.
  intros Hfind Hfresh.
  exists (edited_task t w).
  exists (audit_appended
            (next_audit_entry task_edited ent_task (task_id t)
               [("title", JStr (title (task_data t)))]
               (task_stored (edited_task t w) 1 0 w))
            (task_stored (edited_task t w) 1 0 w)).
  exists (next_audit_entry task_edited ent_task (task_id t)
            [("title", JStr (title (task_data t)))]
            (task_stored (edited_task t w) 1 0 w)).
  split; [by apply updateTask_fresh |]. repeat split.
  - simpl. apply lookup_insert_eq.
  - simpl. unfold upsert. unfold find_task in Hfind.
    change (task_id (edited_task t w)) with (task_id t). by rewrite Hfind.
  - simpl. by apply map_size_insert_None.
Qed.

(** *** The audit log *)








(** *** Export and import *)

(** C3.  There is no document to import: in every world [exportAllData]
    throws a ReferenceError for [exportKernel] at its first statement; it
    never returns a text, reads no collection, writes no audit entry and
    leaves the world as it is. *)
Theorem exportAllData_throws_ReferenceError w :
  exportAllData w = Throw (ReferenceError "exportKernel") w
  /\ (forall text w1, exportAllData w <> Ok text w1)
  /\ db (world_of (exportAllData w)) = db w
  /\ app (world_of (exportAllData w)) = app w.
Proof. rewrite exportAllData_run. by repeat split. Qed.

(** What the round trip would be with the document of [exportKernel], the
    function of store/db.ts that [exportAllData] fails to reach: when
    [importData] of the text of that document succeeds, the task, edge,
    routine and preferences collections are what they were, the mirror
    holds their records, and the audit store has the [kernel_imported]
    entry added. *)
Lemma exportKernel_importData_round_trip w data w2 :
  store_keyed (db w) ->
  exportKernel w = Ok data w ->
  importData defaultPreferences (JSON_stringify data) w = Ok tt w2 ->
  db_tasks (db w2) = db_tasks (db w)
  /\ db_edges (db w2) = db_edges (db w)
  /\ db_routines (db w2) = db_routines (db w)
  /\ db_preferences (db w2) = db_preferences (db w)
  /\ tasks (app w2) = getAll (db_tasks (db w))
  /\ edges (app w2) = getAll (db_edges (db w))
  /\ routines (app w2) = getAll (db_routines (db w))
  /\ preferences (app w2)
     = default defaultPreferences (db_preferences (db w) !! user_prefs)
  /\ exists e,
       audit_action e = kernel_imported
       /\ db_audit (db w) !! audit_id e = None
       /\ db_audit (db w2) = <[audit_id e := e]> (db_audit (db w)).
Proof.
  intros (Hkt & Hke & Hkr) Hexp Himp.
  rewrite exportKernel_run in Hexp. injection Hexp as <-.
  rewrite importData_run in Himp. unfold JSON_stringify in Himp.
  rewrite logAudit_run in Himp.
  set (d2 := imported (as_import (exported (db w))) (db w)) in *.
  set (w1 := with_app _ _) in *.
  destruct (db_audit (db w1) !! next_audit_id w1) eqn:Hf; [done |].
  injection Himp as <-.
  set (e := next_audit_entry kernel_imported ent_kernel "full_import" [] w1) in *.
  assert (Ht : db_tasks d2 = db_tasks (db w)) by (by apply put_each_getAll).
  assert (He : db_edges d2 = db_edges (db w)) by (by apply put_each_getAll).
  assert (Hr : db_routines d2 = db_routines (db w)) by (by apply put_each_getAll).
  assert (Hp : db_preferences d2 = db_preferences (db w)).
  { subst d2. simpl. destruct (db_preferences (db w) !! user_prefs) eqn:Hpl; [| done].
    by apply insert_id. }
  change (db_tasks (db (audit_appended e w1))) with (db_tasks d2).
  change (db_edges (db (audit_appended e w1))) with (db_edges d2).
  change (db_routines (db (audit_appended e w1))) with (db_routines d2).
  change (db_preferences (db (audit_appended e w1))) with (db_preferences d2).
  change (tasks (app (audit_appended e w1))) with (getAll (db_tasks d2)).
  change (edges (app (audit_appended e w1))) with (getAll (db_edges d2)).
  change (routines (app (audit_appended e w1))) with (getAll (db_routines d2)).
  change (preferences (app (audit_appended e w1)))
    with (default defaultPreferences (db_preferences d2 !! user_prefs)).
  rewrite Ht, He, Hr, Hp.
  do 8 (split; [reflexivity |]).
  exists e. split; [reflexivity |]. split; [exact Hf | reflexivity].
Qed.

End Claims.

(** ** The properties on sample data *)

Lemma db_ab_keyed : store_keyed db_ab.
Proof.
  repeat split; simpl.
  - apply (keyed_insert task_id taskA), (keyed_insert task_id taskB), keyed_empty.
  - apply (keyed_insert edge_id edgeAB), keyed_empty.
  - apply keyed_empty.
Defined.


(** The digest on the two shortest test messages of FIPS 180-4. *)
Lemma sha256_test_vectors :
  sha256_hex "" = "e3b0c44298fc1c149afbf4c8996fb92427ae41e4649b934ca495991b7852b855"
  /\ sha256_hex "abc"
     = "ba7816bf8f01cfea414140de5dae2223b00361a396177a9cb410ff61f20015ad".
Proof. vm_compute. split; reflexivity. Qed.

Lemma sha256_constants_derived :
  Sha256.K = Sha256.K_derived /\ Sha256.H0 = Sha256.H0_derived.
Proof. vm_compute. split; reflexivity. Qed.

(** The stored task A carries the hash of itself with the hash emptied. *)
Lemma taskA_hash_valid :
  lds_content_hash (task_lds taskA) = hash_excluding_itself taskA.
Proof. vm_compute. reflexivity. Qed.

(** For a task made by [createTask] the stored hash is the hash of the task
    with the hash field emptied. *)
Lemma createTask_hash_excludes_itself d w t w' :
  createTask d w = Ok t w' ->
  lds_content_hash (task_lds t) = hash_excluding_itself t.
Proof. intros H. apply createTask_Ok in H as (-> & _ & _). reflexivity. Qed.

(** What [updateTask], [completeTask] and [deferTask] hash: the task as it
    is about to be stored, its previous content hash still in place. *)
Lemma stamp_hash_covers_previous_hash t :
  lds_content_hash (task_lds (stamp_hash t)) = computeHash (task_to_json t).
Proof. reflexivity. Qed.

(** C1.  The stored hash after [updateTask] and after [completeTask] of the
    stored task A: each operation succeeds and stores the task under its
    id, and the stored [content_hash] differs from the hash of the stored
    task with its [content_hash] emptied.  The digest was taken over the
    task with the hash of the previous version still in the field. *)
Theorem stored_hash_covers_previous_hash :
  (exists w' t',
      updateTask taskA world_ab = Ok tt w'
      /\ db_tasks (db w') !! "task_a" = Some t'
      /\ lds_content_hash (task_lds t')
         = "18d9fb6eee82b33c4a8f5d990545b5e37fcf30f41bdef95d08878ef5f3f5bfd9"
      /\ hash_excluding_itself t'
         = "1bf66844238a199661c57b2a5f64b6e96a017d480e45915fc61f2ac7644eddaf")
  /\ (exists w' t',
      completeTask "task_a" world_ab = Ok tt w'
      /\ db_tasks (db w') !! "task_a" = Some t'
      /\ lds_content_hash (task_lds t')
         = "079dba3a61d3c886535c9a198b65cbe94272620901014583ac7d43707dfb9290"
      /\ hash_excluding_itself t'
         = "0bd8eadf007ba4fb9709b6fbdc02ad08a4720394fc834f92bc15369ae3358d56").
Proof.
  split.
  - exists (world_of (updateTask taskA world_ab)), (edited_task taskA world_ab).
    split; [| split; [| split]].
    + rewrite updateTask_fresh; [reflexivity | vm_compute; reflexivity].
    + rewrite updateTask_fresh; [| vm_compute; reflexivity].
      apply (lookup_insert_eq (db_tasks (db world_ab)) "task_a").
    + vm_compute. reflexivity.
    + vm_compute. reflexivity.
  - exists (world_of (completeTask "task_a" world_ab)), (completed_task taskA world_ab).
    assert (Hrun : completeTask "task_a" world_ab
                   = Ok tt (audit_appended
                              (next_audit_entry task_completed ent_task "task_a"
                                 [("title", JStr (title (task_data taskA)))]
                                 (task_stored (completed_task taskA world_ab) 2 0 world_ab))
                              (task_stored (completed_task taskA world_ab) 2 0 world_ab))).
    { rewrite completeTask_run.
      replace (find_task "task_a" (app world_ab)) with (Some taskA)
        by (vm_compute; reflexivity).
      rewrite logAudit_run.
      replace (db_audit (db (task_stored (completed_task taskA world_ab) 2 0 world_ab))
                 !! next_audit_id (task_stored (completed_task taskA world_ab) 2 0 world_ab))
        with (@None AuditEntry); [reflexivity |].
      symmetry. apply (lookup_empty (M := gmap string)). }
    split; [| split; [| split]].
    + rewrite Hrun. reflexivity.
    + rewrite Hrun. apply (lookup_insert_eq (db_tasks (db world_ab)) "task_a").
    + vm_compute. reflexivity.
    + vm_compute. reflexivity.
Qed.

Lemma completeTask_completes_witness :
  find_task "task_a" (app world_ab) = Some taskA
  /\ completeTask "task_a" world_ab = Ok tt (world_of (completeTask "task_a" world_ab))
  /\ exists t',
       db_tasks (db (world_of (completeTask "task_a" world_ab))) !! "task_a" = Some t'
       /\ In t' (tasks (app (world_of (completeTask "task_a" world_ab))))
       /\ (forall t, In t (tasks (app (world_of (completeTask "task_a" world_ab)))) ->
                     task_id t = "task_a" -> t = t')
       /\ status (task_data t') = completed
       /\ completed_at (task_data t') <> None
       /\ Forall (fun s => ms_completed s = true) (micro_steps (task_data t')).
Proof.
  assert (H1 : find_task "task_a" (app world_ab) = Some taskA)
    by (vm_compute; reflexivity).
  assert (H2 : completeTask "task_a" world_ab
               = Ok tt (world_of (completeTask "task_a" world_ab)))
    by (vm_compute; reflexivity).
  split; [exact H1 |]. split; [exact H2 |].
  exact (completeTask_completes world_ab "task_a" taskA _ H1 H2).
Defined.



(** The import of the text without a routines array stops with a TypeError
    after the tasks and the edges of the store have been replaced and the
    routines cleared; the mirror is not reloaded. *)
Lemma import_without_routines_drifts :
  importData prefs0 text_no_routines world_ab = Throw TypeError world_drift
  /\ db_tasks (db world_drift) !! "task_a" = Some taskA
  /\ db_edges (db world_drift) !! "edge_ab" = None
  /\ db_edges (db world_drift) !! "edge_ba" = Some edgeBA
  /\ tasks (app world_drift) = tasks (app world_ab)
  /\ edges (app world_drift) = [edgeAB]
  /\ auditLog (app world_drift) = [].
Proof. vm_compute. repeat split; reflexivity. Qed.



Lemma removeTask_unknown_id_witness :
  find_task "task_nowhere" (app world_ab) = None
  /\ db_audit (db world_ab) !! next_audit_id world_ab = None
  /\ exists w' entry,
       removeTask "task_nowhere" world_ab = Ok tt w'
       /\ audit_action entry = task_deleted
       /\ entity_type entry = ent_task
       /\ entity_id entry = "task_nowhere"
       /\ details entry = [("title", JStr "Unknown")]
       /\ db_audit (db w') = <[audit_id entry := entry]> (db_audit (db world_ab))
       /\ size (db_audit (db w')) = S (size (db_audit (db world_ab)))
       /\ auditLog (app w') = (auditLog (app world_ab) ++ [entry])%list
       /\ tasks (app w') = tasks (app world_ab).
Proof.
  assert (H1 : find_task "task_nowhere" (app world_ab) = None)
    by (vm_compute; reflexivity).
  assert (H2 : db_audit (db world_ab) !! next_audit_id world_ab = None)
    by (vm_compute; reflexivity).
  split; [exact H1 |]. split; [exact H2 |].
  exact (removeTask_unknown_id world_ab "task_nowhere" H1 H2).
Defined.


(** The last operation of the witness above does succeed. *)
Lemma session_removeTask_succeeds :
  run_op prefs0 (OpRemoveTask "task_a") world_later
  = Ok tt (world_of (run_op prefs0 (OpRemoveTask "task_a") world_later))
  /\ size (db_audit (db world_ab)) = 0
  /\ size (db_audit (db world_later)) = 1
  /\ size (db_audit (db (world_of (run_op prefs0 (OpRemoveTask "task_a") world_later))))
     = 2.
Proof. vm_compute. repeat split; reflexivity. Qed.

(** Scenario D, with the document of [exportKernel]: a task edited after
    the document was read is back to its earlier fields after the import
    of the document's text. *)
Lemma import_reverts_later_edit :
  exists w2 w3,
    exportKernel world_ab = Ok (exported (db world_ab)) world_ab
    /\ deferTask "task_a" world_ab = Ok tt w2
    /\ (exists t, db_tasks (db w2) !! "task_a" = Some t
                  /\ status (task_data t) = deferred)
    /\ importData prefs0 text_ab w2 = Ok tt w3
    /\ db_tasks (db w3) !! "task_a" = Some taskA.
Proof.
  exists (world_of (deferTask "task_a" world_ab)),
    (world_of (importData prefs0 text_ab (world_of (deferTask "task_a" world_ab)))).
  split; [reflexivity |]. split; [vm_compute; reflexivity |].
  split; [exists (deferred_task taskA world_ab); vm_compute; by split |].
  split; vm_compute; reflexivity.
Qed.

(** Scenario A: creating the task Buy milk stores it as pending with a
    64-digit content hash, and the last audit entry is [task_created]. *)
Lemma create_buy_milk :
  exists t w',
    createTask draft_milk world_ab = Ok t w'
    /\ db_tasks (db w') !! task_id t = Some t
    /\ status (task_data t) = pending
    /\ String.length (lds_content_hash (task_lds t)) = 64
    /\ option_map audit_action (last (auditLog (app w'))) = Some task_created.
Proof.
  exists (new_task draft_milk world_ab), (world_of (createTask draft_milk world_ab)).
  vm_compute. repeat split; reflexivity.
Qed.

(** Scenario C: with tasks A and B and an edge from A to B, removing A
    leaves no edge in the store and leaves B as it was. *)
Lemma remove_A_keeps_B :
  exists w',
    removeTask "task_a" world_ab = Ok tt w'
    /\ db_edges (db w') = ∅
    /\ edges (app w') = []
    /\ db_tasks (db w') !! "task_b" = Some taskB
    /\ tasks (app w') = [taskB].
Proof.
  exists (world_of (removeTask "task_a" world_ab)).
  vm_compute. repeat split; reflexivity.
Qed.

(** *** Where the code departs from the wording of C6, C7 and C8 *)

Lemma world_ab_audit_free n r :
  db_audit (db world_ab) !! next_audit_id (tick n r world_ab) = None.
Proof. apply (lookup_empty (M := gmap string)). Qed.



(** C7, disproved as worded: [createTask] on a draft with an empty title
    succeeds, persists the task with the empty title, and appends an audit
    entry. *)
Lemma createTask_rejects_blank_title_counterexample :
  title draft_blank = ""
  /\ exists t w',
       createTask draft_blank world_ab = Ok t w'
       /\ title (task_data t) = ""
       /\ db_tasks (db w') !! task_id t = Some t
       /\ size (db_audit (db w')) = S (size (db_audit (db world_ab))).
Proof.
  split; [reflexivity |].
  eexists _, _. split; [apply createTask_fresh, (world_ab_audit_free 2 1) |].
  split; [reflexivity |]. split.
  - apply (lookup_insert_eq (db_tasks (db world_ab))).
  - apply (map_size_insert_None (M := gmap string)), (world_ab_audit_free 2 1).
Qed.

Lemma createTask_accepts_blank_title_witness :
  title draft_blank = ""
  /\ db_audit (db world_ab) !! next_audit_id (tick 2 1 world_ab) = None
  /\ exists t w' entry,
       createTask draft_blank world_ab = Ok t w'
       /\ title (task_data t) = ""
       /\ db_tasks (db w') !! task_id t = Some t
       /\ In t (tasks (app w'))
       /\ audit_action entry = task_created
       /\ entity_id entry = task_id t
       /\ db_audit (db w') = <[audit_id entry := entry]> (db_audit (db world_ab))
       /\ size (db_audit (db w')) = S (size (db_audit (db world_ab))).
Proof.
  assert (H1 : title draft_blank = "") by reflexivity.
  assert (H2 : db_audit (db world_ab) !! next_audit_id (tick 2 1 world_ab) = None)
    by (vm_compute; reflexivity).
  split; [exact H1 |]. split; [exact H2 |].
  exact (createTask_accepts_blank_title draft_blank world_ab H1 H2).
Defined.

(** C8, disproved as worded: [updateTask] on a task whose id is neither in
    the store nor in the mirror succeeds, creates the task in both, and
    appends an audit entry. *)
Lemma updateTask_fails_on_unknown_id_counterexample :
  db_tasks (db world_ab) !! task_id taskC = None
  /\ find_task (task_id taskC) (app world_ab) = None
  /\ exists w',
       updateTask taskC world_ab = Ok tt w'
       /\ is_Some (db_tasks (db w') !! task_id taskC)
       /\ size (db_tasks (db w')) = S (size (db_tasks (db world_ab)))
       /\ length (tasks (app w')) = S (length (tasks (app world_ab)))
       /\ size (db_audit (db w')) = S (size (db_audit (db world_ab))).
Proof.
  assert (Hnone : db_tasks (db world_ab) !! task_id taskC = None)
    by (vm_compute; reflexivity).
  split; [exact Hnone |]. split; [vm_compute; reflexivity |].
  eexists. split; [apply updateTask_fresh, (world_ab_audit_free 1 0) |].
  split; [| split; [| split]].
  - eexists. apply (lookup_insert_eq (db_tasks (db world_ab))).
  - apply (map_size_insert_None (M := gmap string)), Hnone.
  - change (tasks (app (audit_appended _ _)))
      with (upsert (fun x => String.eqb (task_id x) (task_id taskC))
                   (edited_task taskC world_ab) (tasks (app world_ab))).
    unfold upsert.
    replace (List.find (fun x => String.eqb (task_id x) (task_id taskC))
                       (tasks (app world_ab)))
      with (@None Task) by (vm_compute; reflexivity).
    rewrite length_app. simpl. lia.
  - apply (map_size_insert_None (M := gmap string)), (world_ab_audit_free 1 0).
Qed.

Lemma updateTask_upserts_witness :
  find_task (task_id taskC) (app world_ab) = None
  /\ db_audit (db world_ab) !! next_audit_id (tick 1 0 world_ab) = None
  /\ exists t' w' entry,
       updateTask taskC world_ab = Ok tt w'
       /\ task_id t' = task_id taskC
       /\ task_data t' = task_data taskC
       /\ lds_updated (task_lds t') = host_iso (host world_ab) (clock world_ab)
       /\ db_tasks (db w') !! task_id taskC = Some t'
       /\ tasks (app w') = (tasks (app world_ab) ++ [t'])%list
       /\ audit_action entry = task_edited
       /\ entity_id entry = task_id taskC
       /\ db_audit (db w') = <[audit_id entry := entry]> (db_audit (db world_ab))
       /\ size (db_audit (db w')) = S (size (db_audit (db world_ab))).
Proof.
  assert (H1 : find_task (task_id taskC) (app world_ab) = None)
    by (vm_compute; reflexivity).
  assert (H2 : db_audit (db world_ab) !! next_audit_id (tick 1 0 world_ab) = None)
    by (vm_compute; reflexivity).
  split; [exact H1 |]. split; [exact H2 |].
  exact (updateTask_upserts taskC world_ab H1 H2).
Defined.

(** * Further properties of the code *)

(** ** The reducer *)

Lemma find_none_iff {A} (p : A -> bool) (xs : list A) :
  List.find p xs = None <-> forall x, In x xs -> p x = false.
Proof.
  split.
  - intros H x Hin. by apply (find_none p xs H).
  - intros H. destruct (List.find p xs) as [z |] eqn:Hf; [| done].
    apply find_some in Hf as [Hin Hp]. by rewrite (H z Hin) in Hp.
Qed.

Lemma upsert_found_all {A} (p : A -> bool) (y x : A) (xs : list A) :
  p y = true -> In x (upsert p y xs) -> p x = true -> x = y.
Proof.
  intros Hy Hin Hp. apply In_upsert_inv in Hin as [-> | [_ Hf]]; [done |].
  by rewrite Hf in Hp.
Qed.

Lemma upsert_others {A} (p : A -> bool) (y : A) (xs : list A) :
  p y = true ->
  List.filter (fun x => negb (p x)) (upsert p y xs)
  = List.filter (fun x => negb (p x)) xs.
Proof.
  intros Hy. unfold upsert. destruct (List.find p xs) as [z |] eqn:Hf.
  - clear Hf. induction xs as [| x rest IH]; simpl; [done |].
    destruct (p x) eqn:Hp; simpl.
    + by rewrite Hy.
    + by rewrite Hp, IH.
  - rewrite List.filter_app. simpl. rewrite Hy. simpl. apply app_nil_r.
Qed.

Lemma upsert_idempotent {A} (p : A -> bool) (y : A) (xs : list A) :
  p y = true -> upsert p y (upsert p y xs) = upsert p y xs.
Proof.
  intros Hy.
  assert (Hfound : exists z, List.find p (upsert p y xs) = Some z).
  { destruct (List.find p (upsert p y xs)) as [z |] eqn:Hf; [by exists z |].
    rewrite find_none_iff in Hf. by rewrite (Hf y (In_upsert_new p y xs)) in Hy. }
  destruct Hfound as [z Hz]. unfold upsert at 1. rewrite Hz.
  unfold upsert. destruct (List.find p xs) as [z' |] eqn:Hf.
  - rewrite map_map. apply map_ext. intros x.
    destruct (p x) eqn:Hp; [by rewrite Hy | by rewrite Hp].
  - rewrite find_none_iff in Hf. rewrite map_app. simpl. rewrite Hy. f_equal.
    rewrite <- (map_id xs) at 2. apply map_ext_in. intros x Hin.
    by rewrite (Hf x Hin).
Qed.

Lemma upsert_NoDup {A} (key : A -> string) (y : A) (xs : list A) :
  NoDup (map key xs) ->
  NoDup (map key (upsert (fun x => String.eqb (key x) (key y)) y xs)).
Proof.
  intros Hnd. unfold upsert.
  destruct (List.find _ xs) as [z |] eqn:Hf.
  - replace (map key (map (fun x => if String.eqb (key x) (key y) then y else x) xs))
      with (map key xs); [done |].
    rewrite map_map. apply map_ext. intros x.
    destruct (String.eqb (key x) (key y)) eqn:Hk; [| done].
    by apply String.eqb_eq in Hk.
  - rewrite find_none_iff in Hf. rewrite map_app. simpl.
    apply NoDup_app. split; [done |]. split; [| apply NoDup_singleton].
    intros k Hk Hy. apply list_elem_of_In, in_map_iff in Hk as [x [<- Hin]].
    apply list_elem_of_singleton in Hy. specialize (Hf x Hin).
    apply String.eqb_neq in Hf. done.
Qed.

Lemma filter_NoDup_map {A} (key : A -> string) (p : A -> bool) (xs : list A) :
  NoDup (map key xs) -> NoDup (map key (List.filter p xs)).
Proof.
  induction xs as [| x rest IH]; simpl; [done |].
  intros Hnd. apply NoDup_cons in Hnd as [Hnotin Hnd].
  destruct (p x); simpl; [| by apply IH].
  apply NoDup_cons. split; [| by apply IH].
  intros Hin. apply Hnotin. apply list_elem_of_In in Hin. apply list_elem_of_In.
  apply in_map_iff in Hin as [z [Hz Hin]]. apply filter_In in Hin as [Hin _].
  apply in_map_iff. by exists z.
Qed.

(** X1.  [UPSERT_TASK] replaces or appends: afterwards the payload is in the
    list, every task of the list with the payload's id is the payload, and
    the tasks with other ids are the ones from before, in their order;
    nothing else of the state changes. *)
Theorem reducer_upsert_task st t :
  In t (tasks (reducer st (UPSERT_TASK t)))
  /\ (forall x, In x (tasks (reducer st (UPSERT_TASK t))) ->
                task_id x = task_id t -> x = t)
  /\ List.filter (fun x => negb (String.eqb (task_id x) (task_id t)))
                 (tasks (reducer st (UPSERT_TASK t)))
     = List.filter (fun x => negb (String.eqb (task_id x) (task_id t))) (tasks st)
  /\ edges (reducer st (UPSERT_TASK t)) = edges st
  /\ routines (reducer st (UPSERT_TASK t)) = routines st
  /\ auditLog (reducer st (UPSERT_TASK t)) = auditLog st.
Proof.
  simpl. split; [apply In_upsert_new |]. split; [| split; [| done]].
  - intros x Hin Hid.
    apply (upsert_found_all (fun x => String.eqb (task_id x) (task_id t)) t x (tasks st)).
    + apply String.eqb_refl.
    + exact Hin.
    + by apply String.eqb_eq.
  - apply (upsert_others (fun x => String.eqb (task_id x) (task_id t))).
    apply String.eqb_refl.
Qed.

(** X2.  Dispatching the same [UPSERT_TASK] twice gives the state of
    dispatching it once. *)
Theorem reducer_upsert_task_idempotent st t :
  reducer (reducer st (UPSERT_TASK t)) (UPSERT_TASK t) = reducer st (UPSERT_TASK t).
Proof.
  simpl. f_equal.
  apply (upsert_idempotent (fun x => String.eqb (task_id x) (task_id t))).
  apply String.eqb_refl.
Qed.

(** X3.  [REMOVE_TASK] undoes an [UPSERT_TASK] of the same id: removing the
    id after the upsert gives the state of removing it before, and in that
    state no task has the id and no edge has it as source or target. *)
Theorem reducer_remove_after_upsert st t :
  reducer (reducer st (UPSERT_TASK t)) (REMOVE_TASK (task_id t))
  = reducer st (REMOVE_TASK (task_id t))
  /\ (forall x, In x (tasks (reducer st (REMOVE_TASK (task_id t)))) ->
                task_id x <> task_id t)
  /\ (forall e, In e (edges (reducer st (REMOVE_TASK (task_id t)))) ->
                edge_source e <> task_id t /\ edge_target e <> task_id t).
Proof.
  split; [| split].
  - simpl. f_equal.
    apply (upsert_others (fun x => String.eqb (task_id x) (task_id t))).
    apply String.eqb_refl.
  - simpl. intros x Hin. apply filter_In in Hin as [_ Hf].
    by apply negb_true_iff, String.eqb_neq in Hf.
  - simpl. intros e Hin. apply filter_In in Hin as [_ Hf].
    apply andb_true_iff in Hf as [H1 H2].
    apply negb_true_iff, String.eqb_neq in H1.
    apply negb_true_iff, String.eqb_neq in H2. done.
Qed.

(** X4.  Distinct task ids stay distinct under every action that is not a
    [LOAD_ALL]. *)
Theorem reducer_keeps_task_ids_distinct st action :
  NoDup (map task_id (tasks st)) ->
  (forall payload, action <> LOAD_ALL payload) ->
  NoDup (map task_id (tasks (reducer st action))).
Proof.
  intros Hnd Hload. destruct action; simpl; try done.
  - by destruct (Hload payload).
  - by apply upsert_NoDup.
  - by apply filter_NoDup_map.
Qed.

(** X5.  In every state the reducer reaches from the initial state, a task
    under edit means the editor is shown. *)
Theorem editor_shown_while_editing defaultPreferences st :
  dispatched defaultPreferences st ->
  editingTaskId st <> None -> showTaskEditor st = true.
Proof.
  induction 1 as [| st action _ IH]; [done |].
  destruct action; simpl; try exact IH.
  - by destruct payload.
  - by destruct payload.
Qed.

(** X6.  The mirrored audit log is append-only under the reducer: every
    action other than [LOAD_ALL] keeps the log as a prefix of the new log,
    and only [ADD_AUDIT] makes it longer. *)
Theorem reducer_audit_append_only st action :
  (forall payload, action <> LOAD_ALL payload) ->
  auditLog st `prefix_of` auditLog (reducer st action)
  /\ ((forall entry, action <> ADD_AUDIT entry) ->
      auditLog (reducer st action) = auditLog st).
Proof.
  intros Hload. destruct action; simpl;
    try (split; [reflexivity | done]).
  - by destruct (Hload payload).
  - split; [by apply prefix_app_r | intros H; by destruct (H payload)].
Qed.

(** ** Canonical form and content hash *)

Lemma list_ascii_of_string_app (a b : string) :
  list_ascii_of_string (a +:+ b)
  = (list_ascii_of_string a ++ list_ascii_of_string b)%list.
Proof. induction a as [| c a IH]; simpl; [done | by rewrite IH]. Qed.

Lemma string_app_assoc (a b c : string) : (a +:+ b) +:+ c = a +:+ (b +:+ c).
Proof.
  induction a as [| x a IH]; [done |].
  change (String x ((a +:+ b) +:+ c) = String x (a +:+ (b +:+ c))).
  by rewrite IH.
Qed.

Lemma quote_char_printable c :
  forallb printable (list_ascii_of_string (quote_char c)) = true.
Proof. destruct c as [[] [] [] [] [] [] [] []]; reflexivity. Qed.

Lemma unquote_quote_char c rest :
  unquote_char (quote_char c +:+ rest) = Some (c, rest).
Proof. destruct c as [[] [] [] [] [] [] [] []]; reflexivity. Qed.

(** X7.  [JSON.stringify] of a string never lets a control character
    through: every character of its result has code 32 or more. *)
Theorem JSON_stringify_string_printable s :
  forallb printable (list_ascii_of_string (JSON_stringify_string s)) = true.
Proof.
  unfold JSON_stringify_string. simpl. rewrite list_ascii_of_string_app, forallb_app.
  simpl. rewrite andb_true_r.
  induction s as [| c s IH]; simpl; [done |].
  by rewrite list_ascii_of_string_app, forallb_app, quote_char_printable, IH.
Qed.

Lemma quote_body_inj_before tail s1 s2 :
  unquote_char tail = None ->
  quote_body s1 +:+ tail = quote_body s2 +:+ tail -> s1 = s2.
Proof.
  intros Htail. revert s2.
  induction s1 as [| c1 s1 IH]; intros [| c2 s2]; simpl; intros Heq.
  - reflexivity.
  - exfalso. apply (f_equal unquote_char) in Heq.
    change ("" +:+ tail) with tail in Heq.
    rewrite string_app_assoc, unquote_quote_char, Htail in Heq. done.
  - exfalso. apply (f_equal unquote_char) in Heq.
    change ("" +:+ tail) with tail in Heq.
    rewrite string_app_assoc, unquote_quote_char, Htail in Heq. done.
  - apply (f_equal unquote_char) in Heq.
    rewrite !string_app_assoc, !unquote_quote_char in Heq.
    injection Heq as -> Heq. f_equal. by apply IH.
Qed.

(** X8.  [JSON.stringify] is injective on strings: two strings with the
    same quoted form are the same string. *)
Theorem JSON_stringify_string_inj s1 s2 :
  JSON_stringify_string s1 = JSON_stringify_string s2 -> s1 = s2.
Proof.
  unfold JSON_stringify_string. intros [= Heq].
  by apply (quote_body_inj_before (String dquote "")).
Qed.

Lemma round_length st kw : length (Sha256.round st kw) = length st.
Proof.
  unfold Sha256.round.
  destruct st as [| a [| b [| c [| d [| e [| f [| g [| h [| i st]]]]]]]]]; reflexivity.
Qed.

Lemma compress_length h block : length (Sha256.compress h block) = length h.
Proof.
  unfold Sha256.compress. rewrite length_map, length_combine.
  assert (Hst : forall kws st, length (fold_left Sha256.round kws st) = length st).
  { induction kws as [| kw kws IH]; intros st; simpl; [done |].
    by rewrite IH, round_length. }
  rewrite Hst. lia.
Qed.

Lemma be_bytes_length n x : length (Sha256.be_bytes n x) = n.
Proof.
  revert x. induction n as [| n IH]; intros x; simpl; [done |].
  rewrite length_app, IH. simpl. lia.
Qed.

Lemma digest_length msg : length (Sha256.digest msg) = 32.
Proof.
  unfold Sha256.digest.
  assert (Hhs : forall bs h, length (fold_left Sha256.compress bs h) = length h).
  { induction bs as [| b bs IH]; intros h; simpl; [done |].
    by rewrite IH, compress_length. }
  assert (Hcat : forall hs : list Z,
             length (concat (map (Sha256.be_bytes 4) hs)) = 4 * length hs).
  { induction hs as [| x hs IH]; [done |].
    change (concat (map (Sha256.be_bytes 4) (x :: hs)))
      with (Sha256.be_bytes 4 x ++ concat (map (Sha256.be_bytes 4) hs))%list.
    rewrite length_app, be_bytes_length, IH. simpl length. lia. }
  rewrite Hcat, Hhs. reflexivity.
Qed.

Lemma hex_digit_is_hex n : is_hex_digit (hex_digit n) = true.
Proof.
  destruct n as [| p]; [reflexivity |].
  do 4 (destruct p as [p | p |]; try reflexivity).
Qed.

Lemma string_app_nil_r (s : string) : s +:+ "" = s.
Proof.
  induction s as [| c s IH]; [done |].
  change (String c (s +:+ "") = String c s). by rewrite IH.
Qed.

Lemma string_length_app (a b : string) :
  String.length (a +:+ b) = String.length a + String.length b.
Proof.
  induction a as [| c a IH]; [done |].
  change (S (String.length (a +:+ b)) = S (String.length a) + String.length b).
  by rewrite IH.
Qed.

Lemma join_empty_cons (x : string) (xs : list string) :
  join "" (x :: xs) = x +:+ join "" xs.
Proof. destruct xs; [symmetry; apply string_app_nil_r | reflexivity]. Qed.

Lemma hex_of_bytes_shape bs :
  String.length (hex_of_bytes bs) = 2 * length bs
  /\ forallb is_hex_digit (list_ascii_of_string (hex_of_bytes bs)) = true.
Proof.
  unfold hex_of_bytes. induction bs as [| b bs [IHl IHh]]; [done |].
  change (map (fun b => hex_byte (Z.to_N b)) (b :: bs))
    with (hex_byte (Z.to_N b) :: map (fun b => hex_byte (Z.to_N b)) bs).
  rewrite join_empty_cons. split.
  - rewrite string_length_app, IHl. simpl length. unfold hex_byte. simpl String.length. lia.
  - rewrite list_ascii_of_string_app, forallb_app, IHh, andb_true_r.
    unfold hex_byte. simpl. by rewrite !hex_digit_is_hex.
Qed.

(** X9.  [computeHash] always returns 64 lower-case hexadecimal digits,
    whatever it is given. *)
Theorem computeHash_is_64_hex_digits data :
  String.length (computeHash data) = 64
  /\ forallb is_hex_digit (list_ascii_of_string (computeHash data)) = true.
Proof.
  unfold computeHash, sha256_hex.
  destruct (hex_of_bytes_shape
              (Sha256.digest
                 (TextEncoder_encode (canonicalize JSON_stringify_number data))))
    as [Hl Hh].
  split; [| exact Hh]. rewrite Hl, digest_length. reflexivity.
Qed.

(** ** The mirror and the store *)

Lemma NoDup_map_inj_on {A} (key : A -> string) (xs : list A) (a b : A) :
  NoDup (map key xs) -> In a xs -> In b xs -> key a = key b -> a = b.
Proof.
  induction xs as [| x rest IH]; simpl; [done |].
  intros Hnd Ha Hb Hk. apply NoDup_cons in Hnd as [Hnotin Hnd].
  assert (Hin : forall y, In y rest -> key y <> key x).
  { intros y Hy Heq. apply Hnotin. rewrite <- Heq.
    apply list_elem_of_In, in_map_iff. by exists y. }
  destruct Ha as [-> | Ha], Hb as [-> | Hb]; try done.
  - by destruct (Hin b Hb).
  - by destruct (Hin a Ha).
  - by apply IH.
Qed.

Lemma edges_deleted_lookup_other es (store : gmap string TaskEdge) k :
  ~ In k (map edge_id es) -> edges_deleted es store !! k = store !! k.
Proof.
  revert store. induction es as [| e0 rest IH]; intros store Hnin; simpl; [done |].
  rewrite IH; [| intros Hin; apply Hnin; by right].
  apply lookup_delete_ne. intros Heq. apply Hnin. by left.
Qed.

Lemma getAll_keys_NoDup {A} (key : A -> string) (store : gmap string A) :
  keyed key store -> NoDup (map key (getAll store)).
Proof.
  intros Hk. unfold getAll.
  replace (map key (map_to_list store).*2) with ((map_to_list store).*1).
  - apply NoDup_fst_map_to_list.
  - pose proof (fun kv => proj1 (elem_of_map_to_list' store kv)) as Hin.
    induction (map_to_list store) as [| [k x] rest IH]; [done |].
    rewrite !fmap_cons. simpl. f_equal.
    + symmetry. apply Hk. apply (Hin (k, x)). by left.
    + apply IH. intros kv Hkv. apply Hin. by right.
Qed.

Section Exact.
Variable defaultPreferences : UserPreferences.

Lemma exact_tick n r w :
  mirror_exact defaultPreferences w -> mirror_exact defaultPreferences (tick n r w).
Proof. intros H. exact H. Qed.

Lemma exact_audit_appended entry w :
  db_audit (db w) !! audit_id entry = None ->
  mirror_exact defaultPreferences w ->
  mirror_exact defaultPreferences (audit_appended entry w).
Proof.
  intros Hfresh (H1 & H2 & H3 & H4 & H5 & H6).
  split; [done |]. split; [done |]. split; [done |]. split; [done |].
  split; [| done]. intros a. simpl. rewrite in_app_iff, H5. simpl. split.
  - intros [[k Hk] | [<- | []]].
    + exists k. rewrite lookup_insert_ne; [done |]. intros <-. congruence.
    + exists (audit_id entry). apply lookup_insert_eq.
  - intros [k Hk]. rewrite lookup_insert in Hk. case_decide.
    + right. left. congruence.
    + left. by exists k.
Qed.

Lemma exact_logAudit action entityType entityId d w :
  mirror_exact defaultPreferences w ->
  mirror_exact defaultPreferences (world_of (logAudit action entityType entityId d w)).
Proof.
  intros He. rewrite logAudit_run.
  destruct (db_audit (db w) !! next_audit_id w) eqn:Hl; simpl.
  - by apply exact_tick.
  - by apply exact_audit_appended.
Qed.

(** Inserting under the key and upserting in the list keep a store and a
    list with distinct keys in step. *)
Lemma exact_insert_upsert {A} (key : A -> string) (y : A) (store : gmap string A)
    (xs : list A) :
  (forall k x, store !! k = Some x <-> k = key x /\ In x xs) ->
  forall k x, <[key y := y]> store !! k = Some x
              <-> k = key x
                  /\ In x (upsert (fun x => String.eqb (key x) (key y)) y xs).
Proof.
  intros Hex k x. rewrite lookup_insert. case_decide as Hk; split.
  - intros [= <-]. split; [done | apply In_upsert_new].
  - intros [-> Hin]. apply In_upsert_inv in Hin as [-> | [_ Hne]]; [done |].
    apply String.eqb_neq in Hne. congruence.
  - intros Hl. apply Hex in Hl as [-> Hin]. split; [done |].
    apply In_upsert_other; [done |]. apply String.eqb_neq. congruence.
  - intros [-> Hin]. apply In_upsert_inv in Hin as [-> | [Hin _]]; [done |].
    apply Hex. done.
Qed.

Lemma exact_delete_filter {A} (key : A -> string) (i : string)
    (store : gmap string A) (xs : list A) :
  (forall k x, store !! k = Some x <-> k = key x /\ In x xs) ->
  forall k x, delete i store !! k = Some x
              <-> k = key x
                  /\ In x (List.filter (fun x => negb (String.eqb (key x) i)) xs).
Proof.
  intros Hex k x. rewrite lookup_delete, filter_In. case_decide as Hk; split.
  - done.
  - intros [-> [_ Hf]]. apply negb_true_iff, String.eqb_neq in Hf. congruence.
  - intros Hl. apply Hex in Hl as [-> Hin]. repeat split; [done |].
    apply negb_true_iff, String.eqb_neq. congruence.
  - intros [-> [Hin _]]. apply Hex. done.
Qed.

Lemma exact_task_stored t n r w :
  mirror_exact defaultPreferences w ->
  mirror_exact defaultPreferences (task_stored t n r w).
Proof.
  intros (H1 & H2 & H3 & H4 & H5 & H6).
  split; [simpl; by apply upsert_NoDup |].
  split; [simpl; by apply exact_insert_upsert |]. done.
Qed.

Lemma exact_edge_stored e w :
  mirror_exact defaultPreferences w ->
  mirror_exact defaultPreferences (edge_stored e w).
Proof.
  intros (H1 & H2 & H3 & H4 & H5 & H6).
  split; [done |]. split; [done |].
  split; [simpl; by apply upsert_NoDup |].
  split; [simpl; by apply exact_insert_upsert |]. done.
Qed.

Lemma exact_edge_removed edgeId w :
  mirror_exact defaultPreferences w ->
  mirror_exact defaultPreferences (edge_removed edgeId w).
Proof.
  intros (H1 & H2 & H3 & H4 & H5 & H6).
  split; [done |]. split; [done |].
  split; [simpl; by apply filter_NoDup_map |].
  split; [simpl; by apply exact_delete_filter |]. done.
Qed.

Lemma exact_task_removed taskId w :
  mirror_exact defaultPreferences w ->
  mirror_exact defaultPreferences (task_removed taskId w).
Proof.
  intros (H1 & H2 & H3 & H4 & H5 & H6).
  split; [simpl; by apply filter_NoDup_map |].
  split; [simpl; by apply exact_delete_filter |].
  split; [simpl; by apply filter_NoDup_map |].
  split; [| done].
  intros k e. cbn [task_removed db app db_edges reducer edges].
  rewrite filter_In. split.
  - intros Hl. apply edges_deleted_lookup in Hl as [Hl Hnin].
    apply H4 in Hl as [-> Hin]. repeat split; [done |].
    destruct (String.eqb (edge_source e) taskId || String.eqb (edge_target e) taskId)
      eqn:Hrel.
    + exfalso. apply Hnin, in_map_iff. exists e. split; [done |].
      apply filter_In. done.
    + apply orb_false_iff in Hrel as [-> ->]. done.
  - intros [-> [Hin Hf]].
    rewrite edges_deleted_lookup_other; [by apply H4 |].
    intros Hk. apply in_map_iff in Hk as [e' [Hid Hrel]].
    apply filter_In in Hrel as [Hin' Hrel].
    assert (e' = e) as -> by (by apply (NoDup_map_inj_on edge_id (edges (app w)))).
    apply orb_true_iff in Hrel. apply andb_true_iff in Hf as [Hs Ht].
    apply negb_true_iff in Hs, Ht. destruct Hrel; congruence.
Qed.

Lemma exact_preferences_stored partial w :
  mirror_exact defaultPreferences w ->
  mirror_exact defaultPreferences (preferences_stored partial w).
Proof.
  intros (H1 & H2 & H3 & H4 & H5 & H6).
  split; [done |]. split; [done |]. split; [done |]. split; [done |].
  split; [done |].
  unfold preferences_stored. cbn [db app db_preferences reducer preferences].
  by rewrite (lookup_insert_eq (db_preferences (db w))).
Qed.

Lemma exact_loaded w :
  store_keyed (db w) ->
  mirror_exact defaultPreferences
    (with_app (loaded defaultPreferences (db w) (app w)) w).
Proof.
  intros (Hkt & Hke & Hkr).
  split; [simpl; by apply getAll_keys_NoDup |].
  split.
  { intros k t. simpl. rewrite In_getAll. split.
    - intros Hl. split; [symmetry; by apply Hkt | by exists k].
    - intros [-> [k' Hl]]. by rewrite (Hkt k' t Hl). }
  split; [simpl; by apply getAll_keys_NoDup |].
  split.
  { intros k e. simpl. rewrite In_getAll. split.
    - intros Hl. split; [symmetry; by apply Hke | by exists k].
    - intros [-> [k' Hl]]. by rewrite (Hke k' e Hl). }
  split; [| done]. intros a. simpl. apply In_getAll.
Qed.

(** What stops [importKernel] is a TypeError or a DataError. *)
Lemma import_attempt_exception data d e :
  (import_attempt data d).2 = Some e -> e = TypeError \/ e = DataError.
Proof.
  assert (Hput : forall {A} (key : A -> string) xs store e',
             (put_until_keyless key xs store).2 = Some e' -> e' = DataError).
  { intros A key xs. induction xs as [| [x |] rest IH]; intros store e'; simpl.
    - discriminate.
    - apply IH.
    - by intros [= <-]. }
  assert (Hfield : forall {A} (key : A -> string) field e',
             (field_stored key field).2 = Some e' -> e' = TypeError \/ e' = DataError).
  { intros A key [| xs] e'; simpl.
    - intros [= <-]. by left.
    - intros H. right. by apply (Hput _ key xs ∅). }
  unfold import_attempt.
  destruct (field_stored task_id (kd_tasks data)).2 as [e1 |] eqn:H1.
  { intros [= <-]. by apply (Hfield _ task_id (kd_tasks data)). }
  destruct (field_stored edge_id (kd_edges data)).2 as [e2 |] eqn:H2.
  { intros [= <-]. by apply (Hfield _ edge_id (kd_edges data)). }
  destruct (field_stored routine_id (kd_routines data)).2 as [e3 |] eqn:H3.
  { intros [= <-]. by apply (Hfield _ routine_id (kd_routines data)). }
  discriminate.
Qed.

(** X10.  Store and mirror stay in step through every operation but an
    import that stops part-way: when the mirror lists exactly the tasks
    and the edges of the store, each under its own id and no id twice,
    exactly the audit entries of the store, and the stored preferences
    (as it does after the mount effect), it still does after any
    operation, whether the operation returned or threw, unless the
    operation is an [importData] that threw a TypeError or a DataError. *)
Theorem mirror_exact_kept op w :
  mirror_exact defaultPreferences w ->
  import_cut_short defaultPreferences op w = false ->
  mirror_exact defaultPreferences (world_of (run_op defaultPreferences op w)).
Proof.
  intros Hs Hcut.
  destruct op as [d | t | i | i | i | s t ty | i | p | | j]; cbn [run_op].
  - unfold bind. rewrite createTask_run.
    pose proof (exact_logAudit task_created ent_task (next_id "task" w)
                  [("title", JStr (title d))] _
                  (exact_task_stored (new_task d w) 2 1 w Hs)) as H.
    by destruct (logAudit _ _ _ _ _).
  - rewrite updateTask_run. by apply exact_logAudit, exact_task_stored.
  - rewrite completeTask_run. destruct (find_task i (app w)); [| done].
    by apply exact_logAudit, exact_task_stored.
  - rewrite deferTask_run. destruct (find_task i (app w)); [| done].
    by apply exact_logAudit, exact_task_stored.
  - rewrite removeTask_run. by apply exact_logAudit, exact_task_removed.
  - rewrite addEdge_run. by apply exact_logAudit, exact_edge_stored.
  - rewrite removeEdge_run. by apply exact_logAudit, exact_edge_removed.
  - rewrite updatePreferences_run. by apply exact_preferences_stored.
  - unfold bind. by rewrite exportAllData_run.
  - cbn [import_cut_short] in Hcut. rewrite importData_run in *.
    destruct j as [doc | data | raw]; [| | done].
    + apply exact_logAudit.
      apply (exact_loaded (with_db (imported (as_import doc) (db w)) w)).
      apply imported_keyed.
    + pose proof (import_attempt_done_keyed data (db w)) as Hk.
      pose proof (import_attempt_exception data (db w)) as Hex.
      destruct (import_attempt data (db w)).2 as [e |].
      * destruct (Hex e eq_refl) as [-> | ->]; discriminate Hcut.
      * apply exact_logAudit.
        apply (exact_loaded (with_db (import_attempt data (db w)).1 w)).
        by apply Hk.
Qed.

End Exact.

(** ** The mutation operations, further *)

Lemma filter_all_id {A} (p : A -> bool) (xs : list A) :
  (forall x, In x xs -> p x = true) -> List.filter p xs = xs.
Proof.
  induction xs as [| x rest IH]; simpl; intros H; [done |].
  rewrite (H x (or_introl eq_refl)). f_equal. apply IH.
  intros y Hy. apply H. by right.
Qed.

Section MoreService.
Variable defaultPreferences : UserPreferences.

Lemma exact_find_task w taskId :
  mirror_exact defaultPreferences w ->
  find_task taskId (app w) = db_tasks (db w) !! taskId.
Proof.
  intros (_ & H2 & _). destruct (find_task taskId (app w)) as [t |] eqn:Hf.
  - apply find_task_id in Hf as [Hin <-]. symmetry. by apply H2.
  - destruct (db_tasks (db w) !! taskId) as [t |] eqn:Hl; [| done].
    apply H2 in Hl as [-> Hin]. unfold find_task in Hf.
    rewrite find_none_iff in Hf. specialize (Hf t Hin).
    by rewrite String.eqb_refl in Hf.
Qed.

(** X11.  [deferTask] changes the status and nothing else of the task's
    fields: when it finds the task and succeeds, the stored task has status
    deferred and the micro-steps, completion time and every other field of
    the task it found, under the same id and creation time; edges and
    routines are untouched. *)
Theorem deferTask_changes_status_only w taskId task w' :
  find_task taskId (app w) = Some task ->
  deferTask taskId w = Ok tt w' ->
  exists t',
    db_tasks (db w') !! taskId = Some t'
    /\ In t' (tasks (app w'))
    /\ task_data t' = set_status deferred (task_data task)
    /\ micro_steps (task_data t') = micro_steps (task_data task)
    /\ completed_at (task_data t') = completed_at (task_data task)
    /\ lds_created (task_lds t') = lds_created (task_lds task)
    /\ lds_updated (task_lds t') = host_iso (host w) (clock w)
    /\ db_edges (db w') = db_edges (db w)
    /\ db_routines (db w') = db_routines (db w).
Proof.
  intros Hfind Hrun. rewrite deferTask_run, Hfind, logAudit_run in Hrun.
  destruct (db_audit _ !! _); [done |]. injection Hrun as <-.
  apply find_task_id in Hfind as [Hin Hid].
  exists (deferred_task task w).
  assert (Htid : task_id (deferred_task task w) = taskId) by exact Hid.
  split; [simpl; rewrite Htid; apply lookup_insert_eq |].
  split; [simpl; apply In_upsert_new |]. done.
Qed.

(** X12.  [completeTask] and [deferTask] on an id no task of the mirror
    has return without an error and change nothing, whatever the store
    holds under that id: no store write, no audit entry, no reading of the
    clock. *)
Theorem complete_defer_unknown_id_noop w taskId :
  find_task taskId (app w) = None ->
  completeTask taskId w = Ok tt w /\ deferTask taskId w = Ok tt w.
Proof.
  intros Hnone. rewrite completeTask_run, deferTask_run. by rewrite Hnone.
Qed.

(** X13.  A failed audit write does not undo the mutation: when the id
    generated for the audit entry is already a key of the audit store,
    [createTask] throws a ConstraintError, yet the new task is in the store
    and in the mirror, and the audit log is as it was. *)
Theorem createTask_audit_failure_keeps_task d w entry :
  db_audit (db w) !! next_audit_id (tick 2 1 w) = Some entry ->
  exists w',
    createTask d w = Throw (ConstraintError (next_audit_id (tick 2 1 w))) w'
    /\ db_tasks (db w') !! next_id "task" w = Some (new_task d w)
    /\ In (new_task d w) (tasks (app w'))
    /\ db_audit (db w') = db_audit (db w)
    /\ auditLog (app w') = auditLog (app w).
Proof.
  intros Htaken.
  exists (tick 2 1 (task_stored (new_task d w) 2 1 w)).
  rewrite createTask_run, logAudit_run.
  change (db_audit (db (task_stored (new_task d w) 2 1 w))) with (db_audit (db w)).
  change (next_audit_id (task_stored (new_task d w) 2 1 w))
    with (next_audit_id (tick 2 1 w)).
  rewrite Htaken. split; [reflexivity |].
  split; [simpl; apply (lookup_insert_eq (db_tasks (db w))) |].
  split; [simpl; apply In_upsert_new | done].
Qed.

Lemma edges_deleted_In es (store : gmap string TaskEdge) e :
  In e es -> edges_deleted es store !! edge_id e = None.
Proof.
  intros Hin. destruct (edges_deleted es store !! edge_id e) as [e' |] eqn:Hl; [| done].
  apply edges_deleted_lookup in Hl as [_ Hnin]. exfalso. apply Hnin.
  apply in_map_iff. by exists e.
Qed.

(** X14.  Likewise for [removeTask]: when its audit write fails, the task
    and every edge the mirror listed with the id as source or target are
    gone from the store all the same, the mirror has dropped the task, and
    no audit entry records the deletion.  When the mirror listed every
    stored edge, no stored edge refers to the id any more. *)
Theorem removeTask_audit_failure_still_deletes w taskId entry :
  db_audit (db w) !! next_audit_id w = Some entry ->
  exists w',
    removeTask taskId w = Throw (ConstraintError (next_audit_id w)) w'
    /\ db_tasks (db w') !! taskId = None
    /\ (forall e, In e (edges (app w)) ->
                  edge_source e = taskId \/ edge_target e = taskId ->
                  db_edges (db w') !! edge_id e = None)
    /\ (edges_mirrored w ->
        forall k e, db_edges (db w') !! k = Some e ->
                    edge_source e <> taskId /\ edge_target e <> taskId)
    /\ tasks (app w')
       = List.filter (fun t => negb (String.eqb (task_id t) taskId)) (tasks (app w))
    /\ db_audit (db w') = db_audit (db w)
    /\ auditLog (app w') = auditLog (app w).
Proof.
  intros Htaken.
  exists (tick 2 1 (task_removed taskId w)).
  rewrite removeTask_run, logAudit_run.
  change (db_audit (db (task_removed taskId w))) with (db_audit (db w)).
  change (next_audit_id (task_removed taskId w)) with (next_audit_id w).
  rewrite Htaken. split; [reflexivity |].
  split; [simpl; apply lookup_delete_eq |].
  split.
  { intros e Hin Hrel. simpl. apply edges_deleted_In. apply filter_In.
    split; [done |]. apply orb_true_iff.
    destruct Hrel as [<- | <-]; [left | right]; apply String.eqb_refl. }
  split; [| done].
  intros Hedges k e Hl. simpl in Hl. apply edges_deleted_lookup in Hl as [Hl Hnin].
  apply Hedges in Hl as [-> Hin].
  destruct (String.eqb (edge_source e) taskId || String.eqb (edge_target e) taskId)
    eqn:Hrel.
  - exfalso. apply Hnin, in_map_iff. exists e. split; [done |].
    apply filter_In. done.
  - apply orb_false_iff in Hrel as [H1 H2]. by split; apply String.eqb_neq.
Qed.

(** X15.  [addEdge] checks nothing: whatever the source, the target and the
    type (tasks that do not exist, a task linked to itself, a link that is
    already there), it stores a new edge under the generated id and keeps
    the edges stored under other ids.  (The generated audit id is assumed
    unused.) *)
Theorem addEdge_accepts_any_endpoints source target type w :
  db_audit (db w) !! next_audit_id (tick 1 1 w) = None ->
  exists w',
    addEdge source target type w = Ok tt w'
    /\ db_edges (db w') !! next_id "edge" w
       = Some {| edge_id := next_id "edge" w; edge_source := source;
                 edge_target := target; edge_type := type |}
    /\ (forall k, k <> next_id "edge" w -> db_edges (db w') !! k = db_edges (db w) !! k)
    /\ db_tasks (db w') = db_tasks (db w).
Proof.
  intros Hfresh.
  exists (audit_appended
            (next_audit_entry edge_created ent_edge (next_id "edge" w)
               [("source", JStr source); ("target", JStr target);
                ("type", JStr (edge_type_str type))]
               (edge_stored (new_edge source target type w) w))
            (edge_stored (new_edge source target type w) w)).
  rewrite addEdge_run, logAudit_run.
  change (db_audit (db (edge_stored (new_edge source target type w) w)))
    with (db_audit (db w)).
  change (next_audit_id (edge_stored (new_edge source target type w) w))
    with (next_audit_id (tick 1 1 w)).
  rewrite Hfresh. split; [reflexivity |].
  split; [simpl; apply (lookup_insert_eq (db_edges (db w))) |].
  split; [| done]. intros k Hk. simpl. by apply lookup_insert_ne.
Qed.

(** X16.  [removeEdge] undoes [addEdge]: when [addEdge] succeeds with a
    generated id that no stored edge and no edge of the mirror has, and
    [removeEdge] of that id succeeds next, the edge store and the mirror's
    edges are what they were before, while the audit store has two more
    entries. *)
Theorem removeEdge_undoes_addEdge source target type w w1 w2 :
  db_edges (db w) !! next_id "edge" w = None ->
  (forall x, In x (edges (app w)) -> edge_id x <> next_id "edge" w) ->
  addEdge source target type w = Ok tt w1 ->
  removeEdge (next_id "edge" w) w1 = Ok tt w2 ->
  db_edges (db w2) = db_edges (db w)
  /\ edges (app w2) = edges (app w)
  /\ size (db_audit (db w2)) = S (S (size (db_audit (db w)))).
Proof.
  intros Hnew Hmirror0 Hadd Hrem.
  rewrite addEdge_run, logAudit_run in Hadd.
  destruct (db_audit _ !! _) eqn:Hf1; [done |].
  apply (f_equal world_of) in Hadd. cbn [world_of] in Hadd. subst w1.
  rewrite removeEdge_run, logAudit_run in Hrem.
  destruct (db_audit (db (edge_removed _ _)) !! _) eqn:Hf2; [done |].
  apply (f_equal world_of) in Hrem. cbn [world_of] in Hrem. subst w2.
  set (e := new_edge source target type w) in *.
  assert (Hmirror : forall x, In x (edges (app w)) ->
                      String.eqb (edge_id x) (edge_id e) = false).
  { intros x Hin. apply String.eqb_neq. by apply Hmirror0. }
  split; [| split].
  - simpl. change (edge_id e) with (next_id "edge" w).
    rewrite delete_insert_eq. by apply delete_id.
  - change (edges (app (audit_appended _ _)))
      with (List.filter (fun x => negb (String.eqb (edge_id x) (edge_id e)))
              (upsert (fun x => String.eqb (edge_id x) (edge_id e)) e (edges (app w)))).
    rewrite (upsert_others (fun x => String.eqb (edge_id x) (edge_id e)))
      by apply String.eqb_refl.
    apply filter_all_id. intros x Hin. by rewrite (Hmirror x Hin).
  - simpl in Hf1, Hf2. simpl.
    rewrite map_size_insert_None by exact Hf2.
    by rewrite map_size_insert_None by exact Hf1.
Qed.

(** X17.  [removeEdge] on an id that no stored edge and no edge of the
    mirror has leaves the stored and the mirrored edges as they are and
    still appends one [edge_deleted] entry.  (The generated audit id is
    assumed unused.) *)
Theorem removeEdge_unknown_id w edgeId :
  db_edges (db w) !! edgeId = None ->
  (forall x, In x (edges (app w)) -> edge_id x <> edgeId) ->
  db_audit (db w) !! next_audit_id w = None ->
  exists w' entry,
    removeEdge edgeId w = Ok tt w'
    /\ db_edges (db w') = db_edges (db w)
    /\ edges (app w') = edges (app w)
    /\ audit_action entry = edge_deleted
    /\ entity_id entry = edgeId
    /\ db_audit (db w') = <[audit_id entry := entry]> (db_audit (db w)).
Proof.
  intros Hnone Hmirror Hfresh.
  exists (audit_appended (next_audit_entry edge_deleted ent_edge edgeId [] w)
            (edge_removed edgeId w)).
  exists (next_audit_entry edge_deleted ent_edge edgeId [] w).
  rewrite removeEdge_run, logAudit_run.
  change (db_audit (db (edge_removed edgeId w))) with (db_audit (db w)).
  change (next_audit_id (edge_removed edgeId w)) with (next_audit_id w).
  rewrite Hfresh. split; [reflexivity |].
  split; [simpl; by apply delete_id |]. split; [| done].
  simpl. apply filter_all_id. intros x Hin.
  apply negb_true_iff, String.eqb_neq. by apply Hmirror.
Qed.

(** X18.  [updatePreferences] always succeeds, stores the merged
    preferences (the fields of the partial record over the current ones)
    and shows the same record in the mirror; it appends no audit entry and
    leaves tasks and edges alone. *)
Theorem updatePreferences_stores_merge partial w :
  exists w',
    updatePreferences partial w = Ok tt w'
    /\ preferences (app w') = merge_preferences (preferences (app w)) partial
    /\ db_preferences (db w') !! user_prefs = Some (preferences (app w'))
    /\ db_audit (db w') = db_audit (db w)
    /\ auditLog (app w') = auditLog (app w)
    /\ db_tasks (db w') = db_tasks (db w)
    /\ db_edges (db w') = db_edges (db w).
Proof.
  exists (preferences_stored partial w). rewrite updatePreferences_run.
  split; [reflexivity |]. split; [reflexivity |].
  split; [simpl; apply (lookup_insert_eq (db_preferences (db w))) | done].
Qed.

(** X19.  [removeTask] never touches routines: whether it returns or
    throws, the routine store and the mirrored routines are what they
    were, so a routine that lists the removed task goes on listing it. *)
Theorem removeTask_keeps_routines w taskId :
  db_routines (db (world_of (removeTask taskId w))) = db_routines (db w)
  /\ routines (app (world_of (removeTask taskId w))) = routines (app w).
Proof.
  rewrite removeTask_run, logAudit_run.
  destruct (db_audit _ !! _); done.
Qed.

End MoreService.

(** ** Import, export and the mount effect *)

Lemma find_app {A} (p : A -> bool) (xs ys : list A) :
  List.find p (xs ++ ys)
  = match List.find p xs with Some x => Some x | None => List.find p ys end.
Proof.
  induction xs as [| x rest IH]; simpl; [done |]. by destruct (p x).
Qed.

Lemma put_each_last {A} (key : A -> string) (xs : list A) (store : gmap string A) k :
  put_each key xs store !! k
  = match last_with_key key k xs with Some x => Some x | None => store !! k end.
Proof.
  revert store. unfold last_with_key.
  induction xs as [| x rest IH]; intros store; [done |].
  change (put_each key (x :: rest) store)
    with (put_each key rest (<[key x := x]> store)).
  rewrite IH. simpl rev. rewrite find_app.
  destruct (List.find _ (rev rest)); [done |]. simpl.
  rewrite lookup_insert. destruct (String.eqb (key x) k) eqn:Hk.
  - apply String.eqb_eq in Hk. by rewrite decide_True.
  - apply String.eqb_neq in Hk. by rewrite decide_False.
Qed.

Lemma last_with_key_NoDup {A} (key : A -> string) (xs : list A) (x : A) :
  NoDup (map key xs) -> In x xs -> last_with_key key (key x) xs = Some x.
Proof.
  intros Hnd Hin. unfold last_with_key.
  destruct (List.find _ (rev xs)) as [y |] eqn:Hf.
  - apply find_some in Hf as [Hy Hk]. apply in_rev in Hy.
    apply String.eqb_eq in Hk. f_equal.
    by apply (NoDup_map_inj_on key xs).
  - rewrite find_none_iff in Hf. apply in_rev in Hin. specialize (Hf x Hin).
    by rewrite String.eqb_refl in Hf.
Qed.

Lemma last_with_key_In {A} (key : A -> string) (xs : list A) k (x : A) :
  last_with_key key k xs = Some x -> In x xs /\ key x = k.
Proof.
  unfold last_with_key. intros Hf. apply find_some in Hf as [Hin Hk].
  split; [by apply in_rev | by apply String.eqb_eq].
Qed.

Lemma NoDup_map_NoDup {A} (key : A -> string) (xs : list A) :
  NoDup (map key xs) -> NoDup xs.
Proof.
  induction xs as [| x rest IH]; simpl; intros Hnd; [constructor |].
  apply NoDup_cons in Hnd as [Hnotin Hnd]. apply NoDup_cons. split; [| by apply IH].
  intros Hin. apply Hnotin. apply list_elem_of_In, in_map_iff. exists x.
  split; [done | by apply list_elem_of_In].
Qed.

(** After putting a list with distinct keys into an empty store, the store
    holds the records of the list. *)
Lemma getAll_put_each_Permutation {A} (key : A -> string) (xs : list A) :
  NoDup (map key xs) -> Permutation (getAll (put_each key xs ∅)) xs.
Proof.
  intros Hnd. apply NoDup_Permutation.
  - apply (NoDup_map_NoDup key), getAll_keys_NoDup, keyed_put_each, keyed_empty.
  - by apply (NoDup_map_NoDup key).
  - intros x. rewrite !list_elem_of_In, In_getAll. split.
    + intros [k Hk]. rewrite put_each_last, lookup_empty in Hk.
      destruct (last_with_key key k xs) as [y |] eqn:Hl; [| done].
      injection Hk as ->. by apply last_with_key_In in Hl as [Hin _].
    + intros Hin. exists (key x).
      by rewrite put_each_last, (last_with_key_NoDup key xs x Hnd Hin).
Qed.

(** X20.  [importKernel] replaces, it does not merge: afterwards the task,
    edge and routine stores hold, under each id, the last record of the
    document with that id and nothing of what was stored before; the audit
    store is untouched; the stored preferences are the document's, or the
    old ones when the document has none. *)
Theorem importKernel_replaces (data : KernelImport) w :
  exists w',
    importKernel data w = Ok tt w'
    /\ (forall k, db_tasks (db w') !! k = last_with_key task_id k (im_tasks data))
    /\ (forall k, db_edges (db w') !! k = last_with_key edge_id k (im_edges data))
    /\ (forall k, db_routines (db w') !! k
                  = last_with_key routine_id k (im_routines data))
    /\ db_audit (db w') = db_audit (db w)
    /\ db_preferences (db w') !! user_prefs
       = match im_preferences data with
         | Some p => Some p
         | None => db_preferences (db w) !! user_prefs
         end
    /\ app w' = app w.
Proof.
  exists (with_db (imported data (db w)) w). split; [apply importKernel_typed |].
  assert (Hlast : forall {A} (key : A -> string) xs k,
             put_each key xs ∅ !! k = last_with_key key k xs).
  { intros A key xs k. rewrite put_each_last, lookup_empty.
    by destruct (last_with_key key k xs). }
  split; [intros k; apply Hlast |]. split; [intros k; apply Hlast |].
  split; [intros k; apply Hlast |]. split; [done |]. split; [| done].
  simpl. destruct (im_preferences data); [apply lookup_insert_eq | done].
Qed.

Section MountFacts.
Variable defaultPreferences : UserPreferences.
Variable seedTasks : list Task.
Variable seedEdges : list TaskEdge.
Variable seedRoutines : list Routine.
Variable seedAuditLog : list AuditEntry.

(** X21.  Import, then export: when [importData] of a document whose
    tasks, edges and routines have distinct ids succeeds, the stores, the
    mirror and a following [exportKernel] hold the records of the document,
    in some order. *)
Theorem import_then_export_same_records doc w w1 :
  NoDup (map task_id (ex_tasks doc)) ->
  NoDup (map edge_id (ex_edges doc)) ->
  NoDup (map routine_id (ex_routines doc)) ->
  importData defaultPreferences (JSON_stringify doc) w = Ok tt w1 ->
  exists data,
    exportKernel w1 = Ok data w1
    /\ Permutation (ex_tasks data) (ex_tasks doc)
    /\ Permutation (ex_edges data) (ex_edges doc)
    /\ Permutation (ex_routines data) (ex_routines doc)
    /\ tasks (app w1) = ex_tasks data
    /\ edges (app w1) = ex_edges data
    /\ routines (app w1) = ex_routines data.
Proof.
  intros Ht He Hr Himp. rewrite importData_run in Himp. unfold JSON_stringify in Himp.
  rewrite logAudit_run in Himp.
  destruct (db_audit _ !! _); [done |].
  apply (f_equal world_of) in Himp. cbn [world_of] in Himp. subst w1.
  eexists. split; [reflexivity |]. cbn [ex_tasks ex_edges ex_routines].
  split; [apply (getAll_put_each_Permutation task_id _ Ht) |].
  split; [apply (getAll_put_each_Permutation edge_id _ He) |].
  split; [apply (getAll_put_each_Permutation routine_id _ Hr) |]. done.
Qed.

(** X30.  An import can stop part-way and keep what it has written.  On a
    well-formed text whose [tasks] is not iterable (as for [{}]),
    [importData] throws a TypeError with the task store emptied and
    everything else as it was.  On a well-formed text with tasks and edges
    and without a [routines] array, it throws a TypeError with the task
    and edge stores replaced by the document's, the routine store emptied
    and the stored preferences as they were, whatever the document says.
    In both cases the mirror is not reloaded and no audit entry is
    written. *)
Theorem importData_partial_commit w :
  (forall es rs p,
      exists w',
        importData defaultPreferences
          (WellFormed {| kd_tasks := NotIterable; kd_edges := es; kd_routines := rs;
                         kd_preferences := p |}) w
        = Throw TypeError w'
        /\ db_tasks (db w') = ∅
        /\ db_edges (db w') = db_edges (db w)
        /\ db_routines (db w') = db_routines (db w)
        /\ db_preferences (db w') = db_preferences (db w)
        /\ db_audit (db w') = db_audit (db w)
        /\ app w' = app w)
  /\ (forall ts es p,
        exists w',
          importData defaultPreferences
            (WellFormed {| kd_tasks := Elements (map Keyed ts);
                           kd_edges := Elements (map Keyed es);
                           kd_routines := NotIterable; kd_preferences := p |}) w
          = Throw TypeError w'
          /\ db_tasks (db w') = put_each task_id ts ∅
          /\ db_edges (db w') = put_each edge_id es ∅
          /\ db_routines (db w') = ∅
          /\ db_preferences (db w') = db_preferences (db w)
          /\ db_audit (db w') = db_audit (db w)
          /\ app w' = app w).
Proof.
  split.
  - intros es rs p. eexists. rewrite importData_run.
    split; [reflexivity |]. by repeat split.
  - intros ts es p. eexists. rewrite importData_run.
    unfold import_attempt, field_stored. cbn [kd_tasks kd_edges kd_routines].
    rewrite !put_until_keyless_typed. cbn [fst snd].
    split; [reflexivity |]. by repeat split.
Qed.

Lemma appendAudits_fresh entries w :
  NoDup (map audit_id entries) ->
  (forall e, In e entries -> db_audit (db w) !! audit_id e = None) ->
  appendAudits entries w
  = Ok tt (with_db {| db_tasks := db_tasks (db w); db_edges := db_edges (db w);
                      db_routines := db_routines (db w);
                      db_audit := audits_added entries (db_audit (db w));
                      db_preferences := db_preferences (db w) |} w).
Proof.
  revert w. induction entries as [| e rest IH]; intros w Hnd Hfresh.
  - by destruct w as [h c r [] a].
  - simpl in Hnd. apply NoDup_cons in Hnd as [Hnotin Hnd].
    simpl. unfold bind at 1. unfold appendAudit, bind, get_db.
    rewrite (Hfresh e (or_introl eq_refl)). simpl. rewrite IH; [done | done |].
    intros e' Hin. simpl. rewrite lookup_insert_ne; [apply Hfresh; by right |].
    intros Heq. apply Hnotin. rewrite Heq. apply list_elem_of_In, in_map_iff.
    by exists e'.
Qed.

Lemma audits_added_lookup entries (store : gmap string AuditEntry) :
  NoDup (map audit_id entries) ->
  (forall e, In e entries -> store !! audit_id e = None) ->
  (forall e, In e entries -> audits_added entries store !! audit_id e = Some e)
  /\ store ⊆ audits_added entries store.
Proof.
  revert store. induction entries as [| e rest IH]; intros store Hnd Hfresh.
  - split; [by intros e [] | done].
  - simpl in Hnd. apply NoDup_cons in Hnd as [Hnotin Hnd].
    assert (Hrest : forall e', In e' rest ->
                      <[audit_id e := e]> store !! audit_id e' = None).
    { intros e' Hin. rewrite lookup_insert_ne; [apply Hfresh; by right |].
      intros Heq. apply Hnotin. rewrite Heq. apply list_elem_of_In, in_map_iff.
      by exists e'. }
    destruct (IH (<[audit_id e := e]> store) Hnd Hrest) as [Hin Hsub].
    split.
    + intros e' [<- | He']; [| by apply Hin].
      apply (lookup_weaken _ _ _ _ (lookup_insert_eq store (audit_id e) e) Hsub).
    + etrans; [| exact Hsub]. apply insert_subseteq. apply Hfresh. by left.
Qed.

Lemma seedIfEmpty_run w :
  seedIfEmpty defaultPreferences seedTasks seedEdges seedRoutines seedAuditLog w
  = if negb (Nat.eqb (size (db_tasks (db w))) 0) then Ok tt w
    else appendAudits seedAuditLog
           (with_db (seeded defaultPreferences seedTasks seedEdges seedRoutines (db w)) w).
Proof.
  unfold seedIfEmpty. unfold bind at 1. unfold isSeeded.
  destruct (negb (Nat.eqb (size (db_tasks (db w))) 0)); [reflexivity |].
  unfold bind at 1. by rewrite importKernel_typed.
Qed.

Lemma mount_run w :
  mount defaultPreferences seedTasks seedEdges seedRoutines seedAuditLog w
  = match seedIfEmpty defaultPreferences seedTasks seedEdges seedRoutines
            seedAuditLog w with
    | Ok _ w1 => loadAll defaultPreferences w1
    | Throw e w1 => Throw e w1
    end.
Proof. reflexivity. Qed.

(** X22.  Mounting on a store that holds a task does not write to the
    store: the effect succeeds, leaves every collection as it is, fills the
    mirror from the store and ends the loading state; the world it leaves
    is a state of a session. *)
Theorem mount_on_seeded_store w :
  db_tasks (db w) <> ∅ ->
  store_keyed (db w) ->
  exists w',
    mount defaultPreferences seedTasks seedEdges seedRoutines seedAuditLog w = Ok tt w'
    /\ db w' = db w
    /\ tasks (app w') = getAll (db_tasks (db w))
    /\ isLoading (app w') = false
    /\ reachable defaultPreferences w'.
Proof.
  intros Hne Hk. exists (with_app (loaded defaultPreferences (db w) (app w)) w).
  assert (Hseeded : negb (Nat.eqb (size (db_tasks (db w))) 0) = true).
  { apply negb_true_iff, Nat.eqb_neq. by rewrite map_size_empty_iff. }
  split; [| split; [done | split; [done | split; [done |]]]].
  - by rewrite mount_run, seedIfEmpty_run, Hseeded.
  - change (with_app (loaded defaultPreferences (db w) (app w)) w)
      with (world_of (loadAll defaultPreferences w)).
    by apply reach_mount.
Qed.

(** X23.  Mounting on a store without tasks seeds it: when the seed audit
    entries have distinct ids that the audit store does not hold, the
    effect succeeds; tasks, edges and routines are replaced by the seeds,
    the stored preferences by the default ones, the seed audit entries are
    added to the audit store, and the mirror shows the result. *)
Theorem mount_seeds_empty_store w :
  db_tasks (db w) = ∅ ->
  NoDup (map audit_id seedAuditLog) ->
  (forall e, In e seedAuditLog -> db_audit (db w) !! audit_id e = None) ->
  exists w',
    mount defaultPreferences seedTasks seedEdges seedRoutines seedAuditLog w = Ok tt w'
    /\ db_tasks (db w') = put_each task_id seedTasks ∅
    /\ db_edges (db w') = put_each edge_id seedEdges ∅
    /\ db_routines (db w') = put_each routine_id seedRoutines ∅
    /\ db_preferences (db w') !! user_prefs = Some defaultPreferences
    /\ (forall e, In e seedAuditLog -> db_audit (db w') !! audit_id e = Some e)
    /\ db_audit (db w) ⊆ db_audit (db w')
    /\ preferences (app w') = defaultPreferences
    /\ isLoading (app w') = false
    /\ reachable defaultPreferences w'.
Proof.
  intros Hempty Hnd Hfresh.
  set (d1 := seeded defaultPreferences seedTasks seedEdges seedRoutines (db w)).
  set (d2 := {| db_tasks := db_tasks d1; db_edges := db_edges d1;
                db_routines := db_routines d1;
                db_audit := audits_added seedAuditLog (db_audit (db w));
                db_preferences := db_preferences d1 |}).
  exists (with_app (loaded defaultPreferences d2 (app w)) (with_db d2 w)).
  assert (Hrun : mount defaultPreferences seedTasks seedEdges seedRoutines seedAuditLog w
                 = Ok tt (with_app (loaded defaultPreferences d2 (app w)) (with_db d2 w))).
  { rewrite mount_run, seedIfEmpty_run, Hempty, map_size_empty. cbn [Nat.eqb negb].
    fold d1. by rewrite (appendAudits_fresh seedAuditLog (with_db d1 w) Hnd Hfresh). }
  destruct (audits_added_lookup seedAuditLog (db_audit (db w)) Hnd Hfresh)
    as [Hin Hsub].
  split; [exact Hrun |]. split; [done |]. split; [done |]. split; [done |].
  split; [apply (lookup_insert_eq (db_preferences (db w))) |].
  split; [exact Hin |]. split; [exact Hsub |].
  split; [simpl; by rewrite (lookup_insert_eq (db_preferences (db w))) |].
  split; [done |].
  change (with_app (loaded defaultPreferences d2 (app w)) (with_db d2 w))
    with (world_of (loadAll defaultPreferences (with_db d2 w))).
  apply reach_mount. apply (imported_keyed _ (db w)).
Qed.

(** X24.  Seeding a second time fails half-way: on a store that has lost
    all its tasks but still holds the first seed audit entry, the effect
    throws a ConstraintError after it has replaced tasks, edges, routines
    and the stored preferences by the seeds, and before [LOAD_ALL]: the
    mirror stays as it was, still loading. *)
Theorem mount_reseed_throws w first rest previous :
  db_tasks (db w) = ∅ ->
  seedAuditLog = first :: rest ->
  db_audit (db w) !! audit_id first = Some previous ->
  exists w',
    mount defaultPreferences seedTasks seedEdges seedRoutines seedAuditLog w
    = Throw (ConstraintError (audit_id first)) w'
    /\ app w' = app w
    /\ db_tasks (db w') = put_each task_id seedTasks ∅
    /\ db_edges (db w') = put_each edge_id seedEdges ∅
    /\ db_routines (db w') = put_each routine_id seedRoutines ∅
    /\ db_preferences (db w') !! user_prefs = Some defaultPreferences
    /\ db_audit (db w') = db_audit (db w).
Proof.
  intros Hempty Hseed Htaken.
  exists (with_db (seeded defaultPreferences seedTasks seedEdges seedRoutines (db w)) w).
  split.
  - rewrite mount_run, seedIfEmpty_run, Hempty, map_size_empty, Hseed.
    cbn [Nat.eqb negb appendAudits]. unfold bind at 1. unfold appendAudit, bind, get_db.
    cbn [with_db db db_audit seeded imported]. by rewrite Htaken.
  - repeat split. apply (lookup_insert_eq (db_preferences (db w))).
Qed.

End MountFacts.

(** ** The callers: step toggles and the focus queue *)

Lemma toggle_steps_involutive stepId steps :
  toggle_steps stepId (toggle_steps stepId steps) = steps.
Proof.
  unfold toggle_steps. rewrite map_map.
  rewrite <- (map_id steps) at 2. apply map_ext. intros [i t c]. simpl.
  destruct (String.eqb i stepId) eqn:Hi; simpl; rewrite Hi; [| done].
  by rewrite negb_involutive.
Qed.

(** X25.  Toggling a step twice gives back the steps, and one toggle keeps
    the ids, the texts and the order of the steps and flips only the steps
    with the given id. *)
Theorem toggle_steps_twice stepId steps :
  toggle_steps stepId (toggle_steps stepId steps) = steps
  /\ map ms_id (toggle_steps stepId steps) = map ms_id steps
  /\ map ms_text (toggle_steps stepId steps) = map ms_text steps
  /\ map ms_completed (toggle_steps stepId steps)
     = map (fun s => if String.eqb (ms_id s) stepId
                     then negb (ms_completed s) else ms_completed s) steps.
Proof.
  split; [apply toggle_steps_involutive |].
  unfold toggle_steps. rewrite !map_map. repeat split.
  - apply map_ext. intros s. by destruct (String.eqb (ms_id s) stepId).
  - apply map_ext. intros s. by destruct (String.eqb (ms_id s) stepId).
  - apply map_ext. intros s. by destruct (String.eqb (ms_id s) stepId).
Qed.

Lemma updateTask_Ok t w w' :
  updateTask t w = Ok tt w' ->
  db_audit (db w) !! next_audit_id (tick 1 0 w) = None
  /\ w' = audit_appended
            (next_audit_entry task_edited ent_task (task_id t)
               [("title", JStr (title (task_data t)))]
               (task_stored (edited_task t w) 1 0 w))
            (task_stored (edited_task t w) 1 0 w).
Proof.
  rewrite updateTask_run, logAudit_run.
  change (db_audit (db (task_stored (edited_task t w) 1 0 w))) with (db_audit (db w)).
  change (next_audit_id (task_stored (edited_task t w) 1 0 w))
    with (next_audit_id (tick 1 0 w)).
  destruct (db_audit (db w) !! next_audit_id (tick 1 0 w)); [done |].
  intros H. apply (f_equal world_of) in H. cbn [world_of] in H. by subst w'.
Qed.

(** X26.  Two [toggleStep] calls on the same step, the second on the task
    the first one stored: when both succeed, the stored task has the fields
    of the task the first call started from, and the audit store has two
    more entries. *)
Theorem toggleStep_twice_restores_fields task stepId w w1 t1 w2 :
  toggleStep task stepId w = Ok tt w1 ->
  db_tasks (db w1) !! task_id task = Some t1 ->
  toggleStep t1 stepId w1 = Ok tt w2 ->
  exists t2,
    db_tasks (db w2) !! task_id task = Some t2
    /\ task_data t2 = task_data task
    /\ size (db_audit (db w2)) = S (S (size (db_audit (db w)))).
Proof.
  intros H1 Hl H2. unfold toggleStep in H1, H2.
  apply updateTask_Ok in H1 as [Hf1 ->].
  cbn [audit_appended task_stored db db_tasks] in Hl.
  rewrite (lookup_insert_eq (db_tasks (db w))) in Hl. injection Hl as <-.
  apply updateTask_Ok in H2 as [Hf2 ->].
  cbn [audit_appended task_stored db db_audit] in Hf2.
  eexists. split; [| split].
  - cbn [audit_appended task_stored db db_tasks]. apply lookup_insert_eq.
  - change (set_micro_steps
              (toggle_steps stepId
                 (toggle_steps stepId (micro_steps (task_data task))))
              (task_data task) = task_data task).
    rewrite (toggle_steps_involutive stepId (micro_steps (task_data task))).
    by destruct (task_data task).
  - cbn [audit_appended task_stored db db_audit].
    rewrite map_size_insert_None by exact Hf2.
    by rewrite map_size_insert_None by exact Hf1.
Qed.

(** The rank the comparator orders by. *)
Lemma focus_compare_rank a b :
  (focus_compare a b <= 0)%Z
  <-> (3 * importanceOrder (importance (task_data a)) + energyOrder (energy (task_data a))
       <= 3 * importanceOrder (importance (task_data b))
          + energyOrder (energy (task_data b)))%Z.
Proof.
  unfold focus_compare.
  destruct (importance (task_data a)), (importance (task_data b)),
    (energy (task_data a)), (energy (task_data b)); simpl; lia.
Qed.

Lemma sort_insert_In {A} (compare : A -> A -> Z) x y (l : list A) :
  In y (sort_insert compare x l) <-> y = x \/ In y l.
Proof.
  induction l as [| z l IH]; simpl; [intuition |].
  destruct (compare x z <=? 0)%Z; simpl; [intuition |].
  rewrite IH. intuition.
Qed.

Lemma sort_insert_Permutation {A} (compare : A -> A -> Z) x (l : list A) :
  Permutation (sort_insert compare x l) (x :: l).
Proof.
  induction l as [| z l IH]; simpl; [done |].
  destruct (compare x z <=? 0)%Z; [done |].
  rewrite IH. apply perm_swap.
Qed.

Lemma Array_sort_Permutation {A} (compare : A -> A -> Z) (l : list A) :
  Permutation (Array_sort compare l) l.
Proof.
  induction l as [| x l IH]; simpl; [done |].
  by rewrite sort_insert_Permutation, IH.
Qed.

Lemma focus_sort_insert_sorted x l :
  StronglySorted (fun a b => (focus_compare a b <= 0)%Z) l ->
  StronglySorted (fun a b => (focus_compare a b <= 0)%Z) (sort_insert focus_compare x l).
Proof.
  induction 1 as [| z l Hs IH Hall]; simpl.
  - repeat constructor.
  - destruct (focus_compare x z <=? 0)%Z eqn:Hc.
    + apply Z.leb_le in Hc. constructor; [by constructor |].
      constructor; [done |].
      apply Forall_forall. intros y Hy. rewrite Forall_forall in Hall.
      specialize (Hall y Hy). rewrite focus_compare_rank in *. lia.
    + apply Z.leb_gt in Hc. constructor; [done |].
      apply Forall_forall. intros y Hy. apply list_elem_of_In, sort_insert_In in Hy.
      destruct Hy as [-> | Hy].
      * rewrite focus_compare_rank. 
        assert (~ (focus_compare x z <= 0)%Z) as Hn by lia.
        rewrite focus_compare_rank in Hn. lia.
      * rewrite Forall_forall in Hall. apply Hall. by apply list_elem_of_In.
Qed.

Lemma focusQueue_Permutation today ts :
  Permutation (focusQueue today ts)
              (List.filter (fun t => is_open t && in_focus today t) ts).
Proof.
  unfold focusQueue. rewrite Array_sort_Permutation.
  induction ts as [| t ts IH]; simpl; [done |].
  destruct (is_open t); simpl; [| done].
  destruct (in_focus today t); simpl; [by rewrite IH | done].
Qed.

(** X27.  The focus queue holds exactly the open tasks (neither completed
    nor deferred) that are scheduled for today or are important and
    without a date, each as often as in the task list, ordered by
    importance and then by energy: every task of the queue compares less
    than or equal to every task after it. *)
Theorem focusQueue_sorted_open_tasks today ts :
  Permutation (focusQueue today ts)
              (List.filter (fun t => is_open t && in_focus today t) ts)
  /\ StronglySorted (fun a b => (focus_compare a b <= 0)%Z) (focusQueue today ts)
  /\ (forall t, In t (focusQueue today ts) ->
                status (task_data t) <> completed
                /\ status (task_data t) <> deferred).
Proof.
  pose proof (focusQueue_Permutation today ts) as Hperm.
  split; [exact Hperm |]. split.
  - unfold focusQueue.
    induction (List.filter (in_focus today) (List.filter is_open ts)) as [| x l IH];
      simpl; [constructor | by apply focus_sort_insert_sorted].
  - intros t Hin. apply (Permutation_in _ Hperm), filter_In in Hin as [_ Hf].
    apply andb_true_iff in Hf as [Hopen _]. unfold is_open in Hopen.
    by destruct (status (task_data t)).
Qed.

Lemma In_focusQueue today ts t :
  In t (focusQueue today ts) <-> In t ts /\ is_open t = true /\ in_focus today t = true.
Proof.
  pose proof (focusQueue_Permutation today ts) as Hperm. split.
  - intros Hin. apply (Permutation_in _ Hperm), filter_In in Hin as [Hin Hf].
    apply andb_true_iff in Hf. tauto.
  - intros (Hin & Ho & Hf). apply (Permutation_in _ (Permutation_sym Hperm)).
    apply filter_In. by rewrite Ho, Hf.
Qed.

(** Replacing the tasks of an id by a task that is not open takes the id
    off the queue and leaves the rest of the queue. *)
Lemma focusQueue_after_closing today ts t' t :
  is_open t' = false ->
  In t (focusQueue today
          (upsert (fun x => String.eqb (task_id x) (task_id t')) t' ts))
  <-> In t (focusQueue today ts) /\ task_id t <> task_id t'.
Proof.
  intros Hclosed. rewrite !In_focusQueue. split.
  - intros (Ht & Ho & Hf). apply In_upsert_inv in Ht as [-> | [Ht Hne]].
    + congruence.
    + by apply String.eqb_neq in Hne.
  - intros ((Ht & Ho & Hf) & Hne). split; [| done].
    apply In_upsert_other; [done |]. by apply String.eqb_neq.
Qed.

Lemma focusQueue_head_found today w head rest :
  focusQueue today (tasks (app w)) = head :: rest ->
  exists task, find_task (task_id head) (app w) = Some task
               /\ task_id task = task_id head.
Proof.
  intros Hq.
  assert (Hhead : In head (tasks (app w))).
  { apply (In_focusQueue today). rewrite Hq. by left. }
  destruct (find_task (task_id head) (app w)) as [task |] eqn:Hfind.
  - exists task. split; [done |]. by apply find_task_id in Hfind as [_ ?].
  - unfold find_task in Hfind. rewrite find_none_iff in Hfind.
    specialize (Hfind head Hhead). by rewrite String.eqb_refl in Hfind.
Qed.

(** X28.  Completing the current focus task takes it off the queue: when
    the queue has a head and [handleComplete] succeeds, the head's id is
    stored as completed, no task with that id is in the new queue, and the
    new queue holds the other tasks of the old queue and nothing else. *)
Theorem handleComplete_advances_queue today w head rest w' :
  focusQueue today (tasks (app w)) = head :: rest ->
  handleComplete today w = Ok tt w' ->
  (exists t', db_tasks (db w') !! task_id head = Some t'
              /\ status (task_data t') = completed)
  /\ (forall t, In t (focusQueue today (tasks (app w')))
                <-> In t (focusQueue today (tasks (app w)))
                    /\ task_id t <> task_id head).
Proof.
  intros Hq Hrun. unfold handleComplete, bind, get_state in Hrun. rewrite Hq in Hrun.
  destruct (focusQueue_head_found today w head rest Hq) as (task & Hfind & Hid).
  rewrite completeTask_run, Hfind, logAudit_run in Hrun.
  destruct (db_audit _ !! _); [done |].
  apply (f_equal world_of) in Hrun. cbn [world_of] in Hrun. subst w'.
  set (t' := completed_task task w).
  assert (Htid : task_id t' = task_id head) by exact Hid.
  split.
  - exists t'. split; [| done]. simpl. fold t'. rewrite <- Htid.
    apply lookup_insert_eq.
  - intros t. rewrite <- Htid.
    apply (focusQueue_after_closing today (tasks (app w)) t' t). reflexivity.
Qed.

(** X29.  Skipping the current focus task defers it and takes it off the
    queue in the same way: when the queue has a head and [handleSkip]
    succeeds, the head's id is stored as deferred and the new queue is the
    old one without that id. *)
Theorem handleSkip_advances_queue today w head rest w' :
  focusQueue today (tasks (app w)) = head :: rest ->
  handleSkip today w = Ok tt w' ->
  (exists t', db_tasks (db w') !! task_id head = Some t'
              /\ status (task_data t') = deferred)
  /\ (forall t, In t (focusQueue today (tasks (app w')))
                <-> In t (focusQueue today (tasks (app w)))
                    /\ task_id t <> task_id head).
Proof.
  intros Hq Hrun. unfold handleSkip, bind, get_state in Hrun. rewrite Hq in Hrun.
  destruct (focusQueue_head_found today w head rest Hq) as (task & Hfind & Hid).
  rewrite deferTask_run, Hfind, logAudit_run in Hrun.
  destruct (db_audit _ !! _); [done |].
  apply (f_equal world_of) in Hrun. cbn [world_of] in Hrun. subst w'.
  set (t' := deferred_task task w).
  assert (Htid : task_id t' = task_id head) by exact Hid.
  split.
  - exists t'. split; [| done]. simpl. fold t'. rewrite <- Htid.
    apply lookup_insert_eq.
  - intros t. rewrite <- Htid.
    apply (focusQueue_after_closing today (tasks (app w)) t' t). reflexivity.
Qed.

(** ** The further properties on sample data *)

Lemma returned_unit (o : Outcome unit) : returned o = true -> o = Ok tt (world_of o).
Proof. destruct o as [[] w | e w]; [done | discriminate]. Qed.

Lemma updateTask_stores t w :
  returned (updateTask t w) = true ->
  db_tasks (db (world_of (updateTask t w))) !! task_id t = Some (edited_task t w).
Proof.
  rewrite updateTask_run, logAudit_run. destruct (db_audit _ !! _); [discriminate |].
  intros _. apply (lookup_insert_eq (db_tasks (db w))).
Qed.

Lemma logAudit_returns action entityType entityId d w :
  db_audit (db w) !! next_audit_id w = None ->
  returned (logAudit action entityType entityId d w) = true.
Proof. intros H. by rewrite logAudit_run, H. Qed.

Lemma updateTask_returns t w :
  db_audit (db w) !! next_audit_id (tick 1 0 w) = None ->
  returned (updateTask t w) = true.
Proof. intros H. by rewrite (updateTask_fresh t w H). Qed.

Lemma completeTask_returns w taskId t :
  find_task taskId (app w) = Some t ->
  db_audit (db w) !! next_audit_id (tick 2 0 w) = None ->
  returned (completeTask taskId w) = true.
Proof.
  intros Hf H. rewrite completeTask_run, Hf. by apply logAudit_returns.
Qed.

Lemma deferTask_returns w taskId t :
  find_task taskId (app w) = Some t ->
  db_audit (db w) !! next_audit_id (tick 1 0 w) = None ->
  returned (deferTask taskId w) = true.
Proof.
  intros Hf H. rewrite deferTask_run, Hf. by apply logAudit_returns.
Qed.

Lemma addEdge_returns source target type w :
  db_audit (db w) !! next_audit_id (tick 1 1 w) = None ->
  returned (addEdge source target type w) = true.
Proof. intros H. rewrite addEdge_run. by apply logAudit_returns. Qed.

Lemma removeEdge_returns edgeId w :
  db_audit (db w) !! next_audit_id w = None ->
  returned (removeEdge edgeId w) = true.
Proof. intros H. rewrite removeEdge_run. by apply logAudit_returns. Qed.

Lemma importData_returns defaultPreferences doc w :
  db_audit (db w) !! next_audit_id w = None ->
  returned (importData defaultPreferences (JSON_stringify doc) w) = true.
Proof. intros H. rewrite importData_run. by apply logAudit_returns. Qed.

Lemma world_ab_exact : mirror_exact prefs0 world_ab.
Proof. exact (exact_loaded prefs0 world_unmounted db_ab_keyed). Defined.

Lemma world_ab_edge_ids x : In x (edges (app world_ab)) -> edge_id x = "edge_ab".
Proof.
  assert (H : edges (app world_ab) = [edgeAB]) by (vm_compute; reflexivity).
  rewrite H. by intros [<- | []].
Defined.

Lemma reducer_keeps_task_ids_distinct_witness :
  NoDup (map task_id (tasks (app world_ab)))
  /\ (forall payload, UPSERT_TASK taskC <> LOAD_ALL payload)
  /\ NoDup (map task_id (tasks (reducer (app world_ab) (UPSERT_TASK taskC)))).
Proof.
  assert (H1 : NoDup (map task_id (tasks (app world_ab)))).
  { apply NoDup_ListNoDup. vm_compute.
    repeat constructor; simpl; intuition discriminate. }
  assert (H2 : forall payload, UPSERT_TASK taskC <> LOAD_ALL payload)
    by (intros payload; discriminate).
  split; [exact H1 |]. split; [exact H2 |].
  exact (reducer_keeps_task_ids_distinct (app world_ab) (UPSERT_TASK taskC) H1 H2).
Defined.

Lemma editor_shown_while_editing_witness :
  dispatched prefs0 (reducer (initialState prefs0) (SET_EDITING (Some "task_a")))
  /\ editingTaskId (reducer (initialState prefs0) (SET_EDITING (Some "task_a"))) <> None
  /\ showTaskEditor (reducer (initialState prefs0) (SET_EDITING (Some "task_a"))) = true.
Proof.
  assert (H1 : dispatched prefs0
                 (reducer (initialState prefs0) (SET_EDITING (Some "task_a"))))
    by (apply dispatched_step, dispatched_init).
  assert (H2 : editingTaskId (reducer (initialState prefs0) (SET_EDITING (Some "task_a")))
               <> None) by discriminate.
  split; [exact H1 |]. split; [exact H2 |].
  exact (editor_shown_while_editing prefs0 _ H1 H2).
Defined.

Lemma reducer_audit_append_only_witness :
  (forall payload, ADD_AUDIT entry0 <> LOAD_ALL payload)
  /\ auditLog (app world_ab) `prefix_of` auditLog (reducer (app world_ab) (ADD_AUDIT entry0))
  /\ ((forall entry, ADD_AUDIT entry0 <> ADD_AUDIT entry) ->
      auditLog (reducer (app world_ab) (ADD_AUDIT entry0)) = auditLog (app world_ab)).
Proof.
  assert (H : forall payload, ADD_AUDIT entry0 <> LOAD_ALL payload)
    by (intros payload; discriminate).
  split; [exact H |].
  exact (reducer_audit_append_only (app world_ab) (ADD_AUDIT entry0) H).
Defined.

Lemma mirror_exact_kept_witness :
  mirror_exact prefs0 world_ab
  /\ import_cut_short prefs0 (OpImportAll text_ab) world_ab = false
  /\ mirror_exact prefs0 (world_of (run_op prefs0 (OpImportAll text_ab) world_ab)).
Proof.
  assert (H : import_cut_short prefs0 (OpImportAll text_ab) world_ab = false)
    by (vm_compute; reflexivity).
  split; [exact world_ab_exact |]. split; [exact H |].
  exact (mirror_exact_kept prefs0 (OpImportAll text_ab) world_ab world_ab_exact H).
Defined.

(** The import that stops part-way does break it: the mirror goes on
    listing the edge from A to B, which the store has lost. *)
Lemma import_cut_short_breaks_exactness :
  import_cut_short prefs0 (OpImportAll text_no_routines) world_ab = true
  /\ world_of (run_op prefs0 (OpImportAll text_no_routines) world_ab) = world_drift
  /\ ~ mirror_exact prefs0 world_drift.
Proof.
  split; [vm_compute; reflexivity |]. split; [reflexivity |].
  intros (_ & _ & _ & H4 & _).
  assert (Hin : In edgeAB (edges (app world_drift))) by (vm_compute; by left).
  assert (Hnone : db_edges (db world_drift) !! "edge_ab" = None)
    by (vm_compute; reflexivity).
  pose proof (proj2 (H4 "edge_ab" edgeAB) (conj eq_refl Hin)) as Hl.
  rewrite Hnone in Hl. discriminate Hl.
Qed.

Lemma deferTask_changes_status_only_witness :
  find_task "task_a" (app world_ab) = Some taskA
  /\ deferTask "task_a" world_ab = Ok tt (world_of (deferTask "task_a" world_ab))
  /\ exists t',
       db_tasks (db (world_of (deferTask "task_a" world_ab))) !! "task_a" = Some t'
       /\ In t' (tasks (app (world_of (deferTask "task_a" world_ab))))
       /\ task_data t' = set_status deferred (task_data taskA)
       /\ micro_steps (task_data t') = micro_steps (task_data taskA)
       /\ completed_at (task_data t') = completed_at (task_data taskA)
       /\ lds_created (task_lds t') = lds_created (task_lds taskA)
       /\ lds_updated (task_lds t') = host_iso (host world_ab) (clock world_ab)
       /\ db_edges (db (world_of (deferTask "task_a" world_ab))) = db_edges (db world_ab)
       /\ db_routines (db (world_of (deferTask "task_a" world_ab)))
          = db_routines (db world_ab).
Proof.
  assert (H1 : find_task "task_a" (app world_ab) = Some taskA)
    by (vm_compute; reflexivity).
  assert (H2 : deferTask "task_a" world_ab
               = Ok tt (world_of (deferTask "task_a" world_ab)))
    by (apply returned_unit, (deferTask_returns world_ab "task_a" taskA H1);
        vm_compute; reflexivity).
  split; [exact H1 |]. split; [exact H2 |].
  exact (deferTask_changes_status_only world_ab "task_a" taskA _ H1 H2).
Defined.

Lemma complete_defer_unknown_id_noop_witness :
  find_task "task_b" (app world_drift_b) = None
  /\ db_tasks (db world_drift_b) !! "task_b" = Some taskB
  /\ completeTask "task_b" world_drift_b = Ok tt world_drift_b
  /\ deferTask "task_b" world_drift_b = Ok tt world_drift_b.
Proof.
  assert (H : find_task "task_b" (app world_drift_b) = None)
    by (vm_compute; reflexivity).
  split; [exact H |]. split; [vm_compute; reflexivity |].
  exact (complete_defer_unknown_id_noop world_drift_b "task_b" H).
Defined.

Lemma createTask_audit_failure_keeps_task_witness :
  db_audit (db world_clash) !! next_audit_id (tick 2 1 world_clash) = Some entry0
  /\ exists w',
       createTask draft_milk world_clash
       = Throw (ConstraintError (next_audit_id (tick 2 1 world_clash))) w'
       /\ db_tasks (db w') !! next_id "task" world_clash
          = Some (new_task draft_milk world_clash)
       /\ In (new_task draft_milk world_clash) (tasks (app w'))
       /\ db_audit (db w') = db_audit (db world_clash)
       /\ auditLog (app w') = auditLog (app world_clash).
Proof.
  assert (H : db_audit (db world_clash) !! next_audit_id (tick 2 1 world_clash)
              = Some entry0) by (vm_compute; reflexivity).
  split; [exact H |].
  exact (createTask_audit_failure_keeps_task draft_milk world_clash entry0 H).
Defined.

Lemma removeTask_audit_failure_still_deletes_witness :
  db_audit (db world_clash) !! next_audit_id world_clash = Some entry0
  /\ exists w',
       removeTask "task_a" world_clash
       = Throw (ConstraintError (next_audit_id world_clash)) w'
       /\ db_tasks (db w') !! "task_a" = None
       /\ (forall e, In e (edges (app world_clash)) ->
                     edge_source e = "task_a" \/ edge_target e = "task_a" ->
                     db_edges (db w') !! edge_id e = None)
       /\ (edges_mirrored world_clash ->
           forall k e, db_edges (db w') !! k = Some e ->
                       edge_source e <> "task_a" /\ edge_target e <> "task_a")
       /\ tasks (app w')
          = List.filter (fun t => negb (String.eqb (task_id t) "task_a"))
                        (tasks (app world_clash))
       /\ db_audit (db w') = db_audit (db world_clash)
       /\ auditLog (app w') = auditLog (app world_clash).
Proof.
  assert (H : db_audit (db world_clash) !! next_audit_id world_clash = Some entry0)
    by (vm_compute; reflexivity).
  split; [exact H |].
  exact (removeTask_audit_failure_still_deletes world_clash "task_a" entry0 H).
Defined.

Lemma addEdge_accepts_any_endpoints_witness :
  db_audit (db world_ab) !! next_audit_id (tick 1 1 world_ab) = None
  /\ exists w',
       addEdge "task_ghost" "task_ghost" depends_on world_ab = Ok tt w'
       /\ db_edges (db w') !! next_id "edge" world_ab
          = Some {| edge_id := next_id "edge" world_ab; edge_source := "task_ghost";
                    edge_target := "task_ghost"; edge_type := depends_on |}
       /\ (forall k, k <> next_id "edge" world_ab ->
                     db_edges (db w') !! k = db_edges (db world_ab) !! k)
       /\ db_tasks (db w') = db_tasks (db world_ab).
Proof.
  assert (H : db_audit (db world_ab) !! next_audit_id (tick 1 1 world_ab) = None)
    by (vm_compute; reflexivity).
  split; [exact H |].
  exact (addEdge_accepts_any_endpoints "task_ghost" "task_ghost" depends_on world_ab H).
Defined.

Lemma removeEdge_undoes_addEdge_witness :
  db_edges (db world_ab) !! next_id "edge" world_ab = None
  /\ (forall x, In x (edges (app world_ab)) -> edge_id x <> next_id "edge" world_ab)
  /\ addEdge "task_b" "task_a" related_to world_ab
     = Ok tt (world_of (addEdge "task_b" "task_a" related_to world_ab))
  /\ removeEdge (next_id "edge" world_ab)
       (world_of (addEdge "task_b" "task_a" related_to world_ab))
     = Ok tt (world_of (removeEdge (next_id "edge" world_ab)
                          (world_of (addEdge "task_b" "task_a" related_to world_ab))))
  /\ db_edges (db (world_of (removeEdge (next_id "edge" world_ab)
                               (world_of (addEdge "task_b" "task_a" related_to
                                            world_ab)))))
     = db_edges (db world_ab)
  /\ edges (app (world_of (removeEdge (next_id "edge" world_ab)
                             (world_of (addEdge "task_b" "task_a" related_to
                                          world_ab)))))
     = edges (app world_ab)
  /\ size (db_audit (db (world_of (removeEdge (next_id "edge" world_ab)
                                     (world_of (addEdge "task_b" "task_a" related_to
                                                  world_ab))))))
     = S (S (size (db_audit (db world_ab)))).
Proof.
  assert (H1 : db_edges (db world_ab) !! next_id "edge" world_ab = None)
    by (vm_compute; reflexivity).
  assert (H0 : forall x, In x (edges (app world_ab)) ->
                         edge_id x <> next_id "edge" world_ab).
  { intros x Hin. rewrite (world_ab_edge_ids x Hin). vm_compute. discriminate. }
  assert (H2 : addEdge "task_b" "task_a" related_to world_ab
               = Ok tt (world_of (addEdge "task_b" "task_a" related_to world_ab)))
    by (apply returned_unit, addEdge_returns; vm_compute; reflexivity).
  assert (H3 : removeEdge (next_id "edge" world_ab)
                 (world_of (addEdge "task_b" "task_a" related_to world_ab))
               = Ok tt (world_of (removeEdge (next_id "edge" world_ab)
                                    (world_of (addEdge "task_b" "task_a" related_to
                                                 world_ab)))))
    by (apply returned_unit, removeEdge_returns; vm_compute; reflexivity).
  split; [exact H1 |]. split; [exact H0 |]. split; [exact H2 |].
  split; [exact H3 |].
  exact (removeEdge_undoes_addEdge "task_b" "task_a" related_to world_ab _ _
           H1 H0 H2 H3).
Defined.

Lemma removeEdge_unknown_id_witness :
  db_edges (db world_ab) !! "edge_nowhere" = None
  /\ (forall x, In x (edges (app world_ab)) -> edge_id x <> "edge_nowhere")
  /\ db_audit (db world_ab) !! next_audit_id world_ab = None
  /\ exists w' entry,
       removeEdge "edge_nowhere" world_ab = Ok tt w'
       /\ db_edges (db w') = db_edges (db world_ab)
       /\ edges (app w') = edges (app world_ab)
       /\ audit_action entry = edge_deleted
       /\ entity_id entry = "edge_nowhere"
       /\ db_audit (db w') = <[audit_id entry := entry]> (db_audit (db world_ab)).
Proof.
  assert (H1 : db_edges (db world_ab) !! "edge_nowhere" = None)
    by (vm_compute; reflexivity).
  assert (H0 : forall x, In x (edges (app world_ab)) -> edge_id x <> "edge_nowhere").
  { intros x Hin. rewrite (world_ab_edge_ids x Hin). discriminate. }
  assert (H2 : db_audit (db world_ab) !! next_audit_id world_ab = None)
    by (vm_compute; reflexivity).
  split; [exact H1 |]. split; [exact H0 |]. split; [exact H2 |].
  exact (removeEdge_unknown_id world_ab "edge_nowhere" H1 H0 H2).
Defined.

Lemma import_then_export_same_records_witness :
  NoDup (map task_id (ex_tasks doc_ab_export))
  /\ NoDup (map edge_id (ex_edges doc_ab_export))
  /\ NoDup (map routine_id (ex_routines doc_ab_export))
  /\ importData prefs0 (JSON_stringify doc_ab_export) world_blank
     = Ok tt (world_of (importData prefs0 (JSON_stringify doc_ab_export) world_blank))
  /\ exists data,
       exportKernel (world_of (importData prefs0 (JSON_stringify doc_ab_export)
                                 world_blank))
       = Ok data (world_of (importData prefs0 (JSON_stringify doc_ab_export)
                              world_blank))
       /\ Permutation (ex_tasks data) (ex_tasks doc_ab_export)
       /\ Permutation (ex_edges data) (ex_edges doc_ab_export)
       /\ Permutation (ex_routines data) (ex_routines doc_ab_export)
       /\ tasks (app (world_of (importData prefs0 (JSON_stringify doc_ab_export)
                                  world_blank)))
          = ex_tasks data
       /\ edges (app (world_of (importData prefs0 (JSON_stringify doc_ab_export)
                                  world_blank)))
          = ex_edges data
       /\ routines (app (world_of (importData prefs0 (JSON_stringify doc_ab_export)
                                     world_blank)))
          = ex_routines data.
Proof.
  assert (H1 : NoDup (map task_id (ex_tasks doc_ab_export))).
  { apply NoDup_ListNoDup. repeat constructor; simpl; intuition discriminate. }
  assert (H2 : NoDup (map edge_id (ex_edges doc_ab_export))).
  { apply NoDup_ListNoDup. repeat constructor; simpl; intuition discriminate. }
  assert (H3 : NoDup (map routine_id (ex_routines doc_ab_export)))
    by (apply NoDup_ListNoDup; constructor).
  assert (H4 : importData prefs0 (JSON_stringify doc_ab_export) world_blank
               = Ok tt (world_of (importData prefs0 (JSON_stringify doc_ab_export)
                                    world_blank)))
    by (apply returned_unit, importData_returns; vm_compute; reflexivity).
  split; [exact H1 |]. split; [exact H2 |]. split; [exact H3 |]. split; [exact H4 |].
  exact (import_then_export_same_records prefs0 doc_ab_export world_blank _
           H1 H2 H3 H4).
Defined.

Lemma mount_on_seeded_store_witness :
  db_tasks (db world_unmounted) <> ∅
  /\ store_keyed (db world_unmounted)
  /\ exists w',
       mount prefs0 [taskC] [] [] [entry0] world_unmounted = Ok tt w'
       /\ db w' = db world_unmounted
       /\ tasks (app w') = getAll (db_tasks (db world_unmounted))
       /\ isLoading (app w') = false
       /\ reachable prefs0 w'.
Proof.
  assert (H1 : db_tasks (db world_unmounted) <> ∅).
  { intros Heq. apply (f_equal (fun m => m !! "task_a")) in Heq.
    vm_compute in Heq. discriminate Heq. }
  split; [exact H1 |]. split; [exact db_ab_keyed |].
  exact (mount_on_seeded_store prefs0 [taskC] [] [] [entry0] world_unmounted
           H1 db_ab_keyed).
Defined.

Lemma mount_seeds_empty_store_witness :
  db_tasks (db world_blank) = ∅
  /\ NoDup (map audit_id [entry0])
  /\ (forall e, In e [entry0] -> db_audit (db world_blank) !! audit_id e = None)
  /\ exists w',
       mount prefs0 [taskC] [] [] [entry0] world_blank = Ok tt w'
       /\ db_tasks (db w') = put_each task_id [taskC] ∅
       /\ db_edges (db w') = put_each edge_id [] ∅
       /\ db_routines (db w') = put_each routine_id [] ∅
       /\ db_preferences (db w') !! user_prefs = Some prefs0
       /\ (forall e, In e [entry0] -> db_audit (db w') !! audit_id e = Some e)
       /\ db_audit (db world_blank) ⊆ db_audit (db w')
       /\ preferences (app w') = prefs0
       /\ isLoading (app w') = false
       /\ reachable prefs0 w'.
Proof.
  assert (H1 : db_tasks (db world_blank) = ∅) by reflexivity.
  assert (H2 : NoDup (map audit_id [entry0])).
  { apply NoDup_ListNoDup. repeat constructor; simpl; intuition. }
  assert (H3 : forall e, In e [entry0] ->
                         db_audit (db world_blank) !! audit_id e = None).
  { intros e _. apply (lookup_empty (M := gmap string)). }
  split; [exact H1 |]. split; [exact H2 |]. split; [exact H3 |].
  exact (mount_seeds_empty_store prefs0 [taskC] [] [] [entry0] world_blank H1 H2 H3).
Defined.

Lemma mount_reseed_throws_witness :
  db_tasks (db world_emptied) = ∅
  /\ [entry0] = entry0 :: []
  /\ db_audit (db world_emptied) !! audit_id entry0 = Some entry0
  /\ exists w',
       mount prefs0 [taskC] [] [] [entry0] world_emptied
       = Throw (ConstraintError (audit_id entry0)) w'
       /\ app w' = app world_emptied
       /\ db_tasks (db w') = put_each task_id [taskC] ∅
       /\ db_edges (db w') = put_each edge_id [] ∅
       /\ db_routines (db w') = put_each routine_id [] ∅
       /\ db_preferences (db w') !! user_prefs = Some prefs0
       /\ db_audit (db w') = db_audit (db world_emptied).
Proof.
  assert (H1 : db_tasks (db world_emptied) = ∅) by reflexivity.
  assert (H2 : [entry0] = entry0 :: []) by reflexivity.
  assert (H3 : db_audit (db world_emptied) !! audit_id entry0 = Some entry0)
    by (apply (lookup_insert_eq (M := gmap string))).
  split; [exact H1 |]. split; [exact H2 |]. split; [exact H3 |].
  exact (mount_reseed_throws prefs0 [taskC] [] [] [entry0] world_emptied entry0 []
           entry0 H1 H2 H3).
Defined.

Lemma updateTask_then_fresh t w :
  db_audit (db w) !! next_audit_id (tick 1 0 w) = None ->
  db_audit (db w) !! next_audit_id (tick 4 1 w) = None ->
  next_audit_id (tick 1 0 w) <> next_audit_id (tick 4 1 w) ->
  db_audit (db (world_of (updateTask t w)))
    !! next_audit_id (tick 1 0 (world_of (updateTask t w))) = None.
Proof.
  intros H1 H2 Hne. rewrite (updateTask_fresh t w H1).
  cbn [world_of].
  change (next_audit_id (tick 1 0 (audit_appended _ _)))
    with (next_audit_id (tick 4 1 w)).
  cbn [audit_appended db db_audit task_stored].
  rewrite lookup_insert_ne; [exact H2 | exact Hne].
Qed.

Lemma handleComplete_returns today w head rest :
  focusQueue today (tasks (app w)) = head :: rest ->
  db_audit (db w) !! next_audit_id (tick 2 0 w) = None ->
  returned (handleComplete today w) = true.
Proof.
  intros Hq Hfresh. unfold handleComplete, bind, get_state. rewrite Hq.
  destruct (focusQueue_head_found today w head rest Hq) as (task & Hfind & _).
  by apply (completeTask_returns w (task_id head) task).
Qed.

Lemma handleSkip_returns today w head rest :
  focusQueue today (tasks (app w)) = head :: rest ->
  db_audit (db w) !! next_audit_id (tick 1 0 w) = None ->
  returned (handleSkip today w) = true.
Proof.
  intros Hq Hfresh. unfold handleSkip, bind, get_state. rewrite Hq.
  destruct (focusQueue_head_found today w head rest Hq) as (task & Hfind & _).
  by apply (deferTask_returns w (task_id head) task).
Qed.

Lemma toggleStep_twice_restores_fields_witness :
  toggleStep taskA "ms_2" world_ab = Ok tt world_toggled1
  /\ db_tasks (db world_toggled1) !! task_id taskA = Some task_toggled1
  /\ toggleStep task_toggled1 "ms_2" world_toggled1 = Ok tt world_toggled2
  /\ exists t2,
       db_tasks (db world_toggled2) !! task_id taskA = Some t2
       /\ task_data t2 = task_data taskA
       /\ size (db_audit (db world_toggled2)) = S (S (size (db_audit (db world_ab)))).
Proof.
  assert (Hf1 : db_audit (db world_ab) !! next_audit_id (tick 1 0 world_ab) = None)
    by (vm_compute; reflexivity).
  assert (Hf2 : db_audit (db world_ab) !! next_audit_id (tick 4 1 world_ab) = None)
    by (vm_compute; reflexivity).
  assert (Hne : next_audit_id (tick 1 0 world_ab) <> next_audit_id (tick 4 1 world_ab))
    by (vm_compute; discriminate).
  assert (H1 : toggleStep taskA "ms_2" world_ab = Ok tt world_toggled1)
    by exact (returned_unit _ (updateTask_returns _ world_ab Hf1)).
  assert (H2 : db_tasks (db world_toggled1) !! task_id taskA = Some task_toggled1)
    by exact (updateTask_stores
                {| task_lds := task_lds taskA;
                   task_data :=
                     set_micro_steps
                       (toggle_steps "ms_2" (micro_steps (task_data taskA)))
                       (task_data taskA) |} world_ab
                (updateTask_returns _ world_ab Hf1)).
  assert (H3 : toggleStep task_toggled1 "ms_2" world_toggled1 = Ok tt world_toggled2)
    by exact (returned_unit _
                (updateTask_returns _ world_toggled1
                   (updateTask_then_fresh
                      {| task_lds := task_lds taskA;
                         task_data :=
                           set_micro_steps
                             (toggle_steps "ms_2" (micro_steps (task_data taskA)))
                             (task_data taskA) |} world_ab Hf1 Hf2 Hne))).
  split; [exact H1 |]. split; [exact H2 |]. split; [exact H3 |].
  exact (toggleStep_twice_restores_fields taskA "ms_2" world_ab world_toggled1
           task_toggled1 world_toggled2 H1 H2 H3).
Defined.

Lemma handleComplete_advances_queue_witness :
  focusQueue today0 (tasks (app world_ab)) = taskA :: []
  /\ handleComplete today0 world_ab = Ok tt (world_of (handleComplete today0 world_ab))
  /\ (exists t',
        db_tasks (db (world_of (handleComplete today0 world_ab))) !! task_id taskA
        = Some t'
        /\ status (task_data t') = completed)
  /\ (forall t,
        In t (focusQueue today0 (tasks (app (world_of (handleComplete today0 world_ab)))))
        <-> In t (focusQueue today0 (tasks (app world_ab)))
            /\ task_id t <> task_id taskA).
Proof.
  assert (H1 : focusQueue today0 (tasks (app world_ab)) = taskA :: [])
    by (vm_compute; reflexivity).
  assert (H2 : handleComplete today0 world_ab
               = Ok tt (world_of (handleComplete today0 world_ab)))
    by (apply returned_unit, (handleComplete_returns today0 world_ab taskA [] H1);
        vm_compute; reflexivity).
  split; [exact H1 |]. split; [exact H2 |].
  exact (handleComplete_advances_queue today0 world_ab taskA [] _ H1 H2).
Defined.

Lemma handleSkip_advances_queue_witness :
  focusQueue today0 (tasks (app world_ab)) = taskA :: []
  /\ handleSkip today0 world_ab = Ok tt (world_of (handleSkip today0 world_ab))
  /\ (exists t',
        db_tasks (db (world_of (handleSkip today0 world_ab))) !! task_id taskA = Some t'
        /\ status (task_data t') = deferred)
  /\ (forall t,
        In t (focusQueue today0 (tasks (app (world_of (handleSkip today0 world_ab)))))
        <-> In t (focusQueue today0 (tasks (app world_ab)))
            /\ task_id t <> task_id taskA).
Proof.
  assert (H1 : focusQueue today0 (tasks (app world_ab)) = taskA :: [])
    by (vm_compute; reflexivity).
  assert (H2 : handleSkip today0 world_ab
               = Ok tt (world_of (handleSkip today0 world_ab)))
    by (apply returned_unit, (handleSkip_returns today0 world_ab taskA [] H1);
        vm_compute; reflexivity).
  split; [exact H1 |]. split; [exact H2 |].
  exact (handleSkip_advances_queue today0 world_ab taskA [] _ H1 H2).
Defined.

Lemma JSON_stringify_string_inj_witness :
  JSON_stringify_string "say \hi" = JSON_stringify_string "say \hi"
  /\ "say \hi" = "say \hi".
Proof.
  split; [reflexivity |].
  apply (JSON_stringify_string_inj "say \hi" "say \hi"). reflexivity.
Defined.
